(** * ai-youtube-news: the aggregation-and-digest pipeline

    A shallow embedding of the two workflow scripts
    [.github/workflows/yt_news.py] and [.github/workflows/yt_minutes.py].

    - Python [str] values are lists of Unicode code points, so that [len],
      slicing and the lexical comparison [>=] are the ones of the scripts.
    - Calls to the YouTube Data API, to the Slack webhook and to the system
      clock go through a state-and-exception monad: the state is the log of
      what was sent, the exception is what [raise_for_status] raises, or
      the [ValueError] or [OverflowError] of [datetime].
    - The interpreter's own library ([str.lower], [datetime]) is a parameter
      of the development. *)

From Stdlib Require Import ZArith NArith List Ascii String Lia Permutation Sorted.
From Stdlib Require Import DecimalString.
From stdpp Require Import base tactics option list gmap sets fin_sets.
From Equations Require Import Equations.
Import ListNotations.

Local Open Scope list_scope.
#[local] Set Warnings "-clear-no-such-hyp".

(** ** Python strings *)

Module PyStr.

(** A character is its code point; a string is the list of them. *)
Abbreviation str := (list N).

(** An ASCII literal of the scripts, as code points. *)
Definition lit (s : string) : str :=
  map N_of_ascii (list_ascii_of_string s).

Definition LF : N := 10.     (* "\n" *)
Definition CR : N := 13.     (* "\r" *)
Definition TAB : N := 9.     (* "\t" *)
Definition SPACE : N := 32.  (* " " *)

(** [a < b], [a == b], [a > b] on [str]: code point by code point, a proper
    prefix being smaller. *)
Fixpoint str_compare (a b : str) : comparison :=
  match a, b with
  | [], [] => Eq
  | [], _ :: _ => Lt
  | _ :: _, [] => Gt
  | x :: a', y :: b' =>
      match N.compare x y with
      | Eq => str_compare a' b'
      | c => c
      end
  end.

(** [a >= b]. *)
Definition str_ge (a b : str) : bool :=
  match str_compare a b with Lt => false | _ => true end.

(** [a < b]. *)
Definition str_lt (a b : str) : bool :=
  match str_compare a b with Lt => true | _ => false end.

(** Truthiness of a [str]: the empty string is falsy. *)
Definition truthy (s : str) : bool :=
  match s with [] => false | _ :: _ => true end.

(** Truthiness of [d.get(k)] for a string-valued key: [None] is falsy, and
    so is the empty string. *)
Definition truthy_opt (o : option str) : bool :=
  match o with Some s => truthy s | None => false end.

(** [s.startswith(p)]. *)
Fixpoint startswith (p s : str) : bool :=
  match p, s with
  | [], _ => true
  | _ :: _, [] => false
  | x :: p', y :: s' => N.eqb x y && startswith p' s'
  end.

(** [k in s]: [k] occurs in [s] as a contiguous substring. *)
Fixpoint contains (k s : str) : bool :=
  startswith k s ||
  match s with
  | [] => false
  | _ :: s' => contains k s'
  end.

(** [sep.join(parts)]. *)
Fixpoint join (sep : str) (parts : list str) : str :=
  match parts with
  | [] => []
  | [p] => p
  | p :: ps => p ++ sep ++ join sep ps
  end.

(** [s.split(sep)] for a one-character separator: every occurrence cuts,
    empty pieces are kept. *)
Fixpoint split_on (sep : N) (s : str) : list str :=
  match s with
  | [] => [[]]
  | c :: s' =>
      if N.eqb c sep then [] :: split_on sep s'
      else match split_on sep s' with
           | f :: fs => (c :: f) :: fs
           | [] => [[c]]
           end
  end.

(** [s.replace(old, new)]: the occurrences of [old], leftmost first and not
    overlapping. [skip] counts the characters of a matched occurrence that
    are still to be passed over. *)
Fixpoint replace_go (old new : str) (skip : nat) (s : str) : str :=
  match s with
  | [] => []
  | c :: s' =>
      match skip with
      | S k => replace_go old new k s'
      | O =>
          if startswith old s
          then new ++ replace_go old new (length old - 1) s'
          else c :: replace_go old new 0 s'
      end
  end.

Definition replace (old new s : str) : str :=
  match old with
  | [] => new ++ concat (map (fun c => c :: new) s)
  | _ :: _ => replace_go old new 0 s
  end.

(** The characters for which [str.isspace] holds; [str.strip()] and the
    pattern [\s] of [re] on [str] patterns use this same set. *)
Definition isspace (c : N) : bool :=
  ((9 <=? c) && (c <=? 13) || (28 <=? c) && (c <=? 32) ||
   (c =? 133) || (c =? 160) || (c =? 5760) ||
   (8192 <=? c) && (c <=? 8202) ||
   (c =? 8232) || (c =? 8233) || (c =? 8239) || (c =? 8287) ||
   (c =? 12288))%N.

(** [s.lstrip(chars)], [s.rstrip(chars)], [s.strip(chars)], the set of
    characters given as a predicate. *)
Fixpoint lstrip (p : N -> bool) (s : str) : str :=
  match s with
  | [] => []
  | c :: s' => if p c then lstrip p s' else s
  end.

Fixpoint rstrip (p : N -> bool) (s : str) : str :=
  match s with
  | [] => []
  | c :: s' =>
      match rstrip p s' with
      | [] => if p c then [] else [c]
      | r => c :: r
      end
  end.

Definition strip (p : N -> bool) (s : str) : str := rstrip p (lstrip p s).

(** [s.split()] without separator: the maximal runs of characters that are
    not whitespace. [cur] is the run being read, reversed. *)
Fixpoint split_ws_go (cur : str) (s : str) : list str :=
  match s with
  | [] => match cur with [] => [] | _ :: _ => [rev cur] end
  | c :: s' =>
      if isspace c
      then match cur with
           | [] => split_ws_go [] s'
           | _ :: _ => rev cur :: split_ws_go [] s'
           end
      else split_ws_go (c :: cur) s'
  end.

Definition split_ws (s : str) : list str := split_ws_go [] s.

(** [re.split(r"[...]+", s)] for a character class [cls]: the pieces
    between the maximal runs of class characters; a run at either end
    leaves an empty piece there. [in_run] says that the character before
    belonged to a run. *)
Fixpoint re_split_go (cls : N -> bool) (in_run : bool) (s : str) : list str :=
  match s with
  | [] => [[]]
  | c :: s' =>
      if cls c
      then if in_run then re_split_go cls true s'
           else [] :: re_split_go cls true s'
      else match re_split_go cls false s' with
           | f :: fs => (c :: f) :: fs
           | [] => [[c]]
           end
  end.

Definition re_split (cls : N -> bool) (s : str) : list str :=
  re_split_go cls false s.

(** [re.sub(r"[...]+", repl, s)] for a character class [cls]: every maximal
    run of class characters becomes [repl], written when the run ends. *)
Fixpoint re_sub (cls : N -> bool) (repl : str) (s : str) : str :=
  match s with
  | [] => []
  | c :: s' =>
      if cls c
      then match s' with
           | [] => repl
           | d :: _ => if cls d then re_sub cls repl s' else repl ++ re_sub cls repl s'
           end
      else c :: re_sub cls repl s'
  end.

(** [l[:n]] for a Python [int] [n], negative ones counting from the end. *)
Definition slice_to {A} (l : list A) (n : Z) : list A :=
  if (0 <=? n)%Z then take (Z.to_nat n) l
  else take (length l - Z.to_nat (- n)) l.

(** [str(n)] for an [int]. *)
Definition str_of_int (n : Z) : str :=
  lit (NilZero.string_of_int (Z.to_int n)).

(** [str.lower] restricted to the letters A-Z; it agrees with Python's on
    ASCII text. *)
Definition lower_ascii (s : str) : str :=
  map (fun c => if ((65 <=? c) && (c <=? 90))%N then (c + 32)%N else c) s.

End PyStr.
Import PyStr.

(** ** The interpreter's library

    [str.lower] follows the Unicode tables and [datetime] the calendar; the
    scripts only pass their results along, so both are taken as given. An
    instant is a number of microseconds since the epoch. *)

Class PyLib := {
  (** [s.lower()] *)
  lower : str -> str;
  (** [dt.astimezone(timezone.utc).isoformat(timespec="seconds")] *)
  isoformat_seconds_utc : Z -> str;
  (** [datetime.fromisoformat(s)], [None] where it raises [ValueError] *)
  fromisoformat : str -> option Z;
  (** [dt.astimezone(timezone(timedelta(hours=h))).strftime(fmt)], for an
      instant that the zone can show *)
  strftime : str -> Z -> Z -> str
}.

(** ** Data model: the payloads of the YouTube Data API

    A field read with [d["k"]] is a field of the record; a field read with
    [d.get("k")] is an [option]; [r.get("items", [])] is a list. *)

(** An entry of [channels.list]: [contentDetails.relatedPlaylists.uploads]. *)
Record channel_item := { uploads : str }.

(** An entry of [playlistItems.list]: [contentDetails]. *)
Record playlist_item := {
  videoId : str;
  videoPublishedAt : option str
}.

(** An entry of [videos.list]: [id] and [snippet]. *)
Record video := {
  v_id : str;
  title : option str;
  channelTitle : option str;
  publishedAt : str;
  description : option str
}.

(** The three calls the scripts make through [http_get], with their
    parameters, and what each answers. *)
Inductive request :=
| ChannelsList (id : str)
| PlaylistItemsList (playlistId : str) (maxResults : Z)
| VideosList (id : str).

Definition response (r : request) : Type :=
  match r with
  | ChannelsList _ => list channel_item
  | PlaylistItemsList _ _ => list playlist_item
  | VideosList _ => list video
  end.

(** Slack blocks of [yt_news.py] and the two JSON payloads posted. *)
Inductive block :=
| Header (text : str)
| SectionBlock (text : str)
| ContextBlock (elements : list str)
| Divider.

Inductive payload :=
| TextPayload (text : str)
| BlocksPayload (text : str) (blocks : list block).

(** What a call can raise. *)
Inductive exn :=
| HTTPError (status : Z)
| RequestException
| ValueError
| OverflowError.

(** The environment variables read at import time. *)
Record config := {
  CHANNEL_IDS : list str;
  HOURS_WINDOW : Z;
  MAX_PER_CHANNEL : Z
}.

(** The world outside: the API, the webhook and the clock ([clock w k] is
    what the [k]-th reading of the clock returns). *)
Record world := {
  api : forall r : request, exn + response r;
  webhook : payload -> option exn;
  clock : nat -> Z
}.

(** ** Effects *)

Inductive event :=
| EvGet (r : request)
| EvPost (p : payload).

Record state := State {
  log : list event;
  ticks : nat
}.

Definition init : state := State [] 0.

(** A computation runs from a state to a state and either raises or
    returns. *)
Definition M (A : Type) : Type := state -> state * (exn + A).

#[global] Instance M_ret : MRet M := fun A x st => (st, inr x).
#[global] Instance M_bind : MBind M := fun A B f m st =>
  match m st with
  | (st', inr x) => f x st'
  | (st', inl e) => (st', inl e)
  end.

Definition raise {A} (e : exn) : M A := fun st => (st, inl e).

(** The value of an expression of [datetime] arithmetic, or the
    [OverflowError] it raises. *)
Definition or_overflow {A} (o : option A) : M A :=
  match o with
  | Some x => mret x
  | None => raise OverflowError
  end.

(** [for x in l: body], the loop state threaded through. *)
Fixpoint for_each {A S} (l : list A) (body : A -> S -> M S) (s : S) : M S :=
  match l with
  | [] => mret s
  | x :: l' => s' ← body x s; for_each l' body s'
  end.

(** The requests and the posts of a log. *)
Definition gets (l : list event) : list request :=
  omap (fun e => match e with EvGet r => Some r | EvPost _ => None end) l.

Definition posts (l : list event) : list payload :=
  omap (fun e => match e with EvPost p => Some p | EvGet _ => None end) l.

(** ** The keyword table and the fixed texts *)

(** [KEYWORDS], in the order it is written: a [dict] iterates in insertion
    order. The labels are Japanese; they are listed by code point. *)
Definition KEYWORDS : list (str * str) :=
  [ (lit "multimodal", [12510; 12523; 12481; 12514; 12540; 12480; 12523]%N);
    (lit "vision", [30011; 20687; 47; 21205; 30011]%N);
    (lit "video", [30011; 20687; 47; 21205; 30011]%N);
    (lit "audio", [38899; 22768]%N);
    (lit "agent", [12456; 12540; 12472; 12455; 12531; 12488]%N);
    (lit "tool", [12484; 12540; 12523; 23455; 34892]%N);
    (lit "safety", [23433; 20840; 24615]%N);
    (lit "copyright", [33879; 20316; 27177]%N);
    (lit "regulation", [35215; 21046]%N);
    (lit "construction", [24314; 35373; 47; 26045; 24037]%N);
    (lit "marketing", [21942; 26989; 47; 12510; 12540; 12465]%N);
    (lit "open-source", lit "OSS");
    (lit "finance", [37329; 34701]%N) ].

(** The tag given when no keyword matches. *)
Definition GENERAL_TOPIC : str := [19968; 33324; 12488; 12500; 12483; 12463]%N.

(** The horizontal ellipsis appended to a cut text. *)
Definition ELLIPSIS : N := 8230.

(** The placeholder for a missing description. *)
Definition NO_DESCRIPTION : str := [65288; 35500; 26126; 12394; 12375; 65289]%N.

(** The placeholder for an empty tag line. *)
Definition NO_TAGS : str := [65288; 12394; 12375; 65289]%N.

(** [JST = timezone(timedelta(hours=9))], as its offset in hours. *)
Definition JST : Z := 9.

(** The characters of [line.strip(" ・-•\t")]. *)
Definition bullet_marks (c : N) : bool :=
  ((c =? 32) || (c =? 12539) || (c =? 45) || (c =? 8226) || (c =? 9))%N.

(** The class of the pattern [[。.!?・•\-]+]. *)
Definition sentence_delims (c : N) : bool :=
  ((c =? 12290) || (c =? 46) || (c =? 33) || (c =? 63) ||
   (c =? 12539) || (c =? 8226) || (c =? 45))%N.

(** ** Functions that use neither the network nor the clock *)

(** The instants a [datetime] can hold, as microseconds since the epoch:
    from 0001-01-01T00:00:00 to 9999-12-31T23:59:59.999999. *)
Definition DATETIME_MIN : Z := (-62135596800000000)%Z.
Definition DATETIME_MAX : Z := 253402300799999999%Z.

Definition in_datetime_range (t : Z) : bool :=
  ((DATETIME_MIN <=? t) && (t <=? DATETIME_MAX))%Z.

(** [timedelta(hours=h)] in microseconds, [None] where it raises
    [OverflowError]: the days of the normalized value, [h // 24], must
    have a magnitude of at most 999999999. *)
Definition timedelta_hours (h : Z) : option Z :=
  if (Z.abs (h / 24) <=? 999999999)%Z then Some (h * 3600000000)%Z else None.

(** [dt.astimezone(timezone(timedelta(hours=tz)))], [None] where it raises
    [OverflowError]: the instant is first written in UTC and then in the
    zone, and both must be a [datetime]. The instant stays the same. *)
Definition astimezone (tz dt : Z) : option Z :=
  if in_datetime_range dt && in_datetime_range (dt + tz * 3600000000)
  then Some dt else None.

(** The loop of [list_recent_video_ids] over the entries returned. *)
Definition recent_ids (items : list playlist_item) (published_after_z : str)
  : list str :=
  foldl (fun ids it =>
           let vid := videoId it in
           let pub := videoPublishedAt it in
           if truthy_opt pub && str_ge (default [] pub) published_after_z
           then ids ++ [vid]
           else ids)
        [] items.

(** [chunked(iterable, size)]: the chunks the generator yields, in order.
    [list(islice(it, size))] is empty, and the generator returns, exactly
    when nothing is left or [size] is 0. *)
Equations? chunked {A} (l : list A) (size : nat) : list (list A)
  by wf (length l) lt :=
  chunked [] _ := [];
  chunked (x :: l) 0 := [];
  chunked (x :: l) (S n) :=
    take (S n) (x :: l) :: chunked (drop (S n) (x :: l)) (S n).
Proof. rewrite length_drop. simpl. lia. Qed.

(** [all_ids.update(ids)]. *)
Definition set_update (all_ids : gset str) (ids : list str) : gset str :=
  all_ids ∪ list_to_set ids.

(** [l.sort(key=key, reverse=True)] on string keys. The sort of Python is
    stable, also with [reverse=True]: elements whose keys are equal keep the
    order they had. [insert_desc x l] puts [x], which stood before all of
    [l], in front of the first element whose key is not greater. *)
Fixpoint insert_desc {A} (key : A -> str) (x : A) (l : list A) : list A :=
  match l with
  | [] => [x]
  | y :: l' =>
      if str_lt (key x) (key y) then y :: insert_desc key x l'
      else x :: l
  end.

Fixpoint sort_desc {A} (key : A -> str) (l : list A) : list A :=
  match l with
  | [] => []
  | x :: l' => insert_desc key x (sort_desc key l')
  end.

(** [trim(s, n)] of [yt_news.py]. *)
Definition trim (s : str) (n : Z) : str :=
  let s := join [SPACE] (split_ws s) in
  if (n <? Z.of_nat (length s))%Z then slice_to s n ++ [ELLIPSIS] else s.

(** [normalize_text(s)] of [yt_minutes.py]. *)
Definition normalize_text (s : str) : str :=
  let s := strip isspace s in
  let s := re_sub isspace [SPACE] s in
  s.

(** [bullets_from_description(desc, max_items)] of [yt_minutes.py]. *)
Definition bullets_from_description (desc : str) (max_items : Z) : list str :=
  if negb (truthy desc) then [] else
  let raw := split_on LF (replace [CR] [] desc) in
  let parts :=
    foldl (fun parts line =>
             let line := strip bullet_marks line in
             if negb (truthy line) then parts else
             let fragments := re_split sentence_delims line in
             foldl (fun parts f =>
                      let f := normalize_text f in
                      if (8 <=? length f)%nat then parts ++ [f] else parts)
                   parts fragments)
          [] raw in
  slice_to parts max_items.

(** ** The scripts

    [get_uploads_pid], [list_recent_video_ids], [chunked],
    [fetch_videos_meta], [make_tags] and the loop at the head of [main] are
    written the same in both scripts and are embedded once. *)

Section Pipeline.

Context {py : PyLib} (w : world) (cfg : config).

(** [datetime.now(tz)]: one reading of the clock. *)
Definition now : M Z := fun st =>
  (State (log st) (S (ticks st)), inr (clock w (ticks st))).

(** [dt - timedelta(hours=h)], [None] where it raises [OverflowError]:
    [timedelta] refuses more than 999999999 days either way, and the
    subtraction refuses a result that is not a [datetime]. *)
Definition minus_hours (dt h : Z) : option Z :=
  match timedelta_hours h with
  | Some d => if in_datetime_range (dt - d) then Some (dt - d)%Z else None
  | None => None
  end.

Definition to_iso_z (dt : Z) : str :=
  replace (lit "+00:00") (lit "Z") (isoformat_seconds_utc dt).

Definition to_jst_str (iso_z : str) : M str :=
  match fromisoformat (replace (lit "Z") (lit "+00:00") iso_z) with
  | Some dt =>
      dt ← or_overflow (astimezone JST dt);
      mret (strftime (lit "%Y-%m-%d %H:%M") JST dt)
  | None => raise ValueError
  end.

(** [http_get(url, **params)]: the request goes out, then
    [raise_for_status] raises or the decoded answer is returned. *)
Definition http_get (r : request) : M (response r) := fun st =>
  (State (log st ++ [EvGet r]) (ticks st), api w r).

(** [requests.post(SLACK_WEBHOOK, json=payload)] and its
    [raise_for_status]. *)
Definition slack_post (p : payload) : M unit := fun st =>
  (State (log st ++ [EvPost p]) (ticks st),
   match webhook w p with Some e => inl e | None => inr tt end).

Definition get_uploads_pid (channel_id : str) : M (option str) :=
  items ← http_get (ChannelsList channel_id);
  match items with
  | [] => mret None
  | it :: _ => mret (Some (uploads it))
  end.

Definition list_recent_video_ids (uploads_pid published_after_z : str)
  : M (list str) :=
  r ← http_get (PlaylistItemsList uploads_pid
                  (Z.min (MAX_PER_CHANNEL cfg) 50));
  mret (recent_ids r published_after_z).

Definition fetch_videos_meta (video_ids : list str) : M (list video) :=
  for_each (chunked video_ids 50)
    (fun chunk items =>
       r ← http_get (VideosList (join (lit ",") chunk));
       mret (items ++ r))
    [].

Definition make_tags (title desc : str) : list str :=
  let text := lower (title ++ [LF] ++ desc) in
  let tags :=
    map snd (List.filter (fun kv => contains (fst kv) text) KEYWORDS) in
  match slice_to tags 5 with
  | [] => [GENERAL_TOPIC]
  | t => t
  end.

(** The loop over [CHANNEL_IDS] at the head of [main]; [continue] leaves
    [all_ids] as it is. *)
Definition collect_step (published_after_z : str) (ch : str)
    (all_ids : gset str) : M (gset str) :=
  upid ← get_uploads_pid ch;
  if negb (truthy_opt upid) then mret all_ids
  else
    ids ← list_recent_video_ids (default [] upid) published_after_z;
    mret (set_update all_ids ids).

Definition collect_ids (published_after_z : str) : M (gset str) :=
  for_each (CHANNEL_IDS cfg) (collect_step published_after_z) ∅.

(** *** yt_news.py *)

Definition post_to_slack (blocks : list block) : M unit :=
  slack_post
    (BlocksPayload [65; 73; 12488; 12524; 12531; 12489; 26032; 30528]%N
       blocks).

(** The description and the tags of one entry, as the loop of [main]
    computes them: [desc] is cut by [trim] first, and the tags are made
    from the cut text. *)
Definition news_title (it : video) : str :=
  default (lit "(no title)") (title it).

Definition news_desc (it : video) : str :=
  trim (default NO_DESCRIPTION (description it)) 180.

Definition news_tags (it : video) : list str :=
  make_tags (news_title it) (news_desc it).

Definition news_item_blocks (it : video) : M (list block) :=
  let title := news_title it in
  let url := lit "https://www.youtube.com/watch?v=" ++ v_id it in
  let chname := default (lit "(unknown)") (channelTitle it) in
  pub_jst ← to_jst_str (publishedAt it);
  let desc := news_desc it in
  let tags := join (lit ", ") (news_tags it) in
  mret
    [ SectionBlock
        (lit "*<" ++ url ++ lit "|" ++ title ++ lit ">*" ++ [LF] ++ desc);
      ContextBlock
        [ lit ":bust_in_silhouette: " ++ chname;
          lit ":calendar: " ++ pub_jst ++ lit " JST";
          lit ":label: " ++ tags ];
      Divider ].

Definition news_header : block :=
  Header
    ([65; 73; 12488; 12524; 12531; 12489; 26032; 30528; 65288; 36942;
      21435]%N ++ str_of_int (HOURS_WINDOW cfg) ++ [104; 65289]%N).

(** [list(all_ids)] lists a set in an order the language does not fix;
    [elements] is one such order. *)
Definition news_main : M unit :=
  t ← now;
  after ← or_overflow (minus_hours t (HOURS_WINDOW cfg));
  let published_after_z := to_iso_z after in
  all_ids ← collect_ids published_after_z;
  if decide (all_ids = ∅) then mret tt
  else
    metas ← fetch_videos_meta (elements all_ids);
    let metas := sort_desc publishedAt metas in
    blocks ← for_each metas
               (fun it blocks =>
                  bs ← news_item_blocks it; mret (blocks ++ bs))
               [news_header];
    post_to_slack blocks.

(** *** yt_minutes.py *)

Definition post_to_slack_text (text : str) : M unit :=
  slack_post (TextPayload text).

Definition minutes_tags (it : video) : list str :=
  make_tags (default (lit "(no title)") (title it))
            (default [] (description it)).

Definition minutes_bullets (it : video) : list str :=
  let desc := default [] (description it) in
  if truthy desc then
    match bullets_from_description desc 3 with
    | [] => [slice_to (normalize_text desc) 100 ++ [ELLIPSIS]]
    | bs => bs
    end
  else [NO_DESCRIPTION].

Definition minutes_item_lines (idx : nat) (it : video) : M (list str) :=
  let title := default (lit "(no title)") (title it) in
  let url := lit "https://www.youtube.com/watch?v=" ++ v_id it in
  let chname := default (lit "(unknown)") (channelTitle it) in
  pub_jst ← to_jst_str (publishedAt it);
  let tags := join [SPACE] (map (fun t => lit "#" ++ t) (minutes_tags it)) in
  let bullets := minutes_bullets it in
  mret
    ([ [12304; 35696; 38988]%N ++ str_of_int (Z.of_nat idx) ++ [12305]%N
         ++ title;
       [45; 32; 26085; 26178; 65306]%N ++ pub_jst ++ lit " JST";
       [45; 32; 30330; 34920; 32773; 65306]%N ++ chname;
       [45; 32; 27010; 35201; 65306]%N ]
     ++ map (fun b => [32; 32; 32; 12539]%N ++ b) bullets
     ++ [ [45; 32; 85; 82; 76; 65306]%N ++ url;
          [45; 32; 12479; 12464; 65306]%N
            ++ (if truthy tags then tags else NO_TAGS);
          repeat 9472%N 24;
          [] ]).

Definition build_minutes_text (metas : list video) : M str :=
  t ← now;
  let date_str := strftime (lit "%Y-%m-%d") JST t in
  lines ← for_each (combine (seq 1 (length metas)) metas)
            (fun '(idx, it) lines =>
               ls ← minutes_item_lines idx it; mret (lines ++ ls))
            [ [128196; 32; 65; 73; 12488; 12524; 12531; 12489; 31038;
               20869; 22577; 65288]%N ++ date_str ++ [65289]%N;
              [] ];
  mret (join [LF] lines).

(** The text of the notice sent when nothing is new. *)
Definition no_news_text (date_str : str) : str :=
  [128196; 32; 65; 73; 12488; 12524; 12531; 12489; 31038; 20869; 22577;
   65306; 26032; 30528; 12394; 12375; 65288]%N
  ++ date_str ++ [32; 74; 83; 84; 44; 32; 36942; 21435]%N
  ++ str_of_int (HOURS_WINDOW cfg) ++ [104; 65289]%N.

Definition minutes_main : M unit :=
  t ← now;
  after ← or_overflow (minus_hours t (HOURS_WINDOW cfg));
  let published_after_z := to_iso_z after in
  all_ids ← collect_ids published_after_z;
  if decide (all_ids = ∅) then
    t' ← now;
    let date_str := strftime (lit "%Y-%m-%d %H:%M") JST t' in
    post_to_slack_text (no_news_text date_str)
  else
    metas ← fetch_videos_meta (elements all_ids);
    let metas := sort_desc publishedAt metas in
    text ← build_minutes_text metas;
    post_to_slack_text text.

End Pipeline.

(** ** A concrete library, configuration and world for the examples *)

Module Sample.

(** The civil date of a day number (days since 1970-01-01), proleptic
    Gregorian calendar, and back. *)
Definition civil_from_days (z : Z) : Z * Z * Z :=
  let z := (z + 719468)%Z in
  let era := (z / 146097)%Z in
  let doe := (z - era * 146097)%Z in
  let yoe := ((doe - doe / 1460 + doe / 36524 - doe / 146096) / 365)%Z in
  let doy := (doe - (365 * yoe + yoe / 4 - yoe / 100))%Z in
  let mp := ((5 * doy + 2) / 153)%Z in
  let d := (doy - (153 * mp + 2) / 5 + 1)%Z in
  let m := (if mp <? 10 then mp + 3 else mp - 9)%Z in
  let y := (yoe + era * 400 + (if m <=? 2 then 1 else 0))%Z in
  (y, m, d).

Definition days_from_civil (y m d : Z) : Z :=
  let y := (if m <=? 2 then y - 1 else y)%Z in
  let era := (y / 400)%Z in
  let yoe := (y - era * 400)%Z in
  let doy := ((153 * (if 2 <? m then m - 3 else m + 9) + 2) / 5 + d - 1)%Z in
  let doe := (yoe * 365 + yoe / 4 - yoe / 100 + doy)%Z in
  (era * 146097 + doe - 719468)%Z.

(** [n] in decimal, padded with zeros to [width] digits. *)
Definition padded (width : nat) (n : Z) : str :=
  let s := str_of_int n in
  repeat 48%N (width - length s) ++ s.

(** The field a directive of [strftime] stands for, at [secs] seconds since
    the epoch of local time. *)
Definition directive (secs : Z) (c : N) : str :=
  let '(y, m, d) := civil_from_days (secs / 86400) in
  let tod := (secs mod 86400)%Z in
  if (c =? 89)%N then padded 4 y                       (* %Y *)
  else if (c =? 109)%N then padded 2 m                 (* %m *)
  else if (c =? 100)%N then padded 2 d                 (* %d *)
  else if (c =? 72)%N then padded 2 (tod / 3600)       (* %H *)
  else if (c =? 77)%N then padded 2 (tod mod 3600 / 60) (* %M *)
  else if (c =? 83)%N then padded 2 (tod mod 60)       (* %S *)
  else [37%N; c].

Fixpoint format_go (secs : Z) (fmt : str) : str :=
  match fmt with
  | [] => []
  | c :: rest =>
      if (c =? 37)%N then
        match rest with
        | d :: rest' => directive secs d ++ format_go secs rest'
        | [] => [c]
        end
      else c :: format_go secs rest
  end.

(** The digits of a decimal numeral. *)
Definition digit (c : N) : option Z :=
  if ((48 <=? c) && (c <=? 57))%N then Some (Z.of_N c - 48)%Z else None.

Definition number (s : str) : option Z :=
  foldl (fun acc c =>
           match acc, digit c with
           | Some n, Some d => Some (10 * n + d)%Z
           | _, _ => None
           end) (Some 0%Z) s.

(** [YYYY-MM-DDTHH:MM:SS+00:00], the only form the examples use. *)
Definition parse_iso (s : str) : option Z :=
  if decide (length s = 25 /\ drop 19 s = lit "+00:00") then
    match number (take 4 s), number (take 2 (drop 5 s)),
          number (take 2 (drop 8 s)), number (take 2 (drop 11 s)),
          number (take 2 (drop 14 s)), number (take 2 (drop 17 s)) with
    | Some y, Some m, Some d, Some hh, Some mm, Some ss =>
        Some ((days_from_civil y m d * 86400 + hh * 3600 + mm * 60 + ss)
              * 1000000)%Z
    | _, _, _, _, _, _ => None
    end
  else None.

#[export] Instance py : PyLib := {|
  lower := lower_ascii;
  isoformat_seconds_utc dt :=
    format_go (dt / 1000000) (lit "%Y-%m-%dT%H:%M:%S") ++ lit "+00:00";
  fromisoformat := parse_iso;
  strftime fmt h dt := format_go (dt / 1000000 + h * 3600) fmt
|}.

(** Three channels: the second one has no upload list; the first and the
    third share one video. *)
Definition cfg : config := {|
  CHANNEL_IDS := [lit "UC_alpha"; lit "UC_gone"; lit "UC_beta"];
  HOURS_WINDOW := 24;
  MAX_PER_CHANNEL := 10
|}.

Definition intro_description : str :=
  lit "Intro." ++ [LF] ++ lit "Built with RAG and tool use." ++ [LF]
  ++ lit "Short." ++ [LF].

Definition catalogue : list video :=
  [ {| v_id := lit "vidA1"; title := Some (lit "Agent demo with Vision");
       channelTitle := Some (lit "Alpha");
       publishedAt := lit "2024-05-01T08:30:00Z";
       description := Some intro_description |};
    {| v_id := lit "vidB1"; title := Some (lit "Weekly update");
       channelTitle := Some (lit "Beta");
       publishedAt := lit "2024-05-01T09:00:00Z";
       description := None |} ].

Definition answer (r : request) : exn + response r :=
  match r return exn + response r with
  | ChannelsList id =>
      if decide (id = lit "UC_alpha") then inr [ {| uploads := lit "UU_alpha" |} ]
      else if decide (id = lit "UC_beta") then inr [ {| uploads := lit "UU_beta" |} ]
      else inr []
  | PlaylistItemsList pid _ =>
      if decide (pid = lit "UU_alpha") then
        inr [ {| videoId := lit "vidA1";
                 videoPublishedAt := Some (lit "2024-05-01T08:30:00Z") |};
              {| videoId := lit "vidA0";
                 videoPublishedAt := Some (lit "2024-04-29T10:00:00Z") |} ]
      else if decide (pid = lit "UU_beta") then
        inr [ {| videoId := lit "vidB1";
                 videoPublishedAt := Some (lit "2024-05-01T09:00:00Z") |};
              {| videoId := lit "vidA1";
                 videoPublishedAt := Some (lit "2024-05-01T08:30:00Z") |};
              {| videoId := lit "vidB0"; videoPublishedAt := None |} ]
      else inl (HTTPError 404)
  | VideosList ids =>
      inr (List.filter
             (fun v => bool_decide (v_id v ∈ split_on 44%N ids)) catalogue)
  end.

(** The clock reads 2024-05-02T00:00:00Z at first and a second more at each
    further reading. *)
Definition w : world := {|
  api := answer;
  webhook := fun _ => None;
  clock := fun k => ((1714608000 + Z.of_nat k) * 1000000)%Z
|}.

(** The same world when nothing was published: no channel is known. *)
Definition quiet : world := {|
  api := fun r =>
    match r return exn + response r with
    | ChannelsList _ => inr []
    | PlaylistItemsList _ _ => inr []
    | VideosList _ => inr []
    end;
  webhook := fun _ => None;
  clock := fun k => ((1714608000 + Z.of_nat k) * 1000000)%Z
|}.

(** An entry whose description names a keyword only after 210 characters
    of other text. *)
Definition late_keyword : video := {|
  v_id := lit "vidL";
  title := Some (lit "Weekly notes");
  channelTitle := Some (lit "Alpha");
  publishedAt := lit "2024-05-01T10:00:00Z";
  description := Some (concat (repeat (lit "update ") 30) ++ lit "agent")
|}.

End Sample.

(** ** Definitions that state the properties *)

(** The entries the claim says are kept: those that have a publish
    timestamp, that timestamp being lexically [>=] the cutoff. *)
Definition claimed_recent (cutoff : str) (it : playlist_item) : bool :=
  match videoPublishedAt it with
  | Some p => str_ge p cutoff
  | None => false
  end.

(** What the guard [pub and pub >= published_after_z] keeps: the timestamp
    is there, is not the empty string, and is [>=] the cutoff. *)
Definition kept (cutoff : str) (it : playlist_item) : bool :=
  match videoPublishedAt it with
  | Some p => truthy p && str_ge p cutoff
  | None => false
  end.

(** The request [fetch_videos_meta] sends for one batch, and what the API
    answers to it (nothing when the call raises). *)
Definition videos_request (chunk : list str) : request :=
  VideosList (join (lit ",") chunk).

Definition videos_answer (w : world) (chunk : list str) : list video :=
  match api w (videos_request chunk) with
  | inr r => r
  | inl _ => []
  end.

(** The accumulator of [main], fed the identifier lists of the sources one
    after the other. *)
Definition accumulate (lists : list (list str)) : gset str :=
  foldl set_update ∅ lists.

(** [a] may stand before [b] in a list sorted newest first: its key is not
    smaller. *)
Definition before {A} (key : A -> str) (a b : A) : Prop :=
  str_ge (key a) (key b) = true.

(** The labels of the keywords that occur in [text], in the order of the
    table: the list [tags] of [make_tags] before it is cut to five. *)
Definition matching_labels (text : str) : list str :=
  map snd (List.filter (fun kv => contains (fst kv) text) KEYWORDS).

(** The last character of [s], if there is one, is not in [p]. *)
Fixpoint clean_end (p : N -> bool) (s : str) : bool :=
  match s with
  | [] => true
  | [c] => negb (p c)
  | _ :: s' => clean_end p s'
  end.

(** Every whitespace character of [s] is a space, and the character after
    it is there and is not whitespace. *)
Fixpoint spaced (s : str) : bool :=
  match s with
  | [] => true
  | c :: s' =>
      (if isspace c
       then N.eqb c SPACE &&
            match s' with d :: _ => negb (isspace d) | [] => false end
       else true)
      && spaced s'
  end.

(** Normal form: no whitespace in front, and [spaced]. *)
Definition normal (s : str) : bool :=
  match s with [] => true | c :: _ => negb (isspace c) end && spaced s.

(** The pieces of a description in the order they are read: the lines, the
    carriage returns taken out, stripped of bullet marks, the empty ones
    skipped, each cut at the runs of sentence delimiters. *)
Definition scan_fragments (desc : str) : list str :=
  concat (map (re_split sentence_delims)
            (List.filter truthy
               (map (strip bullet_marks) (split_on LF (replace [CR] [] desc))))).

(** [m] sends the requests [L], reads no clock, and ends with [r], from
    whatever state it starts. *)
Definition sends {A} (m : M A) (L : list request) (r : exn + A) : Prop :=
  forall st, m st = (State (log st ++ map EvGet L) (ticks st), r).

(** ** Definitions for the further properties *)

(** What the turn of the loop of [main] for one channel sends, and the
    identifiers it finds or the exception it raises. *)
Definition source_requests (w : world) (cfg : config) (ch : str) : list request :=
  match api w (ChannelsList ch) with
  | inr (it :: _) =>
      if truthy (uploads it)
      then [ ChannelsList ch;
             PlaylistItemsList (uploads it) (Z.min (MAX_PER_CHANNEL cfg) 50) ]
      else [ChannelsList ch]
  | _ => [ChannelsList ch]
  end.

Definition source_ids (w : world) (cfg : config) (cutoff ch : str)
  : exn + list str :=
  match api w (ChannelsList ch) with
  | inl e => inl e
  | inr [] => inr []
  | inr (it :: _) =>
      if truthy (uploads it) then
        match api w (PlaylistItemsList (uploads it)
                       (Z.min (MAX_PER_CHANNEL cfg) 50)) with
        | inl e => inl e
        | inr items => inr (recent_ids items cutoff)
        end
      else inr []
  end.

(** The same for the whole loop: the requests up to the first call that
    raises, and the lists found, source by source. *)
Fixpoint loop_requests (w : world) (cfg : config) (cutoff : str)
    (chs : list str) : list request :=
  match chs with
  | [] => []
  | ch :: chs' =>
      source_requests w cfg ch ++
      match source_ids w cfg cutoff ch with
      | inl _ => []
      | inr _ => loop_requests w cfg cutoff chs'
      end
  end.

Fixpoint loop_ids (w : world) (cfg : config) (cutoff : str)
    (chs : list str) : exn + list (list str) :=
  match chs with
  | [] => inr []
  | ch :: chs' =>
      match source_ids w cfg cutoff ch with
      | inl e => inl e
      | inr ids =>
          match loop_ids w cfg cutoff chs' with
          | inl e => inl e
          | inr rest => inr (ids :: rest)
          end
      end
  end.

(** The request [q] is answered, not refused. *)
Definition answered (w : world) (q : request) : Prop :=
  exists a, api w q = inr a.

(** The same for [fetch_videos_meta]: the requests for the batches up to the
    first call that raises, and the entries returned, put together. *)
Fixpoint batch_requests (w : world) (chunks : list (list str)) : list request :=
  match chunks with
  | [] => []
  | c :: cs =>
      videos_request c ::
      match api w (videos_request c) with
      | inl _ => []
      | inr _ => batch_requests w cs
      end
  end.

Fixpoint batch_answers (w : world) (chunks : list (list str))
  : exn + list video :=
  match chunks with
  | [] => inr []
  | c :: cs =>
      match api w (videos_request c) with
      | inl e => inl e
      | inr r =>
          match batch_answers w cs with
          | inl e => inl e
          | inr rest => inr (r ++ rest)
          end
      end
  end.

(** What [r.raise_for_status()] makes of the webhook's answer to [p]. *)
Definition delivery (w : world) (p : payload) : exn + () :=
  match webhook w p with Some e => inl e | None => inr () end.

(** A run that fails fast and delivers at most once. The log is requests
    followed by at most one post. If something was posted, every request
    before it had been answered and the run ends as the delivery does. If
    nothing was posted and the run raised, either every request sent was
    answered and the exception is the [ValueError] of an unreadable
    timestamp or the [OverflowError] of an instant out of the range of
    [datetime] (the cutoff, before any request, or a timestamp to show in
    UTC+9), or the last request sent is the one that raised it and all
    requests before it were answered. *)
Definition fails_fast (w : world) (run : state * (exn + ())) : Prop :=
  exists (L : list request) (po : list payload),
    log run.1 = map EvGet L ++ map EvPost po
    /\ length po <= 1
    /\ (forall p, po = [p] -> run.2 = delivery w p /\ Forall (answered w) L)
    /\ (po = [] -> forall e, run.2 = inl e ->
          ((e = ValueError \/ e = OverflowError) /\ Forall (answered w) L)
          \/ exists L' q, L = L' ++ [q] /\ Forall (answered w) L'
                          /\ api w q = inl e).

(** A computation that sends nothing, reads no clock and can only raise
    [ValueError] or [OverflowError]. *)
Definition renders {A} (m : M A) : Prop :=
  exists r, sends m [] r
            /\ forall e, r = inl e -> e = ValueError \/ e = OverflowError.

(** The list comprehension that fills [CHANNEL_IDS] at the head of both
    scripts, applied to the value of the environment variable:
    [[c.strip() for c in value.split(",") if c.strip()]]. *)
Definition parse_channel_ids (value : str) : list str :=
  map (strip isspace)
    (List.filter (fun c => truthy (strip isspace c)) (split_on 44 value)).

(** [to_jst_str] can read the timestamp: [datetime.fromisoformat] accepts
    it once its [Z] is written as an offset. *)
Definition readable {py : PyLib} (iso_z : str) : Prop :=
  is_Some (fromisoformat (replace (lit "Z") (lit "+00:00") iso_z)).

(** [to_jst_str] can show the timestamp: it can read it, and the instant
    read is one that [astimezone] can move to UTC+9. *)
Definition shown {py : PyLib} (iso_z : str) : Prop :=
  exists dt,
    fromisoformat (replace (lit "Z") (lit "+00:00") iso_z) = Some dt
    /\ astimezone JST dt = Some dt.

(** What [to_jst_str] returns or raises. *)
Definition jst_result {py : PyLib} (iso_z : str) : exn + str :=
  match fromisoformat (replace (lit "Z") (lit "+00:00") iso_z) with
  | Some dt =>
      match astimezone JST dt with
      | Some dt' => inr (strftime (lit "%Y-%m-%d %H:%M") JST dt')
      | None => inl OverflowError
      end
  | None => inl ValueError
  end.

(** The exception [to_jst_str] raises at the first timestamp of [l] it
    cannot show, if there is one. *)
Fixpoint first_unshown {py : PyLib} (l : list str) : option exn :=
  match l with
  | [] => None
  | iso_z :: l' =>
      match jst_result iso_z with
      | inl e => Some e
      | inr _ => first_unshown l'
      end
  end.

(** The two lines the text of [build_minutes_text] begins with, [t] being
    what the clock read. *)
Definition minutes_head {py : PyLib} (t : Z) : list str :=
  [ [128196; 32; 65; 73; 12488; 12524; 12531; 12489; 31038; 20869; 22577;
     65288]%N ++ strftime (lit "%Y-%m-%d") JST t ++ [65289]%N;
    [] ].

(** * Proofs *)

(** ** The order on strings *)

Section StrOrder.

Lemma str_compare_refl (a : str) : str_compare a a = Eq.
Proof.
  induction a as [|x a IH]; simpl; [reflexivity|].
  rewrite N.compare_refl. exact IH.
Qed.

Lemma str_compare_eq (a b : str) : str_compare a b = Eq -> a = b.
Proof.
  revert b. induction a as [|x a IH]; intros [|y b]; simpl; try discriminate.
  - reflexivity.
  - destruct (N.compare_spec x y) as [->|Hlt|Hgt]; try discriminate.
    intros E. f_equal. apply IH, E.
Qed.

Lemma str_compare_antisym (a b : str) :
  str_compare b a = CompOpp (str_compare a b).
Proof.
  revert b. induction a as [|x a IH]; intros [|y b]; simpl; try reflexivity.
  rewrite (N.compare_antisym x y).
  destruct (N.compare x y); simpl; auto.
Qed.

Lemma str_compare_lt_trans (a b c : str) :
  str_compare a b = Lt -> str_compare b c = Lt -> str_compare a c = Lt.
Proof.
  revert b c.
  induction a as [|x a IH]; intros [|y b] [|z c]; simpl; try discriminate;
    try reflexivity.
  destruct (N.compare_spec x y) as [->|Hxy|Hxy]; try discriminate.
  - destruct (N.compare_spec y z) as [->|Hyz|Hyz]; try discriminate.
    + apply IH.
    + reflexivity.
  - intros _.
    destruct (N.compare_spec y z) as [->|Hyz|Hyz]; try discriminate; intros _.
    + apply N.compare_lt_iff in Hxy. rewrite Hxy. reflexivity.
    + assert (Hxz : (x < z)%N) by lia.
      apply N.compare_lt_iff in Hxz. rewrite Hxz. reflexivity.
Qed.

Lemma str_ge_refl (a : str) : str_ge a a = true.
Proof. unfold str_ge. rewrite str_compare_refl. reflexivity. Qed.

Lemma str_ge_lt (a b : str) : str_ge a b = negb (str_lt a b).
Proof. unfold str_ge, str_lt. destruct (str_compare a b); reflexivity. Qed.

Lemma str_lt_irrefl (a : str) : str_lt a a = false.
Proof. unfold str_lt. rewrite str_compare_refl. reflexivity. Qed.

Lemma str_lt_trans (a b c : str) :
  str_lt a b = true -> str_lt b c = true -> str_lt a c = true.
Proof.
  unfold str_lt. intros Hab Hbc.
  destruct (str_compare a b) eqn:Eab; try discriminate.
  destruct (str_compare b c) eqn:Ebc; try discriminate.
  rewrite (str_compare_lt_trans a b c Eab Ebc). reflexivity.
Qed.

(** [a < b] fails exactly when [b <= a]: the order is total. *)
Lemma str_lt_false_ge (a b : str) : str_lt a b = false -> str_ge a b = true.
Proof. rewrite str_ge_lt. intros ->. reflexivity. Qed.

Lemma str_ge_total (a b : str) : str_ge a b = true \/ str_ge b a = true.
Proof.
  unfold str_ge. rewrite (str_compare_antisym a b).
  destruct (str_compare a b); simpl; auto.
Qed.

Lemma str_ge_antisym (a b : str) :
  str_ge a b = true -> str_ge b a = true -> a = b.
Proof.
  unfold str_ge. rewrite (str_compare_antisym a b).
  destruct (str_compare a b) eqn:E; simpl; try discriminate.
  intros _ _. apply str_compare_eq, E.
Qed.

Lemma str_ge_trans (a b c : str) :
  str_ge a b = true -> str_ge b c = true -> str_ge a c = true.
Proof.
  rewrite !str_ge_lt. intros Hab Hbc.
  destruct (str_lt a c) eqn:Hac; [|reflexivity]. exfalso.
  (* a < c and c <= b give a < b *)
  assert (Hcb : str_compare b c <> Lt).
  { unfold str_lt in Hbc. destruct (str_compare b c); simpl in *; congruence. }
  assert (Hba : str_compare a b <> Lt).
  { unfold str_lt in Hab. destruct (str_compare a b); simpl in *; congruence. }
  unfold str_lt in Hac. destruct (str_compare a c) eqn:Eac; try discriminate.
  destruct (str_compare b c) eqn:Ebc; try congruence.
  - apply str_compare_eq in Ebc. subst c. congruence.
  - assert (Ecb : str_compare c b = Lt).
    { rewrite (str_compare_antisym b c), Ebc. reflexivity. }
    pose proof (str_compare_lt_trans a c b Eac Ecb). congruence.
Qed.

(** Everything is [>=] the empty string, and only the empty string is
    [<=] it. *)
Lemma str_ge_nil_r (a : str) : str_ge a [] = true.
Proof. destruct a; reflexivity. Qed.

Lemma str_ge_nil_l (c : str) : str_ge [] c = true -> c = [].
Proof. destruct c; [reflexivity|discriminate]. Qed.

End StrOrder.

(** ** Recency filter *)

Lemma recent_ids_foldl (cutoff : str) (items : list playlist_item) (acc : list str) :
  foldl (fun ids it =>
           if truthy_opt (videoPublishedAt it)
              && str_ge (default [] (videoPublishedAt it)) cutoff
           then ids ++ [videoId it] else ids) acc items
  = acc ++ map videoId (List.filter (kept cutoff) items).
Proof.
  revert acc. induction items as [|it items IH]; intros acc; simpl.
  - rewrite app_nil_r. reflexivity.
  - rewrite IH. unfold kept at 2.
    destruct (videoPublishedAt it) as [p|]; simpl.
    + destruct (truthy p && str_ge p cutoff); simpl.
      * rewrite <- app_assoc. reflexivity.
      * reflexivity.
    + reflexivity.
Qed.

Lemma recent_ids_kept (cutoff : str) (items : list playlist_item) :
  recent_ids items cutoff = map videoId (List.filter (kept cutoff) items).
Proof. unfold recent_ids. apply (recent_ids_foldl cutoff items []). Qed.

Lemma kept_claimed (cutoff : str) (it : playlist_item) :
  cutoff <> [] -> kept cutoff it = claimed_recent cutoff it.
Proof.
  intros Hc. unfold kept, claimed_recent.
  destruct (videoPublishedAt it) as [[|c p]|]; simpl; try reflexivity.
  destruct cutoff; [congruence|reflexivity].
Qed.

(** A replacement that writes something for each occurrence leaves no
    text empty: the cutoff [to_iso_z] makes is empty only if the ISO text
    of the library is. *)
Lemma replace_nonempty (old new s : str) :
  old <> [] -> new <> [] -> s <> [] -> replace old new s <> [].
Proof.
  intros Ho Hn Hs. unfold replace.
  destruct old as [|o old]; [congruence|].
  destruct s as [|c s]; [congruence|]. cbn [replace_go].
  destruct (startswith (o :: old) (c :: s)); [|discriminate].
  destruct new; [congruence|discriminate].
Qed.

(** C1. For every cutoff and every list of feed entries,
    [list_recent_video_ids] asks for the listing once and, when it is
    answered, returns exactly the video identifiers of the entries whose
    publish timestamp is lexically [>=] the cutoff, in the order the
    entries were listed; an entry whose timestamp is lexically below the
    cutoff, or absent, is left out. The cutoff is the text of an instant,
    which is not the empty string: the text [to_iso_z] makes is empty only
    if the ISO text of the library is. The guard of the code also asks for
    a timestamp that is not empty; such a timestamp is below every
    cutoff. *)
Theorem C1_recency_filter (w : world) (cfg : config) (pid cutoff : str)
    (st : state) :
  cutoff <> [] ->
  let req := PlaylistItemsList pid (Z.min (MAX_PER_CHANNEL cfg) 50) in
  list_recent_video_ids w cfg pid cutoff st
  = (State (log st ++ [EvGet req]) (ticks st),
     match api w req with
     | inl e => inl e
     | inr items =>
         inr (map videoId (List.filter (claimed_recent cutoff) items))
     end)
  /\ (forall items,
        recent_ids items cutoff
        = map videoId (List.filter (claimed_recent cutoff) items))
  /\ (forall it, claimed_recent cutoff it = true <->
        exists p, videoPublishedAt it = Some p /\ str_ge p cutoff = true)
  /\ (forall it, claimed_recent cutoff it = false <->
        videoPublishedAt it = None \/
        exists p, videoPublishedAt it = Some p /\ str_lt p cutoff = true)
  /\ (forall it, kept cutoff it = claimed_recent cutoff it)
  /\ (forall it, kept cutoff it = true <->
        exists p, videoPublishedAt it = Some p /\ p <> []
                  /\ str_ge p cutoff = true)
  /\ (forall (py : PyLib) (dt : Z),
        isoformat_seconds_utc dt <> [] -> to_iso_z dt <> []).
Proof.
  intros Hc req.
  assert (Hrec : forall items,
             recent_ids items cutoff
             = map videoId (List.filter (claimed_recent cutoff) items)).
  { intros items. rewrite recent_ids_kept. f_equal.
    induction items as [|it items IH]; [reflexivity|]. simpl.
    rewrite (kept_claimed cutoff it Hc), IH. reflexivity. }
  split; [|split; [|split; [|split; [|split; [|split]]]]].
  - unfold list_recent_video_ids, mbind, M_bind, http_get, mret, M_ret.
    fold req. destruct (api w req) as [e|items]; [reflexivity|].
    simpl. rewrite Hrec. reflexivity.
  - exact Hrec.
  - intros it. unfold claimed_recent.
    destruct (videoPublishedAt it) as [p|].
    + split; [intros H; exists p; split; [reflexivity|exact H]|].
      intros (q & [= <-] & Hge). exact Hge.
    + split; [discriminate|]. intros (q & [=] & _).
  - intros it. unfold claimed_recent.
    destruct (videoPublishedAt it) as [p|].
    + split.
      * intros H. right. exists p. split; [reflexivity|].
        rewrite str_ge_lt in H. destruct (str_lt p cutoff);
          [reflexivity|discriminate].
      * intros [[=]|(q & [= <-] & Hlt)]. rewrite str_ge_lt, Hlt. reflexivity.
    + split; [auto|reflexivity].
  - intros it. apply (kept_claimed cutoff it Hc).
  - intros it. unfold kept. destruct (videoPublishedAt it) as [p|].
    + split.
      * intros H. apply andb_true_iff in H as [Hp Hge].
        exists p. repeat split; [|exact Hge]. intros ->. discriminate.
      * intros (q & [= <-] & Hne & Hge). rewrite Hge.
        destruct p; [congruence|reflexivity].
    + split; [discriminate|]. intros (q & [=] & _).
  - intros py dt Hne. unfold to_iso_z.
    apply replace_nonempty; [discriminate|discriminate|exact Hne].
Qed.

(** C1, witness: a cutoff of the form the script computes and four
    entries, two recent, one old, one without timestamp. *)
Lemma C1_recency_filter_witness :
  lit "2024-05-01T00:00:00Z" <> [] /\
  recent_ids
    [ {| videoId := lit "a"; videoPublishedAt := Some (lit "2024-05-01T08:30:00Z") |};
      {| videoId := lit "b"; videoPublishedAt := Some (lit "2024-04-30T23:59:59Z") |};
      {| videoId := lit "c"; videoPublishedAt := None |};
      {| videoId := lit "d"; videoPublishedAt := Some (lit "2024-05-01T00:00:00Z") |} ]
    (lit "2024-05-01T00:00:00Z")
  = [lit "a"; lit "d"].
Proof.
  assert (Hne : lit "2024-05-01T00:00:00Z" <> []) by discriminate.
  split; [exact Hne|].
  pose proof (C1_recency_filter
                {| api := fun r => inl RequestException;
                   webhook := fun _ => None; clock := fun _ => 0%Z |}
                {| CHANNEL_IDS := []; HOURS_WINDOW := 24; MAX_PER_CHANNEL := 10 |}
                [] (lit "2024-05-01T00:00:00Z") init Hne) as (_ & H & _).
  rewrite H. reflexivity.
Defined.

(** ** Batching *)

Section Chunked.

Context {A : Type}.
Implicit Types (l : list A) (n i : nat).

(** One turn of the generator's loop. *)
Lemma chunked_step l size :
  chunked l size =
  match take size l with
  | [] => []
  | chunk => chunk :: chunked (drop size l) size
  end.
Proof.
  destruct l as [|x l]; [simp chunked; destruct size; reflexivity|].
  destruct size as [|n]; simp chunked; reflexivity.
Qed.

Lemma chunked_nil size : chunked (@nil A) size = [].
Proof. simp chunked. reflexivity. Qed.

Lemma chunked_ind_length (P : list A -> Prop) :
  (forall l, (forall k, length k < length l -> P k) -> P l) -> forall l, P l.
Proof.
  intros H l. remember (length l) as m eqn:Hm. revert l Hm.
  induction m as [m IH] using lt_wf_ind. intros l ->.
  apply H. intros k Hk. apply (IH (length k) Hk k eq_refl).
Qed.

Lemma concat_chunked l n : concat (chunked l (S n)) = l.
Proof.
  induction l as [l IH] using chunked_ind_length.
  destruct l as [|x l]; [rewrite chunked_nil; reflexivity|].
  simp chunked. cbn [concat]. rewrite IH.
  - apply take_drop.
  - rewrite length_drop. simpl. lia.
Qed.

Lemma chunked_sizes l n :
  Forall (fun c => 1 <= length c <= S n) (chunked l (S n)).
Proof.
  induction l as [l IH] using chunked_ind_length.
  destruct l as [|x l]; [rewrite chunked_nil; constructor|].
  simp chunked. constructor.
  - rewrite length_take. simpl. lia.
  - apply IH. rewrite length_drop. simpl. lia.
Qed.

Lemma chunked_length l n :
  length (chunked l (S n)) = (length l + n) / S n.
Proof.
  induction l as [l IH] using chunked_ind_length.
  destruct l as [|x l].
  - rewrite chunked_nil. simpl length. symmetry. apply Nat.div_small. lia.
  - simp chunked. cbn [length]. rewrite IH by (rewrite length_drop; simpl; lia).
    rewrite length_drop. cbn [length].
    destruct (decide (S n <= S (length l))) as [Hle|Hgt].
    + replace (S (length l) + n) with ((S (length l) - S n + n) + 1 * S n) by lia.
      rewrite Nat.div_add by lia. lia.
    + replace (S (length l) - S n + n) with n by lia.
      rewrite (Nat.div_small n (S n)) by lia.
      change (S 0 = (S (length l) + n) / S n).
      apply (Nat.div_unique _ _ 1 (length l)); lia.
Qed.

Lemma chunked_lookup l n i c :
  chunked l (S n) !! i = Some c -> c = take (S n) (drop (i * S n) l).
Proof.
  revert l. induction i as [|i IH]; intros l.
  - destruct l as [|x l]; [rewrite chunked_nil; discriminate|].
    simp chunked. cbn. intros [= <-]. reflexivity.
  - destruct l as [|x l]; [rewrite chunked_nil; discriminate|].
    simp chunked. cbn [lookup list_lookup]. intros H. apply IH in H.
    rewrite H, drop_drop. f_equal.
Qed.

Lemma chunked_disjoint l n i j ci cj x :
  NoDup l ->
  chunked l (S n) !! i = Some ci -> chunked l (S n) !! j = Some cj ->
  x ∈ ci -> x ∈ cj -> i = j.
Proof.
  intros Hnd Hi Hj Hxi Hxj.
  apply chunked_lookup in Hi, Hj. subst ci cj.
  apply list_elem_of_lookup in Hxi as [p Hp], Hxj as [q Hq].
  apply lookup_take_Some in Hp as [Hp Hpn], Hq as [Hq Hqn].
  rewrite lookup_drop in Hp, Hq.
  pose proof (NoDup_lookup _ _ _ _ Hnd Hp Hq) as E. nia.
Qed.

End Chunked.

(** ** Running the monad *)

Lemma state_eta (st : state) : State (log st ++ []) (ticks st) = st.
Proof. destruct st. simpl. rewrite app_nil_r. reflexivity. Qed.

Lemma bind_run {A B} (m : M A) (f : A -> M B) (st : state) :
  (x ← m; f x) st =
  match m st with
  | (st', inr x) => f x st'
  | (st', inl e) => (st', inl e)
  end.
Proof. reflexivity. Qed.

Lemma for_each_cons {A S} (x : A) (l : list A) (body : A -> S -> M S) (s : S)
    (st : state) :
  for_each (x :: l) body s st =
  match body x s st with
  | (st', inr s') => for_each l body s' st'
  | (st', inl e) => (st', inl e)
  end.
Proof. reflexivity. Qed.

(** ** Metadata batch fetcher *)

Section Fetch.

Context (w : world).

Local Abbreviation fetch_loop chunks :=
  (for_each chunks
     (fun chunk items =>
        r ← http_get w (VideosList (join (lit ",") chunk));
        mret (items ++ r))).

Lemma fetch_step (chunk : list str) (items : list video) (st : state) :
  (r ← http_get w (VideosList (join (lit ",") chunk)); mret (items ++ r)) st
  = (State (log st ++ [EvGet (videos_request chunk)]) (ticks st),
     match api w (videos_request chunk) with
     | inl e => inl e
     | inr r => inr (items ++ r)
     end).
Proof.
  rewrite bind_run. unfold http_get. fold (videos_request chunk).
  destruct (api w (videos_request chunk)); reflexivity.
Qed.

Lemma fetch_loop_ok (chunks : list (list str)) (items : list video) (st : state) :
  (forall c, c ∈ chunks -> exists r, api w (videos_request c) = inr r) ->
  fetch_loop chunks items st
  = (State (log st ++ map (fun c => EvGet (videos_request c)) chunks) (ticks st),
     inr (items ++ concat (map (videos_answer w) chunks))).
Proof.
  revert items st. induction chunks as [|c chunks IH]; intros items st Hok.
  - simpl. rewrite state_eta, app_nil_r. reflexivity.
  - destruct (Hok c) as [r Hr]; [left|].
    rewrite for_each_cons, fetch_step, Hr.
    rewrite IH by (intros c' Hc'; apply Hok; right; exact Hc').
    cbn [log ticks map concat]. unfold videos_answer at 2. rewrite Hr.
    rewrite <- !app_assoc. reflexivity.
Qed.

(** Whatever the API answers, the requests sent are the batches, in order,
    up to the first one that fails. *)
Lemma fetch_loop_prefix (chunks : list (list str)) (items : list video) (st : state) :
  exists k, k <= length chunks /\
    (fetch_loop chunks items st).1
    = State (log st ++ map (fun c => EvGet (videos_request c)) (take k chunks))
            (ticks st).
Proof.
  revert items st. induction chunks as [|c chunks IH]; intros items st.
  - exists 0. split; [lia|]. simpl. rewrite state_eta. reflexivity.
  - rewrite for_each_cons, fetch_step.
    destruct (api w (videos_request c)) as [e|r].
    + exists 1. split; [simpl; lia|]. reflexivity.
    + destruct (IH (items ++ r)
                  (State (log st ++ [EvGet (videos_request c)]) (ticks st)))
        as (k & Hk & E).
      exists (S k). split; [simpl; lia|]. rewrite E.
      cbn [log ticks take map]. rewrite <- app_assoc. reflexivity.
Qed.

End Fetch.

(** C3. For every list of N identifiers, [chunked] cuts it into
    ceil(N/50) batches of 1 to 50 identifiers each, batch number i being
    the identifiers at positions 50i to 50i+49, so that the batches in
    order make up the list again, and no identifier of a list without
    repetitions is in two batches; [fetch_videos_meta] sends one request per
    batch, in order, stopping at the first call that raises, and when every
    call is answered it sends exactly these requests and returns the
    answers put together. An empty list sends nothing. *)
Theorem C3_batch_fetcher (w : world) (ids : list str) (st : state) :
  let batches := chunked ids 50 in
  length batches = (length ids + 49) / 50
  /\ (length ids <= 50 * length batches < length ids + 50)
  /\ Forall (fun b => 1 <= length b <= 50) batches
  /\ concat batches = ids
  /\ (forall i b, batches !! i = Some b -> b = take 50 (drop (i * 50) ids))
  /\ (NoDup ids ->
      forall i j bi bj x,
        batches !! i = Some bi -> batches !! j = Some bj ->
        x ∈ bi -> x ∈ bj -> i = j)
  /\ (exists k, k <= length batches /\
        (fetch_videos_meta w ids st).1
        = State (log st ++ map (fun b => EvGet (videos_request b)) (take k batches))
                (ticks st))
  /\ ((forall b, b ∈ batches -> exists r, api w (videos_request b) = inr r) ->
      fetch_videos_meta w ids st
      = (State (log st ++ map (fun b => EvGet (videos_request b)) batches)
               (ticks st),
         inr (concat (map (videos_answer w) batches))))
  /\ fetch_videos_meta w [] st = (st, inr []).
Proof.
  intros batches. subst batches.
  pose proof (chunked_length ids 49) as Hlen.
  repeat split.
  - exact Hlen.
  - rewrite Hlen. pose proof (Nat.div_mod_eq (length ids + 49) 50).
    pose proof (Nat.mod_upper_bound (length ids + 49) 50). lia.
  - rewrite Hlen. pose proof (Nat.div_mod_eq (length ids + 49) 50).
    pose proof (Nat.mod_upper_bound (length ids + 49) 50). lia.
  - apply chunked_sizes.
  - apply concat_chunked.
  - intros i b. apply chunked_lookup.
  - intros Hnd i j bi bj x. apply chunked_disjoint, Hnd.
  - apply fetch_loop_prefix.
  - intros Hok. unfold fetch_videos_meta. rewrite (fetch_loop_ok w _ [] st Hok).
    reflexivity.
Qed.

(** C3, witness: 120 distinct identifiers go out as three requests of 50, 50
    and 20 identifiers. *)
Lemma C3_batch_fetcher_witness :
  let ids := map (fun n => lit "v" ++ str_of_int (Z.of_nat n)) (seq 0 120) in
  NoDup ids
  /\ (forall b, b ∈ chunked ids 50 ->
        exists r, api Sample.w (videos_request b) = inr r)
  /\ map length (chunked ids 50) = [50; 50; 20]
  /\ gets (log (fetch_videos_meta Sample.w ids init).1)
     = map videos_request (chunked ids 50).
Proof.
  intros ids.
  assert (Hnd : NoDup ids) by (apply (bool_decide_unpack _); vm_compute; exact I).
  assert (Hok : forall b, b ∈ chunked ids 50 ->
                  exists r, api Sample.w (videos_request b) = inr r).
  { intros b _. eexists. reflexivity. }
  destruct (C3_batch_fetcher Sample.w ids init)
    as (_ & _ & _ & _ & _ & _ & _ & Hrun & _).
  split; [exact Hnd|]. split; [exact Hok|]. split; [vm_compute; reflexivity|].
  rewrite (Hrun Hok). vm_compute. reflexivity.
Defined.

(** ** Cross-source deduplication *)

Lemma accumulate_foldl (lists : list (list str)) (acc : gset str) :
  foldl set_update acc lists = acc ∪ list_to_set (concat lists).
Proof.
  revert acc. induction lists as [|ids lists IH]; intros acc; simpl.
  - set_solver.
  - rewrite IH. unfold set_update. rewrite list_to_set_app_L. set_solver.
Qed.

Lemma accumulate_concat (lists : list (list str)) :
  accumulate lists = list_to_set (concat lists).
Proof. unfold accumulate. rewrite accumulate_foldl. set_solver. Qed.

(** A list turned into a set loses exactly its repetitions. *)
Lemma size_list_to_set_le (l : list str) :
  size (list_to_set l : gset str) <= length l
  /\ (size (list_to_set l : gset str) = length l <-> NoDup l).
Proof.
  induction l as [|x l [IHle IHeq]].
  - rewrite list_to_set_nil, size_empty. simpl. split; [lia|].
    split; [constructor|reflexivity].
  - rewrite list_to_set_cons. cbn [length].
    destruct (decide (x ∈ l)) as [Hin|Hnin].
    + replace ({[x]} ∪ list_to_set l : gset str) with (list_to_set l : gset str)
        by set_solver.
      split; [lia|]. split; [lia|].
      intros Hnd. apply NoDup_cons in Hnd as [Hx _]. contradiction.
    + rewrite size_union by set_solver. rewrite size_singleton.
      split; [lia|]. rewrite NoDup_cons. split.
      * intros E. split; [exact Hnin|]. apply IHeq. lia.
      * intros [_ Hnd]. apply IHeq in Hnd. lia.
Qed.

(** C8. The accumulator of [main], fed the identifier lists of the sources
    one after the other, holds each identifier once; it has at most as many
    elements as the lists have entries, and exactly as many if and only if
    no identifier occurs twice in the lists taken together; an identifier is
    in it exactly when it is in one of the lists. *)
Theorem C8_dedup (lists : list (list str)) :
  let all_ids := foldl set_update ∅ lists in
  NoDup (elements all_ids)
  /\ size all_ids <= list_sum (map length lists)
  /\ (size all_ids = list_sum (map length lists) <-> NoDup (concat lists))
  /\ (forall x, x ∈ all_ids <-> exists ids, ids ∈ lists /\ x ∈ ids)
  /\ (forall x, x ∈ elements all_ids <-> x ∈ concat lists).
Proof.
  intros all_ids. subst all_ids. fold (accumulate lists).
  rewrite accumulate_concat, <- length_concat.
  destruct (size_list_to_set_le (concat lists)) as [Hle Heq].
  repeat split.
  - apply NoDup_elements.
  - exact Hle.
  - apply Heq.
  - apply Heq.
  - intros Hx. apply elem_of_list_to_set, list_elem_of_In, in_concat in Hx
      as (ids & Hids & Hx).
    exists ids. split; apply list_elem_of_In; assumption.
  - intros (ids & Hids & Hx). apply elem_of_list_to_set, list_elem_of_In, in_concat.
    exists ids. split; apply list_elem_of_In; assumption.
  - intros Hx. apply elem_of_elements, elem_of_list_to_set in Hx. exact Hx.
  - intros Hx. apply elem_of_elements, elem_of_list_to_set. exact Hx.
Qed.

(** ** Newest first *)

Section SortDesc.

Context {A : Type} (key : A -> str).

Local Abbreviation before := (before key).

Lemma insert_desc_perm (x : A) (l : list A) :
  Permutation (insert_desc key x l) (x :: l).
Proof.
  induction l as [|y l IH]; simpl; [reflexivity|].
  destruct (str_lt (key x) (key y)); [|reflexivity].
  rewrite IH. apply perm_swap.
Qed.

Lemma sort_desc_perm (l : list A) : Permutation (sort_desc key l) l.
Proof.
  induction l as [|x l IH]; simpl; [reflexivity|].
  rewrite insert_desc_perm, IH. reflexivity.
Qed.

Lemma insert_desc_sorted (x : A) (l : list A) :
  StronglySorted before l -> StronglySorted before (insert_desc key x l).
Proof.
  induction l as [|y l IH]; intros Hs; simpl.
  - repeat constructor.
  - apply StronglySorted_inv in Hs as [Hl Hy].
    destruct (str_lt (key x) (key y)) eqn:Hlt.
    + constructor; [apply IH, Hl|].
      rewrite insert_desc_perm.
      constructor; [|exact Hy].
      unfold before. rewrite str_ge_lt.
      destruct (str_lt (key y) (key x)) eqn:Hyx; [|reflexivity].
      pose proof (str_lt_trans _ _ _ Hlt Hyx) as Hxx.
      rewrite str_lt_irrefl in Hxx. discriminate.
    + assert (Hxy : before x y) by (apply str_lt_false_ge, Hlt).
      constructor; [constructor; assumption|].
      constructor; [exact Hxy|].
      eapply Forall_impl; [exact Hy|]. intros z Hyz. unfold before in *.
      eapply str_ge_trans; eassumption.
Qed.

Lemma sort_desc_sorted (l : list A) : StronglySorted before (sort_desc key l).
Proof.
  induction l as [|x l IH]; simpl; [constructor|].
  apply insert_desc_sorted, IH.
Qed.

(** Inserting passes over elements with a greater key only, never over one
    with the same key. *)
Lemma insert_desc_stable (k : str) (x : A) (l : list A) :
  filter (fun y => key y = k) (insert_desc key x l)
  = filter (fun y => key y = k) (x :: l).
Proof.
  induction l as [|y l IH]; simpl; [reflexivity|].
  destruct (str_lt (key x) (key y)) eqn:Hlt; [|reflexivity].
  rewrite (filter_cons _ y (insert_desc key x l)), IH, !filter_cons.
  destruct (decide (key y = k)) as [Hy|Hy]; [|reflexivity].
  destruct (decide (key x = k)) as [Hx|Hx]; [|reflexivity].
  rewrite Hx, Hy, str_lt_irrefl in Hlt. discriminate.
Qed.

Lemma sort_desc_stable (k : str) (l : list A) :
  filter (fun y => key y = k) (sort_desc key l) = filter (fun y => key y = k) l.
Proof.
  induction l as [|x l IH]; simpl; [reflexivity|].
  rewrite insert_desc_stable, !filter_cons, IH. reflexivity.
Qed.

Lemma sorted_lookup (l : list A) (i j : nat) (a b : A) :
  StronglySorted before l -> l !! i = Some a -> l !! j = Some b -> i <= j ->
  before a b.
Proof.
  intros Hs. revert i j. induction Hs as [|x l Hs IH Hx]; intros i j Hi Hj Hij.
  - discriminate.
  - destruct i as [|i], j as [|j]; simpl in *; try lia.
    + injection Hi as <-. injection Hj as <-. apply str_ge_refl.
    + injection Hi as <-. rewrite Forall_forall in Hx. apply Hx.
      eapply list_elem_of_lookup_2, Hj.
    + apply (IH i j Hi Hj). lia.
Qed.

End SortDesc.

(** ** Rendering in list order *)

(** A loop that appends, for each element in turn, what [f] returns for it:
    when it ends normally, its result is what it started with followed by
    the pieces for the elements, in the order of the list. *)
Lemma for_each_appends {A B} (f : A -> M (list B)) (body : A -> list B -> M (list B))
    (l : list A) (acc out : list B) (st st' : state) :
  (forall x acc st, body x acc st = (bs ← f x; mret (acc ++ bs)) st) ->
  for_each l body acc st = (st', inr out) ->
  exists pieces,
    out = acc ++ concat pieces
    /\ Forall2 (fun x bs => exists s s', f x s = (s', inr bs)) l pieces.
Proof.
  intros Hbody. revert acc st. induction l as [|x l IH]; intros acc st H.
  - injection H as _ <-. exists []. split; [|constructor].
    simpl. rewrite app_nil_r. reflexivity.
  - rewrite for_each_cons, Hbody, bind_run in H.
    destruct (f x st) as [s1 [e|bs]] eqn:Ef; [discriminate|].
    change ((mret (acc ++ bs) : M (list B)) s1) with (s1, inr (B:=list B) (A:=exn) (acc ++ bs)) in H.
    cbv beta iota in H. apply IH in H as (pieces & -> & Hall).
    exists (bs :: pieces). split.
    + simpl. rewrite app_assoc. reflexivity.
    + constructor; [|exact Hall]. exists st, s1. exact Ef.
Qed.

Section Render.

Context {py : PyLib} (w : world) (cfg : config).

(** The blocks of [yt_news.py] after the header are the blocks of the
    entries, entry by entry. *)
Lemma news_blocks_in_order (metas : list video) (blocks : list block)
    (st st' : state) :
  for_each metas
    (fun it blocks => bs ← news_item_blocks it; mret (blocks ++ bs))
    [news_header cfg] st = (st', inr blocks) ->
  exists pieces,
    blocks = news_header cfg :: concat pieces
    /\ Forall2 (fun it bs => exists s s', news_item_blocks it s = (s', inr bs))
         metas pieces.
Proof.
  intros H.
  apply (for_each_appends news_item_blocks) in H as (pieces & -> & Hall);
    [|reflexivity].
  exists pieces. split; [reflexivity|exact Hall].
Qed.

(** The text of [yt_minutes.py] is the title line, an empty line and the
    lines of the entries, entry by entry, numbered from 1. *)
Lemma minutes_text_in_order (metas : list video) (text : str) (st st' : state) :
  build_minutes_text w metas st = (st', inr text) ->
  exists pieces,
    text
    = join [LF]
        ([ [128196; 32; 65; 73; 12488; 12524; 12531; 12489; 31038; 20869;
            22577; 65288]%N
           ++ strftime (lit "%Y-%m-%d") JST (clock w (ticks st)) ++ [65289]%N;
           [] ] ++ concat pieces)
    /\ Forall2 (fun '(idx, it) ls =>
                  exists s s', minutes_item_lines idx it s = (s', inr ls))
         (combine (seq 1 (length metas)) metas) pieces.
Proof.
  unfold build_minutes_text. rewrite bind_run. cbn [now]. rewrite bind_run.
  intros H.
  match type of H with
  | match ?m with _ => _ end = _ => destruct m as [s1 [e|lines]] eqn:E
  end; [discriminate|].
  injection H as _ <-.
  apply (for_each_appends (fun '(idx, it) => minutes_item_lines idx it)) in E
    as (pieces & -> & Hall); [|intros [idx it] acc s; reflexivity].
  exists pieces. split; [reflexivity|].
  eapply Forall2_impl; [exact Hall|]. intros [idx it] ls Hx. exact Hx.
Qed.

End Render.

(** ** Substrings *)

Lemma startswith_spec (p s : str) :
  startswith p s = true <-> exists b, s = p ++ b.
Proof.
  revert s. induction p as [|x p IH]; intros s; simpl.
  - split; [intros _; exists s; reflexivity|reflexivity].
  - destruct s as [|y s].
    + split; [discriminate|]. intros [b Hb]. discriminate.
    + rewrite andb_true_iff, N.eqb_eq, IH. split.
      * intros [-> [b ->]]. exists b. reflexivity.
      * intros [b [= -> ->]]. split; [reflexivity|]. exists b. reflexivity.
Qed.

Lemma contains_spec (k s : str) :
  contains k s = true <-> exists a b, s = a ++ k ++ b.
Proof.
  induction s as [|c s IH].
  - simpl. rewrite orb_false_r, startswith_spec. split.
    + intros [b Hb]. exists [], b. exact Hb.
    + intros (a & b & H). destruct a; [exists b; exact H|discriminate].
  - cbn [contains]. rewrite orb_true_iff, startswith_spec, IH. split.
    + intros [[b Hb]|(a & b & Hab)].
      * exists [], b. exact Hb.
      * exists (c :: a), b. rewrite Hab. reflexivity.
    + intros (a & b & H). destruct a as [|c' a].
      * left. exists b. exact H.
      * right. injection H as -> ->. exists a, b. reflexivity.
Qed.

(** ** Tags *)

Lemma filter_nil_iff {A} (f : A -> bool) (l : list A) :
  List.filter f l = [] <-> forall x, x ∈ l -> f x = false.
Proof.
  induction l as [|y l IH]; simpl.
  - split; [|reflexivity]. intros _ x Hx. inversion Hx.
  - destruct (f y) eqn:Hy.
    + split; [discriminate|]. intros H. rewrite (H y) in Hy by left. discriminate.
    + rewrite IH. split.
      * intros H x Hx. apply elem_of_cons in Hx as [->|Hx]; auto.
      * intros H x Hx. apply H. right. exact Hx.
Qed.

Lemma matching_labels_nil (text : str) :
  matching_labels text = [] <->
  forall k v, (k, v) ∈ KEYWORDS -> contains k text = false.
Proof.
  unfold matching_labels. split.
  - intros H k v Hkv. apply map_eq_nil in H.
    apply (proj1 (filter_nil_iff _ _) H (k, v) Hkv).
  - intros H. apply (f_equal (map snd) (y := [])).
    apply filter_nil_iff. intros [k v] Hkv. apply (H k v Hkv).
Qed.

(** A label is listed exactly when one of its keywords occurs in the text,
    and the labels are listed in the order of the table. *)
Lemma matching_labels_elem (text v : str) :
  v ∈ matching_labels text <->
  exists k, (k, v) ∈ KEYWORDS /\ exists a b, text = a ++ k ++ b.
Proof.
  unfold matching_labels. rewrite list_elem_of_In, in_map_iff. split.
  - intros ([k v'] & Hv & Hin). simpl in Hv. subst v'.
    apply filter_In in Hin as [Hin Hk]. exists k.
    split; [apply list_elem_of_In, Hin|]. apply contains_spec, Hk.
  - intros (k & Hin & Hk). exists (k, v). split; [reflexivity|].
    apply filter_In. split; [apply list_elem_of_In, Hin|].
    apply contains_spec, Hk.
Qed.

Lemma matching_labels_order (text : str) :
  sublist (matching_labels text) (map snd KEYWORDS).
Proof.
  unfold matching_labels. induction KEYWORDS as [|kv l IH]; simpl.
  - constructor.
  - destruct (contains (fst kv) text); simpl.
    + apply sublist_skip, IH.
    + apply sublist_cons, IH.
Qed.

(** The sentinel is not one of the labels of the table. *)
Lemma general_topic_fresh (text : str) : GENERAL_TOPIC ∉ matching_labels text.
Proof.
  intros Hin. unfold matching_labels in Hin.
  apply list_elem_of_In, in_map_iff in Hin as ([k v] & Hv & Hin).
  apply filter_In in Hin as [Hin _]. simpl in Hv. subst v.
  apply (in_map snd) in Hin. simpl in Hin. revert Hin.
  apply (bool_decide_unpack (~ In GENERAL_TOPIC (map snd KEYWORDS))).
  vm_compute. exact I.
Qed.

Section Tags.

Context {py : PyLib}.

Lemma make_tags_take (title desc : str) :
  make_tags title desc =
  match take 5 (matching_labels (lower (title ++ [LF] ++ desc))) with
  | [] => [GENERAL_TOPIC]
  | t => t
  end.
Proof. reflexivity. Qed.

(** C6. The tag list of [make_tags] has between one and five tags, and it
    is the sentinel alone, or contains the sentinel at all, exactly when no
    keyword of the table occurs in the scanned text. *)
Theorem C6_tags_bounds_and_sentinel (title desc : str) :
  let text := lower (title ++ [LF] ++ desc) in
  let no_match := forall k v, (k, v) ∈ KEYWORDS -> contains k text = false in
  1 <= length (make_tags title desc) <= 5
  /\ (make_tags title desc = [GENERAL_TOPIC] <-> no_match)
  /\ (GENERAL_TOPIC ∈ make_tags title desc <-> no_match).
Proof.
  intros text no_match. subst no_match. rewrite make_tags_take. fold text.
  rewrite <- matching_labels_nil.
  pose proof (general_topic_fresh text) as Hfresh.
  destruct (matching_labels text) as [|t ts] eqn:E.
  - simpl. repeat split; try lia. intros _. left.
  - cbn [take]. repeat split.
    + simpl. lia.
    + simpl. rewrite length_take. lia.
    + intros [= -> Hts]. exfalso. apply Hfresh. left.
    + discriminate.
    + intros Hin. exfalso. apply Hfresh.
      apply elem_of_cons in Hin as [->|Hin]; [left|right].
      apply elem_of_take in Hin as (i & Hi & _).
      eapply list_elem_of_lookup_2, Hi.
    + discriminate.
Qed.

End Tags.

(** ** Tags in yt_news.py *)

Lemma trim_length (s : str) (n : Z) :
  (0 <= n)%Z -> (Z.of_nat (length (trim s n)) <= n + 1)%Z.
Proof.
  intros Hn. unfold trim.
  destruct (n <? Z.of_nat (length (join [SPACE] (split_ws s))))%Z eqn:E.
  - apply Z.ltb_lt in E. unfold slice_to.
    rewrite (proj2 (Z.leb_le 0 n) Hn), length_app, length_take. simpl. lia.
  - apply Z.ltb_ge in E. lia.
Qed.

(** C4. [make_tags] lists the labels of the keywords that occur as
    substrings of the lower-cased title, line break and description it is
    given, in the order of the table, and keeps the first five; and
    [yt_minutes.py] gives it the full description. In [yt_news.py] the tags
    are made from the description as [trim] left it, at most 180 characters
    and the ellipsis: a keyword that stands further back gives no tag
    there. *)
Theorem C4_news_tags_miss_late_keyword :
  (forall (py : PyLib) (title desc : str),
     make_tags title desc =
     match take 5 (matching_labels (lower (title ++ [LF] ++ desc))) with
     | [] => [GENERAL_TOPIC]
     | t => t
     end)
  /\ (forall text v,
        v ∈ matching_labels text <->
        exists k, (k, v) ∈ KEYWORDS /\ exists a b, text = a ++ k ++ b)
  /\ (forall text, sublist (matching_labels text) (map snd KEYWORDS))
  /\ (forall (py : PyLib) (it : video),
        minutes_tags it
        = make_tags (default (lit "(no title)") (title it))
            (default [] (description it)))
  /\ (forall (py : PyLib) (it : video),
        news_tags it
        = make_tags (news_title it)
            (trim (default NO_DESCRIPTION (description it)) 180))
  /\ (forall s, length (trim s 180) <= 181)
  /\ (let it := Sample.late_keyword in
      let full := default [] (description it) in
      length full = 215
      /\ (exists a b, length a = 210 /\ full = a ++ lit "agent" ++ b)
      /\ make_tags (py := Sample.py) (news_title it) full
         = [[12456; 12540; 12472; 12455; 12531; 12488]%N]
      /\ minutes_tags (py := Sample.py) it
         = [[12456; 12540; 12472; 12455; 12531; 12488]%N]
      /\ news_tags (py := Sample.py) it = [GENERAL_TOPIC]).
Proof.
  split; [reflexivity|]. split; [apply matching_labels_elem|].
  split; [apply matching_labels_order|].
  split; [reflexivity|]. split; [reflexivity|]. split.
  - intros s. pose proof (trim_length s 180). lia.
  - cbv zeta. split; [reflexivity|]. split.
    + exists (concat (repeat (lit "update ") 30)), []. split; [reflexivity|].
      rewrite app_nil_r. reflexivity.
    + repeat split; vm_compute; reflexivity.
Qed.

(** ** Stripping and collapsing *)

Section Strip.

Context (p : N -> bool).

Lemma lstrip_head (s : str) :
  match lstrip p s with [] => True | c :: _ => p c = false end.
Proof.
  induction s as [|c s IH]; simpl; [exact I|].
  destruct (p c) eqn:Hc; [exact IH|exact Hc].
Qed.

Lemma lstrip_id (c : N) (s : str) : p c = false -> lstrip p (c :: s) = c :: s.
Proof. intros H. simpl. rewrite H. reflexivity. Qed.

Lemma rstrip_clean_end (s : str) : clean_end p (rstrip p s) = true.
Proof.
  induction s as [|c s IH]; simpl; [reflexivity|].
  destruct (rstrip p s) as [|d r].
  - destruct (p c) eqn:Hc; simpl; [reflexivity|]. rewrite Hc. reflexivity.
  - exact IH.
Qed.

Lemma rstrip_head (c : N) (s : str) :
  p c = false -> exists r, rstrip p (c :: s) = c :: r.
Proof.
  intros H. simpl. destruct (rstrip p s) as [|d r].
  - rewrite H. exists []. reflexivity.
  - exists (d :: r). reflexivity.
Qed.

Lemma rstrip_id (s : str) : clean_end p s = true -> rstrip p s = s.
Proof.
  induction s as [|c s IH]; [reflexivity|].
  destruct s as [|d s].
  - simpl. intros H. apply negb_true_iff in H. rewrite H. reflexivity.
  - intros H. change (clean_end p (d :: s) = true) in H.
    cbn [rstrip] in *. rewrite (IH H). reflexivity.
Qed.

Lemma clean_end_last (s : str) (c : N) :
  clean_end p s = true -> last s = Some c -> p c = false.
Proof.
  induction s as [|d s IH]; [discriminate|].
  destruct s as [|e s].
  - simpl. intros H [= <-]. apply negb_true_iff, H.
  - intros H Hl. apply IH; assumption.
Qed.

End Strip.

Lemma strip_ends (s : str) :
  match strip isspace s with [] => True | c :: _ => isspace c = false end
  /\ clean_end isspace (strip isspace s) = true.
Proof.
  unfold strip. split; [|apply rstrip_clean_end].
  pose proof (lstrip_head isspace s) as Hh.
  destruct (lstrip isspace s) as [|c r]; [exact I|].
  destruct (rstrip_head isspace c r Hh) as [r' ->]. exact Hh.
Qed.

Lemma re_sub_cons (cls : N -> bool) (repl : str) (c : N) (s : str) :
  re_sub cls repl (c :: s) =
  if cls c
  then match s with
       | [] => repl
       | d :: _ =>
           if cls d then re_sub cls repl s else repl ++ re_sub cls repl s
       end
  else c :: re_sub cls repl s.
Proof. reflexivity. Qed.

Lemma re_sub_head (c : N) (s : str) :
  isspace c = false ->
  re_sub isspace [SPACE] (c :: s) = c :: re_sub isspace [SPACE] s.
Proof. intros H. simpl. rewrite H. reflexivity. Qed.

Lemma re_sub_spaced (s : str) :
  clean_end isspace s = true -> spaced (re_sub isspace [SPACE] s) = true.
Proof.
  induction s as [|c s IH]; [reflexivity|]. intros Hend.
  destruct s as [|d s].
  - simpl in Hend. apply negb_true_iff in Hend. simpl. rewrite Hend.
    simpl. rewrite Hend. reflexivity.
  - change (clean_end isspace (d :: s) = true) in Hend. specialize (IH Hend).
    rewrite re_sub_cons. destruct (isspace c) eqn:Hc.
    + destruct (isspace d) eqn:Hd; [exact IH|].
      rewrite re_sub_head in * by exact Hd.
      change ([SPACE] ++ d :: re_sub isspace [SPACE] s)
        with (SPACE :: d :: re_sub isspace [SPACE] s).
      cbn [spaced] in *. rewrite Hd in *. simpl. exact IH.
    + cbn [spaced]. rewrite Hc. exact IH.
Qed.

Lemma spaced_clean_end (s : str) : spaced s = true -> clean_end isspace s = true.
Proof.
  induction s as [|c s IH]; [reflexivity|].
  destruct s as [|d s].
  - simpl. destruct (isspace c); [|reflexivity].
    rewrite andb_false_r. discriminate.
  - intros H. change (clean_end isspace (d :: s) = true). apply IH.
    cbn [spaced] in H. apply andb_true_iff in H as [_ H]. exact H.
Qed.

Lemma spaced_re_sub (s : str) : spaced s = true -> re_sub isspace [SPACE] s = s.
Proof.
  induction s as [|c s IH]; [reflexivity|]. intros H.
  cbn [spaced] in H. apply andb_true_iff in H as [Hc Hs].
  rewrite re_sub_cons. destruct (isspace c).
  - apply andb_true_iff in Hc as [Hsp Hd]. apply N.eqb_eq in Hsp. subst c.
    destruct s as [|d s]; [discriminate|]. apply negb_true_iff in Hd.
    rewrite Hd, (IH Hs). reflexivity.
  - rewrite (IH Hs). reflexivity.
Qed.

Lemma spaced_adjacent (s : str) (i : nat) (c d : N) :
  spaced s = true -> s !! i = Some c -> s !! S i = Some d ->
  isspace c = true -> isspace d = false.
Proof.
  revert i. induction s as [|e s IH]; intros i H Hi Hj Hc; [discriminate|].
  cbn [spaced] in H. apply andb_true_iff in H as [He Hs].
  destruct i as [|i].
  - injection Hi as ->. rewrite Hc in He.
    apply andb_true_iff in He as [_ He].
    destruct s as [|d' s]; [discriminate|]. injection Hj as ->.
    apply negb_true_iff, He.
  - apply (IH i Hs Hi Hj Hc).
Qed.

(** ** Normal form *)

Lemma normalize_text_normal (s : str) : normal (normalize_text s) = true.
Proof.
  unfold normalize_text, normal.
  destruct (strip_ends s) as [Hh He].
  rewrite (re_sub_spaced _ He), andb_true_r.
  destruct (strip isspace s) as [|c r]; [reflexivity|].
  rewrite (re_sub_head c r Hh), Hh. reflexivity.
Qed.

Lemma normal_fixed (s : str) : normal s = true -> normalize_text s = s.
Proof.
  unfold normal, normalize_text, strip. intros H.
  apply andb_true_iff in H as [Hh Hs].
  assert (El : lstrip isspace s = s).
  { destruct s as [|c r]; [reflexivity|].
    apply lstrip_id, negb_true_iff, Hh. }
  rewrite El, (rstrip_id _ _ (spaced_clean_end _ Hs)).
  apply spaced_re_sub, Hs.
Qed.

Lemma normalize_text_idempotent (s : str) :
  normalize_text (normalize_text s) = normalize_text s.
Proof. apply normal_fixed, normalize_text_normal. Qed.

(** ** The two ways of normalizing whitespace *)

Section Whitespace.

Context (p : N -> bool).

Lemma lstrip_rstrip (s : str) : rstrip p (lstrip p s) = lstrip p (rstrip p s).
Proof.
  induction s as [|c s IH]; [reflexivity|].
  cbn [lstrip rstrip]. destruct (p c) eqn:Hc.
  - rewrite IH. destruct (rstrip p s) as [|d r]; [reflexivity|].
    cbn [lstrip]. rewrite Hc. reflexivity.
  - cbn [rstrip]. destruct (rstrip p s) as [|d r]; cbn [lstrip]; rewrite Hc;
      reflexivity.
Qed.

Lemma rstrip_keep (c : N) (s : str) :
  p c = false -> rstrip p (c :: s) = c :: rstrip p s.
Proof.
  intros Hc. cbn [rstrip]. destruct (rstrip p s); [rewrite Hc|]; reflexivity.
Qed.

Lemma rstrip_app_keep (u s : str) :
  forallb (fun c => negb (p c)) u = true ->
  rstrip p (u ++ s) = u ++ rstrip p s.
Proof.
  induction u as [|c u IH]; [reflexivity|]. cbn [forallb app]. intros H.
  apply andb_true_iff in H as [Hc Hu]. apply negb_true_iff in Hc.
  rewrite rstrip_keep by exact Hc. rewrite (IH Hu). reflexivity.
Qed.

Lemma rstrip_nonempty_clean (s : str) :
  rstrip p s <> [] -> lstrip p (rstrip p s) <> [].
Proof.
  induction s as [|c s IH]; [intros H; exact H|].
  cbn [rstrip]. destruct (rstrip p s) as [|d r] eqn:E.
  - destruct (p c) eqn:Hc; [intros H; exact H|].
    intros _. cbn [lstrip]. rewrite Hc. discriminate.
  - intros _. cbn [lstrip]. destruct (p c); [|discriminate].
    apply IH. discriminate.
Qed.

End Whitespace.

Lemma re_sub_app_keep (u s : str) :
  forallb (fun c => negb (isspace c)) u = true ->
  re_sub isspace [SPACE] (u ++ s) = u ++ re_sub isspace [SPACE] s.
Proof.
  induction u as [|c u IH]; [reflexivity|]. cbn [forallb app]. intros H.
  apply andb_true_iff in H as [Hc Hu]. apply negb_true_iff in Hc.
  rewrite re_sub_head by exact Hc. rewrite (IH Hu). reflexivity.
Qed.

Lemma re_sub_nil_inv (s : str) : re_sub isspace [SPACE] s = [] -> s = [].
Proof.
  induction s as [|c s IH]; [reflexivity|]. rewrite re_sub_cons.
  destruct (isspace c); [|discriminate].
  destruct s as [|d s]; [discriminate|].
  destruct (isspace d); [|discriminate]. intros H. apply IH in H. discriminate.
Qed.

(** A run of whitespace before something else becomes one space. *)
Lemma re_sub_run (c : N) (r : str) :
  isspace c = true -> r <> [] -> clean_end isspace r = true ->
  re_sub isspace [SPACE] (c :: r)
  = SPACE :: re_sub isspace [SPACE] (lstrip isspace r).
Proof.
  intros Hc. revert c Hc. induction r as [|d r IH]; intros c Hc Hne Hend;
    [congruence|].
  rewrite re_sub_cons, Hc. cbn [lstrip]. destruct (isspace d) eqn:Hd.
  - destruct r as [|e r]; [simpl in Hend; rewrite Hd in Hend; discriminate|].
    apply (IH d Hd); [discriminate|exact Hend].
  - reflexivity.
Qed.

Lemma normalize_after_space (c : N) (s : str) :
  isspace c = true ->
  re_sub isspace [SPACE] (rstrip isspace (c :: s))
  = match normalize_text s with
    | [] => []
    | t => SPACE :: t
    end.
Proof.
  intros Hc. unfold normalize_text, strip. rewrite lstrip_rstrip.
  cbn [rstrip]. destruct (rstrip isspace s) as [|d r] eqn:E.
  - rewrite Hc. reflexivity.
  - rewrite (re_sub_run c (d :: r) Hc); [|discriminate|].
    + destruct (re_sub isspace [SPACE] (lstrip isspace (d :: r))) eqn:E2;
        [|reflexivity].
      apply re_sub_nil_inv in E2. exfalso.
      apply (rstrip_nonempty_clean isspace s); rewrite E; [discriminate|exact E2].
    + rewrite <- E. apply rstrip_clean_end.
Qed.

Lemma words_fixed (u : str) :
  forallb (fun c => negb (isspace c)) u = true ->
  re_sub isspace [SPACE] (rstrip isspace u) = u.
Proof.
  intros H. rewrite <- (app_nil_r u) at 1.
  rewrite rstrip_app_keep by exact H. cbn [rstrip].
  rewrite re_sub_app_keep by exact H. apply app_nil_r.
Qed.

Lemma split_ws_go_nonempty (cur s : str) :
  Forall (fun wd => wd <> []) (split_ws_go cur s).
Proof.
  revert cur. induction s as [|c s IH]; intros cur; cbn [split_ws_go].
  - destruct cur as [|d cur]; [constructor|]. repeat constructor.
    cbn [rev]. intros H. apply app_eq_nil in H as [_ H]. discriminate.
  - destruct (isspace c); [|apply IH].
    destruct cur as [|d cur]; [apply IH|]. constructor; [|apply IH].
    cbn [rev]. intros H. apply app_eq_nil in H as [_ H]. discriminate.
Qed.

(** [" ".join(s.split())], read with a word in progress. *)
Lemma join_split_ws_go (cur s : str) :
  forallb (fun c => negb (isspace c)) (rev cur) = true ->
  join [SPACE] (split_ws_go cur s)
  = match cur with
    | [] => normalize_text s
    | _ :: _ => re_sub isspace [SPACE] (rstrip isspace (rev cur ++ s))
    end.
Proof.
  revert cur. induction s as [|c s IH]; intros cur Hcur.
  - cbn [split_ws_go]. destruct cur as [|d cur]; [reflexivity|].
    cbn [join]. rewrite app_nil_r. symmetry. apply words_fixed, Hcur.
  - cbn [split_ws_go]. destruct (isspace c) eqn:Hc.
    + destruct cur as [|d cur].
      * rewrite (IH [] eq_refl). unfold normalize_text, strip.
        cbn [lstrip]. rewrite Hc. reflexivity.
      * rewrite rstrip_app_keep, re_sub_app_keep by exact Hcur.
        rewrite (normalize_after_space c s Hc).
        pose proof (IH [] eq_refl) as E. cbv iota in E.
        pose proof (split_ws_go_nonempty [] s) as Hne.
        destruct (split_ws_go [] s) as [|wd rest].
        { cbn [join] in *. rewrite <- E. symmetry. apply app_nil_r. }
        change (join [SPACE] (rev (d :: cur) :: wd :: rest))
          with (rev (d :: cur) ++ [SPACE] ++ join [SPACE] (wd :: rest)).
        rewrite E. destruct (normalize_text s) eqn:En; [|reflexivity].
        exfalso. apply Forall_cons in Hne as [Hwd _]. apply Hwd.
        destruct rest; cbn [join] in E; [exact E|].
        apply app_eq_nil in E as [E _]. exact E.
    + rewrite (IH (c :: cur)).
      * cbn [rev]. rewrite <- app_assoc. destruct cur as [|d cur]; [|reflexivity].
        unfold normalize_text, strip. cbn [lstrip]. rewrite Hc. reflexivity.
      * cbn [rev]. rewrite forallb_app, Hcur. cbn. rewrite Hc. reflexivity.
Qed.

Lemma join_split_ws (s : str) : join [SPACE] (split_ws s) = normalize_text s.
Proof. apply (join_split_ws_go [] s). reflexivity. Qed.

Lemma normal_spaces (s : str) (c : N) :
  spaced s = true -> c ∈ s -> isspace c = true -> c = SPACE.
Proof.
  induction s as [|d s IH]; intros Hs Hc Hw; [inversion Hc|].
  cbn [spaced] in Hs. apply andb_true_iff in Hs as [Hd Hs].
  apply elem_of_cons in Hc as [->|Hc]; [|apply IH; assumption].
  rewrite Hw in Hd. apply andb_true_iff in Hd as [Hd _].
  apply N.eqb_eq, Hd.
Qed.

(** ** Bullets *)

(** The loop over the fragments of one line. *)
Lemma fragments_loop (frags : list str) (parts : list str) :
  foldl (fun parts f =>
           let f := normalize_text f in
           if (8 <=? length f)%nat then parts ++ [f] else parts)
        parts frags
  = parts ++ List.filter (fun f => (8 <=? length f)%nat)
               (map normalize_text frags).
Proof.
  revert parts.
  induction frags as [|f frags IH]; intros parts; cbn [foldl map List.filter].
  - rewrite app_nil_r. reflexivity.
  - rewrite IH. cbv zeta. destruct (8 <=? length (normalize_text f))%nat.
    + rewrite <- app_assoc. reflexivity.
    + reflexivity.
Qed.

(** The loop over the lines. *)
Lemma lines_loop (raw : list str) (parts : list str) :
  foldl (fun parts line =>
           let line := strip bullet_marks line in
           if negb (truthy line) then parts else
           let fragments := re_split sentence_delims line in
           foldl (fun parts f =>
                    let f := normalize_text f in
                    if (8 <=? length f)%nat then parts ++ [f] else parts)
                 parts fragments)
        parts raw
  = parts ++ List.filter (fun f => (8 <=? length f)%nat)
               (map normalize_text
                  (concat (map (re_split sentence_delims)
                             (List.filter truthy
                                (map (strip bullet_marks) raw))))).
Proof.
  revert parts.
  induction raw as [|line raw IH]; intros parts; cbn [foldl map List.filter].
  - rewrite app_nil_r. reflexivity.
  - rewrite IH. cbv zeta.
    destruct (truthy (strip bullet_marks line)); cbn [negb map concat].
    + rewrite fragments_loop, map_app, List.filter_app, app_assoc. reflexivity.
    + reflexivity.
Qed.

Lemma bullets_scan (desc : str) (max_items : Z) :
  bullets_from_description desc max_items
  = slice_to (List.filter (fun f => (8 <=? length f)%nat)
                (map normalize_text (scan_fragments desc)))
             max_items.
Proof.
  unfold bullets_from_description. destruct desc as [|c desc].
  - simpl. unfold slice_to. destruct (0 <=? max_items)%Z; symmetry; apply take_nil.
  - cbn [truthy negb]. rewrite lines_loop. reflexivity.
Qed.

Lemma slice_to_elem {A} (l : list A) (n : Z) (x : A) :
  x ∈ slice_to l n -> x ∈ l.
Proof.
  unfold slice_to. destruct (0 <=? n)%Z; intros H;
    apply elem_of_take in H as (i & Hi & _);
    eapply list_elem_of_lookup_2, Hi.
Qed.

Lemma bullets_elem (desc : str) (max_items : Z) (f : str) :
  f ∈ bullets_from_description desc max_items ->
  8 <= length f /\ exists raw, raw ∈ scan_fragments desc /\ f = normalize_text raw.
Proof.
  rewrite bullets_scan. intros H. apply slice_to_elem in H.
  apply list_elem_of_In, filter_In in H as [H Hlen].
  apply Nat.leb_le in Hlen. split; [exact Hlen|].
  apply in_map_iff in H as (raw & <- & Hraw).
  exists raw. split; [apply list_elem_of_In, Hraw|reflexivity].
Qed.

(** C5. [bullets_from_description] returns at most three fragments. Each
    has at least 8 characters and is a piece of the description after
    [normalize_text], that is, the words of the piece joined by single
    spaces: it neither begins nor ends with whitespace, no whitespace
    character in it is followed by another, and its only whitespace
    characters are spaces. The fragments are the first three, in the order
    read and with repetitions kept, of the normalized pieces that have at
    least 8 characters; the empty description gives none, the description
    of scenario C gives the one bullet "Built with RAG and tool use", and
    so does that line with its words spread by blanks and a tab. *)
Theorem C5_bullets (desc : str) :
  let bullets := bullets_from_description desc 3 in
  length bullets <= 3
  /\ Forall (fun f =>
               8 <= length f /\
               exists raw,
                 raw ∈ scan_fragments desc
                 /\ f = normalize_text raw
                 /\ f = join [SPACE] (split_ws raw)
                 /\ (forall c, head f = Some c -> isspace c = false)
                 /\ (forall c, last f = Some c -> isspace c = false)
                 /\ (forall i c d, f !! i = Some c -> f !! S i = Some d ->
                                   isspace c = true -> isspace d = false)
                 /\ (forall c, c ∈ f -> isspace c = true -> c = SPACE))
            bullets
  /\ bullets
     = take 3 (List.filter (fun f => (8 <=? length f)%nat)
                 (map normalize_text (scan_fragments desc)))
  /\ bullets_from_description [] 3 = []
  /\ bullets_from_description Sample.intro_description 3
     = [lit "Built with RAG and tool use"]
  /\ bullets_from_description
       (lit "  Built   with RAG" ++ [TAB] ++ lit "and tool  use . ") 3
     = [lit "Built with RAG and tool use"].
Proof.
  intros bullets. subst bullets. split; [|split; [|split; [|split; [|split]]]].
  - rewrite bullets_scan. unfold slice_to. simpl. rewrite length_take. lia.
  - apply Forall_forall. intros f Hf.
    destruct (bullets_elem desc 3 f Hf) as (Hlen & raw & Hraw & ->).
    split; [exact Hlen|]. exists raw. split; [exact Hraw|].
    split; [reflexivity|]. split; [symmetry; apply join_split_ws|].
    pose proof (normalize_text_normal raw) as Hn.
    unfold normal in Hn. apply andb_true_iff in Hn as [Hh Hs].
    repeat split.
    + intros c Hc. destruct (normalize_text raw) as [|c' r]; [discriminate|].
      injection Hc as ->. apply negb_true_iff, Hh.
    + intros c. apply clean_end_last, spaced_clean_end, Hs.
    + intros i c d. apply spaced_adjacent, Hs.
    + intros c. apply normal_spaces, Hs.
  - apply bullets_scan.
  - reflexivity.
  - vm_compute. reflexivity.
  - vm_compute. reflexivity.
Qed.

(** C10. [normalize_text] is idempotent, and every fragment that
    [bullets_from_description] returns is left unchanged by it: such a
    fragment neither begins nor ends with whitespace, and no whitespace
    character in it is followed by another. *)
Theorem C10_normalize_idempotent :
  (forall s, normalize_text (normalize_text s) = normalize_text s)
  /\ (forall desc max_items f,
        f ∈ bullets_from_description desc max_items ->
        normalize_text f = f
        /\ (forall c, head f = Some c -> isspace c = false)
        /\ (forall c, last f = Some c -> isspace c = false)
        /\ (forall i c d, f !! i = Some c -> f !! S i = Some d ->
                          isspace c = true -> isspace d = false)).
Proof.
  split; [apply normalize_text_idempotent|].
  intros desc max_items f Hf.
  apply bullets_elem in Hf as (_ & raw & _ & ->).
  pose proof (normalize_text_normal raw) as Hn.
  split; [apply normalize_text_idempotent|].
  unfold normal in Hn. apply andb_true_iff in Hn as [Hh Hs].
  repeat split.
  - intros c Hc. destruct (normalize_text raw) as [|c' r]; [discriminate|].
    injection Hc as ->. apply negb_true_iff, Hh.
  - intros c. apply clean_end_last, spaced_clean_end, Hs.
  - intros i c d. apply spaced_adjacent, Hs.
Qed.

(** C10, witness: the bullet of scenario C. *)
Lemma C10_normalize_idempotent_witness :
  lit "Built with RAG and tool use"
    ∈ bullets_from_description Sample.intro_description 3
  /\ normalize_text (lit "Built with RAG and tool use")
     = lit "Built with RAG and tool use"
  /\ normalize_text (lit "  Built   with RAG" ++ [TAB; LF] ++ lit "and tool use ")
     = lit "Built with RAG and tool use".
Proof.
  assert (Hin : lit "Built with RAG and tool use"
                  ∈ bullets_from_description Sample.intro_description 3)
    by (vm_compute; left).
  split; [exact Hin|].
  destruct C10_normalize_idempotent as [_ Hb].
  destruct (Hb _ _ _ Hin) as (Hfix & _).
  split; [exact Hfix|]. vm_compute. reflexivity.
Defined.

(** ** The loop over the sources *)

Lemma sends_ret {A} (x : A) : sends (mret x) [] (inr x).
Proof. intros st. cbn [map]. rewrite state_eta. reflexivity. Qed.

Lemma sends_http_get (w : world) (r : request) (a : exn + response r) :
  api w r = a -> sends (http_get w r) [r] a.
Proof. intros <- st. reflexivity. Qed.

Lemma sends_bind_raise {A B} (m : M A) (f : A -> M B) L e :
  sends m L (inl e) -> sends (x ← m; f x) L (inl e).
Proof. intros Hm st. rewrite bind_run, Hm. reflexivity. Qed.

Lemma sends_bind {A B} (m : M A) (f : A -> M B) L L' x r :
  sends m L (inr x) -> sends (f x) L' r -> sends (y ← m; f y) (L ++ L') r.
Proof.
  intros Hm Hf st. rewrite bind_run, Hm, Hf. cbn [log ticks].
  rewrite map_app, app_assoc. reflexivity.
Qed.

Section Collect.

Context (w : world) (cfg : config) (cutoff : str).

Lemma get_uploads_pid_sends (ch : str) :
  sends (get_uploads_pid w ch) [ChannelsList ch]
    match api w (ChannelsList ch) with
    | inl e => inl e
    | inr [] => inr None
    | inr (it :: _) => inr (Some (uploads it))
    end.
Proof.
  unfold get_uploads_pid.
  destruct (api w (ChannelsList ch)) as [e|items] eqn:E.
  - apply sends_bind_raise. exact (sends_http_get w _ _ E).
  - change [ChannelsList ch] with ([ChannelsList ch] ++ []).
    eapply sends_bind.
    + exact (sends_http_get w _ _ E).
    + destruct items; apply sends_ret.
Qed.

Lemma list_recent_video_ids_sends (pid : str) :
  exists r, sends (list_recent_video_ids w cfg pid cutoff)
              [PlaylistItemsList pid (Z.min (MAX_PER_CHANNEL cfg) 50)] r.
Proof.
  unfold list_recent_video_ids.
  set (req := PlaylistItemsList pid (Z.min (MAX_PER_CHANNEL cfg) 50)).
  destruct (api w req) as [e|items] eqn:E.
  - exists (inl e). apply sends_bind_raise. exact (sends_http_get w _ _ E).
  - eexists. change [req] with ([req] ++ []). eapply sends_bind.
    + exact (sends_http_get w _ _ E).
    + apply sends_ret.
Qed.

Lemma collect_step_sends (ch : str) (all_ids : gset str) :
  exists L r, sends (collect_step w cfg cutoff ch all_ids) L r.
Proof.
  unfold collect_step. pose proof (get_uploads_pid_sends ch) as Hg.
  destruct (api w (ChannelsList ch)) as [e|[|it items]].
  - eexists _, _. apply sends_bind_raise, Hg.
  - eexists _, _. eapply sends_bind; [exact Hg|]. apply sends_ret.
  - destruct (truthy (uploads it)) eqn:Ht.
    + destruct (list_recent_video_ids_sends (uploads it)) as [[e|ids] Hr].
      * eexists _, _. eapply sends_bind; [exact Hg|].
        cbn [truthy_opt default]. rewrite Ht. cbn [negb].
        apply sends_bind_raise, Hr.
      * eexists _, _. eapply sends_bind; [exact Hg|].
        cbn [truthy_opt default]. rewrite Ht. cbn [negb].
        eapply sends_bind; [exact Hr|]. apply sends_ret.
    + eexists _, _. eapply sends_bind; [exact Hg|].
      cbn [truthy_opt default]. rewrite Ht. cbn [negb]. apply sends_ret.
Qed.

Lemma collect_loop_sends (chs : list str) (all_ids : gset str) :
  exists L r, sends (for_each chs (collect_step w cfg cutoff) all_ids) L r.
Proof.
  revert all_ids. induction chs as [|ch chs IH]; intros all_ids.
  - eexists _, _. apply sends_ret.
  - cbn [for_each].
    destruct (collect_step_sends ch all_ids) as (L & [e|acc] & Hs).
    + eexists _, _. apply sends_bind_raise, Hs.
    + destruct (IH acc) as (L' & r & Hl).
      eexists _, _. eapply sends_bind; [exact Hs|exact Hl].
Qed.

Lemma for_each_app {A S} (l1 l2 : list A) (body : A -> S -> M S) (s : S)
    (st : state) :
  for_each (l1 ++ l2) body s st
  = (s' ← for_each l1 body s; for_each l2 body s') st.
Proof.
  revert s st. induction l1 as [|x l1 IH]; intros s st.
  - reflexivity.
  - cbn [app for_each]. rewrite !bind_run.
    destruct (body x s st) as [st' [e|s']]; [reflexivity|].
    rewrite IH, bind_run. reflexivity.
Qed.

(** A source without upload list costs one request and changes nothing. *)
Lemma collect_step_skip (ch : str) (all_ids : gset str) :
  api w (ChannelsList ch) = inr [] ->
  sends (collect_step w cfg cutoff ch all_ids) [ChannelsList ch] (inr all_ids).
Proof.
  intros E. unfold collect_step. pose proof (get_uploads_pid_sends ch) as Hg.
  rewrite E in Hg. change [ChannelsList ch] with ([ChannelsList ch] ++ []).
  eapply sends_bind; [exact Hg|]. apply sends_ret.
Qed.

End Collect.

Lemma sends_result {A} (m : M A) L r st r' :
  sends m L r -> (m st).2 = r' -> r = r'.
Proof. intros Hs <-. rewrite Hs. reflexivity. Qed.

(** C9. A source for which [channels.list] returns no items does not make
    the run fail: [get_uploads_pid] returns [None], the turn of the loop for
    that source sends this one request, raises nothing and leaves the set of
    identifiers as it was, and the loop over all the sources ends as it
    would without that source: the same set or the same exception, and the
    same requests for the other sources. *)
Theorem C9_soft_skip (w : world) (cfg : config) (cutoff ch : str) :
  api w (ChannelsList ch) = inr [] ->
  sends (get_uploads_pid w ch) [ChannelsList ch] (inr None)
  /\ (forall all_ids,
        sends (collect_step w cfg cutoff ch all_ids) [ChannelsList ch]
          (inr all_ids))
  /\ (forall before after all_ids,
        exists L1 L2 skipped r,
          sends (for_each (before ++ after) (collect_step w cfg cutoff) all_ids)
            (L1 ++ L2) r
          /\ sends (for_each (before ++ ch :: after) (collect_step w cfg cutoff)
                      all_ids)
               (L1 ++ skipped ++ L2) r
          /\ (skipped = [ChannelsList ch]
              \/ (exists e, r = inl e) /\ skipped = [] /\ L2 = [])).
Proof.
  intros E. split; [|split].
  - pose proof (get_uploads_pid_sends w ch) as Hg. rewrite E in Hg. exact Hg.
  - intros all_ids. apply collect_step_skip, E.
  - intros before after all_ids.
    destruct (collect_loop_sends w cfg cutoff before all_ids) as (L1 & [e|acc] & H1).
    + exists L1, [], [], (inl e). rewrite !app_nil_r. repeat split.
      * intros st. rewrite for_each_app. apply sends_bind_raise, H1.
      * intros st. rewrite for_each_app. apply sends_bind_raise, H1.
      * right. repeat split. exists e. reflexivity.
    + destruct (collect_loop_sends w cfg cutoff after acc) as (L2 & r & H2).
      exists L1, L2, [ChannelsList ch], r. repeat split.
      * intros st. rewrite for_each_app. eapply sends_bind; eassumption.
      * intros st. rewrite for_each_app. eapply sends_bind; [exact H1|].
        cbn [for_each]. eapply sends_bind; [|exact H2].
        apply collect_step_skip, E.
      * left. reflexivity.
Qed.

(** C9, witness: the second channel of the sample configuration has no
    upload list. *)
Lemma C9_soft_skip_witness :
  api Sample.w (ChannelsList (lit "UC_gone")) = inr []
  /\ collect_step Sample.w Sample.cfg (lit "2024-05-01T00:00:00Z")
       (lit "UC_gone") {[ lit "vidA1" ]} init
     = (State [EvGet (ChannelsList (lit "UC_gone"))] 0, inr {[ lit "vidA1" ]}).
Proof.
  assert (E : api Sample.w (ChannelsList (lit "UC_gone")) = inr [])
    by reflexivity.
  split; [exact E|].
  destruct (C9_soft_skip Sample.w Sample.cfg (lit "2024-05-01T00:00:00Z")
              (lit "UC_gone") E) as (_ & Hstep & _).
  apply (Hstep {[ lit "vidA1" ]} init).
Defined.

(** ** Nothing new *)

Lemma posts_gets (L : list request) : posts (map EvGet L) = [].
Proof. induction L as [|r L IH]; [reflexivity|exact IH]. Qed.

Lemma posts_app (l1 l2 : list event) : posts (l1 ++ l2) = posts l1 ++ posts l2.
Proof. apply omap_app. Qed.

Section NoNews.

Context {py : PyLib} (w : world) (cfg : config).
Context (after : Z).
Hypothesis Hafter : minus_hours (clock w 0) (HOURS_WINDOW cfg) = Some after.

Local Abbreviation cutoff := (to_iso_z after).

Lemma minutes_main_empty (L : list request) :
  sends (collect_ids w cfg cutoff) L (inr ∅) ->
  let notice :=
    TextPayload
      (no_news_text cfg (strftime (lit "%Y-%m-%d %H:%M") JST (clock w 1))) in
  minutes_main w cfg init
  = (State (map EvGet L ++ [EvPost notice]) 2,
     match webhook w notice with Some e => inl e | None => inr () end).
Proof.
  intros Hs notice. unfold minutes_main. rewrite bind_run.
  cbn [now init log ticks]. rewrite bind_run, Hafter.
  cbn [or_overflow mret M_ret]. rewrite bind_run, Hs.
  destruct (decide (∅ = ∅)) as [_|Hne]; [|contradiction].
  (* the gset in [decide] is at type [gset str] *)
  reflexivity.
Qed.

Lemma news_main_empty (L : list request) :
  sends (collect_ids w cfg cutoff) L (inr ∅) ->
  news_main w cfg init = (State (map EvGet L) 1, inr ()).
Proof.
  intros Hs. unfold news_main. rewrite bind_run.
  cbn [now init log ticks]. rewrite bind_run, Hafter.
  cbn [or_overflow mret M_ret]. rewrite bind_run, Hs.
  destruct (decide (∅ = ∅)) as [_|Hne]; [|contradiction].
  reflexivity.
Qed.

End NoNews.

(** C2 (as amended). When the cutoff is computed and the loop over the
    sources ends with an empty set of identifiers, [yt_minutes.py] posts
    one thing to the webhook and nothing else: the notice, which carries
    the time of the second reading of the clock in UTC+9 and the window
    length in hours; [yt_news.py] posts nothing and returns. *)
Theorem C2_no_news (py : PyLib) (w : world) (cfg : config) (after : Z) :
  let cutoff := to_iso_z after in
  let date_str := strftime (lit "%Y-%m-%d %H:%M") JST (clock w 1) in
  let notice := TextPayload (no_news_text cfg date_str) in
  minus_hours (clock w 0) (HOURS_WINDOW cfg) = Some after ->
  (collect_ids w cfg cutoff (State [] 1)).2 = inr ∅ ->
  posts (log (minutes_main w cfg init).1) = [notice]
  /\ (minutes_main w cfg init).2
     = match webhook w notice with Some e => inl e | None => inr () end
  /\ no_news_text cfg date_str
     = [128196; 32; 65; 73; 12488; 12524; 12531; 12489; 31038; 20869; 22577;
        65306; 26032; 30528; 12394; 12375; 65288]%N
       ++ date_str ++ lit " JST, " ++ [36942; 21435]%N
       ++ str_of_int (HOURS_WINDOW cfg) ++ lit "h" ++ [65289%N]
  /\ posts (log (news_main w cfg init).1) = []
  /\ (news_main w cfg init).2 = inr ().
Proof.
  intros cutoff date_str notice Hafter Hempty.
  destruct (collect_loop_sends w cfg cutoff (CHANNEL_IDS cfg) ∅) as (L & r & Hs).
  fold (collect_ids w cfg cutoff) in Hs.
  rewrite (sends_result _ _ _ _ _ Hs Hempty) in Hs.
  rewrite (minutes_main_empty w cfg after Hafter L Hs),
    (news_main_empty w cfg after Hafter L Hs).
  cbn [fst snd log]. rewrite posts_app, !posts_gets.
  repeat split.
Qed.

(** C2, witness: a run of [yt_minutes.py] in which no channel is known. *)
Lemma C2_no_news_witness :
  minus_hours (clock Sample.quiet 0) (HOURS_WINDOW Sample.cfg)
  = Some 1714521600000000%Z
  /\ (collect_ids Sample.quiet Sample.cfg
        (to_iso_z (py := Sample.py) 1714521600000000) (State [] 1)).2 = inr ∅
  /\ posts (log (minutes_main (py := Sample.py) Sample.quiet Sample.cfg init).1)
     = [TextPayload
          ([128196; 32; 65; 73; 12488; 12524; 12531; 12489; 31038; 20869;
            22577; 65306; 26032; 30528; 12394; 12375; 65288]%N
           ++ lit "2024-05-02 09:00 JST, " ++ [36942; 21435]%N
           ++ lit "24h" ++ [65289%N])].
Proof.
  assert (Ha : minus_hours (clock Sample.quiet 0) (HOURS_WINDOW Sample.cfg)
               = Some 1714521600000000%Z) by reflexivity.
  assert (H : (collect_ids Sample.quiet Sample.cfg
                 (to_iso_z (py := Sample.py) 1714521600000000)
                 (State [] 1)).2 = inr ∅) by reflexivity.
  split; [exact Ha|]. split; [exact H|].
  destruct (C2_no_news Sample.py Sample.quiet Sample.cfg _ Ha H) as (Hp & _).
  rewrite Hp. vm_compute. reflexivity.
Defined.

(** C2, counterexample to the claim as written: in such a run
    [yt_news.py] delivers no notice at all. *)
Lemma C2_counterexample :
  minus_hours (clock Sample.quiet 0) (HOURS_WINDOW Sample.cfg)
  = Some 1714521600000000%Z
  /\ (collect_ids Sample.quiet Sample.cfg
        (to_iso_z (py := Sample.py) 1714521600000000) (State [] 1)).2 = inr ∅
  /\ posts (log (news_main (py := Sample.py) Sample.quiet Sample.cfg init).1) = []
  /\ (news_main (py := Sample.py) Sample.quiet Sample.cfg init).2 = inr ().
Proof. repeat split. Qed.

(** ** A run of the sample world *)

(** Scenario A with a source to skip in between: three channels, the
    second without upload list, one video listed by both others. Five
    listing requests and one metadata request go out, and one digest is
    posted. *)
Example sample_run :
  (minutes_main (py := Sample.py) Sample.w Sample.cfg init).2 = inr ()
  /\ length (gets (log (minutes_main (py := Sample.py) Sample.w Sample.cfg init).1)) = 6
  /\ length (posts (log (minutes_main (py := Sample.py) Sample.w Sample.cfg init).1)) = 1
  /\ (news_main (py := Sample.py) Sample.w Sample.cfg init).2 = inr ()
  /\ length (posts (log (news_main (py := Sample.py) Sample.w Sample.cfg init).1)) = 1.
Proof. repeat split; vm_compute; reflexivity. Qed.

(** * Further properties *)

(** ** The loop over the sources, in full *)

Section CollectRun.

Context (w : world) (cfg : config) (cutoff : str).

Lemma set_update_nil (all_ids : gset str) : set_update all_ids [] = all_ids.
Proof. unfold set_update. set_solver. Qed.

Lemma list_recent_video_ids_run (pid : str) :
  let q := PlaylistItemsList pid (Z.min (MAX_PER_CHANNEL cfg) 50) in
  sends (list_recent_video_ids w cfg pid cutoff) [q]
    match api w q with
    | inl e => inl e
    | inr items => inr (recent_ids items cutoff)
    end.
Proof.
  intros q. unfold list_recent_video_ids. fold q.
  destruct (api w q) as [e|items] eqn:E.
  - eapply sends_bind_raise. exact (sends_http_get w _ _ E).
  - change [q] with ([q] ++ []).
    eapply sends_bind; [exact (sends_http_get w _ _ E)|apply sends_ret].
Qed.

Lemma collect_step_run (ch : str) (all_ids : gset str) :
  sends (collect_step w cfg cutoff ch all_ids) (source_requests w cfg ch)
    match source_ids w cfg cutoff ch with
    | inl e => inl e
    | inr ids => inr (set_update all_ids ids)
    end.
Proof.
  unfold collect_step, source_requests, source_ids.
  pose proof (get_uploads_pid_sends w ch) as Hg.
  destruct (api w (ChannelsList ch)) as [e|[|it items]].
  - apply sends_bind_raise, Hg.
  - change [ChannelsList ch] with ([ChannelsList ch] ++ []).
    eapply sends_bind; [exact Hg|]. cbn [truthy_opt negb].
    rewrite set_update_nil. apply sends_ret.
  - destruct (truthy (uploads it)) eqn:Ht.
    + set (q := PlaylistItemsList (uploads it) (Z.min (MAX_PER_CHANNEL cfg) 50)).
      change [ChannelsList ch; q] with ([ChannelsList ch] ++ [q]).
      eapply sends_bind; [exact Hg|].
      cbn [truthy_opt default from_option]. unfold id. rewrite Ht. cbn [negb].
      pose proof (list_recent_video_ids_run (uploads it)) as Hr.
      cbv zeta in Hr. fold q in Hr.
      destruct (api w q) as [e|items'].
      * eapply sends_bind_raise, Hr.
      * change [q] with ([q] ++ []).
        eapply sends_bind; [exact Hr|apply sends_ret].
    + change [ChannelsList ch] with ([ChannelsList ch] ++ []).
      eapply sends_bind; [exact Hg|].
      cbn [truthy_opt default]. rewrite Ht. cbn [negb].
      rewrite set_update_nil. apply sends_ret.
Qed.

Lemma collect_loop_run (chs : list str) (all_ids : gset str) :
  sends (for_each chs (collect_step w cfg cutoff) all_ids)
    (loop_requests w cfg cutoff chs)
    match loop_ids w cfg cutoff chs with
    | inl e => inl e
    | inr lists => inr (foldl set_update all_ids lists)
    end.
Proof.
  revert all_ids. induction chs as [|ch chs IH]; intros all_ids.
  - apply sends_ret.
  - cbn [for_each loop_requests loop_ids].
    pose proof (collect_step_run ch all_ids) as Hs.
    destruct (source_ids w cfg cutoff ch) as [e|ids].
    + rewrite app_nil_r. apply sends_bind_raise, Hs.
    + eapply sends_bind; [exact Hs|].
      specialize (IH (set_update all_ids ids)).
      destruct (loop_ids w cfg cutoff chs); exact IH.
Qed.

End CollectRun.

(** ** The metadata requests, in full *)

Section FetchRun.

Context (w : world).

Lemma fetch_loop_run (chunks : list (list str)) (items : list video) :
  sends (for_each chunks
           (fun chunk items =>
              r ← http_get w (VideosList (join (lit ",") chunk));
              mret (items ++ r))
           items)
    (batch_requests w chunks)
    match batch_answers w chunks with
    | inl e => inl e
    | inr out => inr (items ++ out)
    end.
Proof.
  revert items. induction chunks as [|c chunks IH]; intros items st.
  - cbn [for_each batch_requests batch_answers map].
    rewrite state_eta, app_nil_r. reflexivity.
  - rewrite for_each_cons, fetch_step. cbn [batch_requests batch_answers].
    destruct (api w (videos_request c)) as [e|r]; [reflexivity|].
    rewrite IH. cbn [log ticks map].
    destruct (batch_answers w chunks) as [e|rest];
      rewrite <- ?app_assoc; reflexivity.
Qed.

Lemma fetch_videos_meta_run (ids : list str) :
  sends (fetch_videos_meta w ids) (batch_requests w (chunked ids 50))
    (batch_answers w (chunked ids 50)).
Proof.
  intros st. unfold fetch_videos_meta. rewrite fetch_loop_run.
  destruct (batch_answers w (chunked ids 50)); reflexivity.
Qed.

Lemma batch_requests_length (chunks : list (list str)) :
  length (batch_requests w chunks) <= length chunks.
Proof.
  induction chunks as [|c chunks IH]; simpl; [lia|].
  destruct (api w (videos_request c)); simpl; lia.
Qed.

Lemma batch_requests_prefix (chunks : list (list str)) :
  exists k, batch_requests w chunks = map videos_request (take k chunks).
Proof.
  induction chunks as [|c chunks [k IH]]; [exists 0; reflexivity|].
  cbn [batch_requests]. destruct (api w (videos_request c)).
  - exists 1. reflexivity.
  - exists (S k). rewrite IH. reflexivity.
Qed.

Lemma batch_requests_ok (chunks : list (list str)) (out : list video) :
  batch_answers w chunks = inr out ->
  batch_requests w chunks = map videos_request chunks
  /\ Forall (answered w) (batch_requests w chunks)
  /\ out = concat (map (videos_answer w) chunks).
Proof.
  revert out. induction chunks as [|c chunks IH]; intros out.
  - intros [= <-]. repeat split. constructor.
  - cbn [batch_answers batch_requests map concat].
    assert (Ec : forall r, api w (videos_request c) = inr r ->
                           videos_answer w c = r)
      by (intros r0 Hr0; unfold videos_answer; rewrite Hr0; reflexivity).
    destruct (api w (videos_request c)) as [e|r] eqn:E; [discriminate|].
    destruct (batch_answers w chunks) as [e|rest]; [discriminate|].
    intros [= <-]. destruct (IH rest eq_refl) as (Ereq & Hall & Erest).
    split; [rewrite Ereq; reflexivity|].
    split; [|rewrite Erest, (Ec r eq_refl); reflexivity].
    constructor; [exists r; exact E|exact Hall].
Qed.

Lemma batch_requests_raise (chunks : list (list str)) (e : exn) :
  batch_answers w chunks = inl e ->
  exists L' q, batch_requests w chunks = L' ++ [q]
               /\ Forall (answered w) L' /\ api w q = inl e.
Proof.
  induction chunks as [|c chunks IH]; [discriminate|].
  cbn [batch_answers batch_requests].
  destruct (api w (videos_request c)) as [e'|r] eqn:E.
  - intros [= ->]. exists [], (videos_request c). repeat split; [constructor|exact E].
  - destruct (batch_answers w chunks) as [e'|rest]; [|discriminate].
    intros [= ->]. destruct (IH eq_refl) as (L' & q & -> & Hall & Hq).
    exists (videos_request c :: L'), q. repeat split; [|exact Hq].
    constructor; [exists r; exact E|exact Hall].
Qed.

End FetchRun.

(** ** The listing requests, in full *)

Section CollectFacts.

Context (w : world) (cfg : config) (cutoff : str).

Lemma source_requests_length (ch : str) :
  1 <= length (source_requests w cfg ch) <= 2.
Proof.
  unfold source_requests.
  destruct (api w (ChannelsList ch)) as [e|[|it its]]; simpl; try lia.
  destruct (truthy (uploads it)); simpl; lia.
Qed.

Lemma loop_requests_length (chs : list str) :
  length (loop_requests w cfg cutoff chs) <= 2 * length chs.
Proof.
  induction chs as [|ch chs IH]; simpl; [lia|].
  rewrite length_app. pose proof (source_requests_length ch).
  destruct (source_ids w cfg cutoff ch); simpl; lia.
Qed.

Lemma source_requests_ok (ch : str) (ids : list str) :
  source_ids w cfg cutoff ch = inr ids ->
  Forall (answered w) (source_requests w cfg ch).
Proof.
  unfold source_ids, source_requests.
  destruct (api w (ChannelsList ch)) as [e|[|it its]] eqn:E; [discriminate| |].
  - intros _. repeat constructor. eexists. exact E.
  - destruct (truthy (uploads it)).
    + destruct (api w (PlaylistItemsList _ _)) as [e|items] eqn:E2; [discriminate|].
      intros _. repeat constructor; eexists; [exact E|exact E2].
    + intros _. repeat constructor. eexists. exact E.
Qed.

Lemma source_requests_raise (ch : str) (e : exn) :
  source_ids w cfg cutoff ch = inl e ->
  exists L' q, source_requests w cfg ch = L' ++ [q]
               /\ Forall (answered w) L' /\ api w q = inl e.
Proof.
  unfold source_ids, source_requests.
  destruct (api w (ChannelsList ch)) as [e'|[|it its]] eqn:E; [| discriminate |].
  - intros [= ->]. exists [], (ChannelsList ch). repeat split; [constructor|exact E].
  - destruct (truthy (uploads it)); [|discriminate].
    destruct (api w (PlaylistItemsList _ _)) as [e'|items] eqn:E2; [|discriminate].
    intros [= ->]. exists [ChannelsList ch], (PlaylistItemsList (uploads it)
                                 (Z.min (MAX_PER_CHANNEL cfg) 50)).
    repeat split; [|exact E2]. repeat constructor. eexists. exact E.
Qed.

Lemma loop_requests_ok (chs : list str) (lists : list (list str)) :
  loop_ids w cfg cutoff chs = inr lists ->
  Forall (answered w) (loop_requests w cfg cutoff chs).
Proof.
  revert lists. induction chs as [|ch chs IH]; intros lists; [constructor|].
  cbn [loop_ids loop_requests].
  destruct (source_ids w cfg cutoff ch) as [e|ids] eqn:E; [discriminate|].
  destruct (loop_ids w cfg cutoff chs) as [e|rest]; [discriminate|].
  intros _. apply Forall_app. split; [eapply source_requests_ok, E|].
  eapply IH. reflexivity.
Qed.

Lemma loop_requests_raise (chs : list str) (e : exn) :
  loop_ids w cfg cutoff chs = inl e ->
  exists L' q, loop_requests w cfg cutoff chs = L' ++ [q]
               /\ Forall (answered w) L' /\ api w q = inl e.
Proof.
  induction chs as [|ch chs IH]; [discriminate|].
  cbn [loop_ids loop_requests].
  destruct (source_ids w cfg cutoff ch) as [e'|ids] eqn:E.
  - intros [= ->]. rewrite app_nil_r. apply source_requests_raise, E.
  - destruct (loop_ids w cfg cutoff chs) as [e'|rest]; [|discriminate].
    intros [= ->]. destruct (IH eq_refl) as (L' & q & -> & Hall & Hq).
    exists (source_requests w cfg ch ++ L'), q.
    rewrite app_assoc. repeat split; [|exact Hq].
    apply Forall_app. split; [eapply source_requests_ok, E|exact Hall].
Qed.

End CollectFacts.

(** ** Rendering touches neither the network nor the clock *)

Section RenderPure.

Context {py : PyLib}.

Lemma to_jst_str_run (iso_z : str) :
  sends (to_jst_str iso_z) [] (jst_result iso_z).
Proof.
  intros st. unfold to_jst_str, jst_result. cbn [map]. rewrite state_eta.
  destruct (fromisoformat _) as [dt|]; [|reflexivity].
  rewrite bind_run. destruct (astimezone JST dt); reflexivity.
Qed.

Lemma jst_result_raises (iso_z : str) (e : exn) :
  jst_result iso_z = inl e -> e = ValueError \/ e = OverflowError.
Proof.
  unfold jst_result. destruct (fromisoformat _) as [dt|].
  - destruct (astimezone JST dt); [discriminate|].
    intros [= <-]. right. reflexivity.
  - intros [= <-]. left. reflexivity.
Qed.

Lemma sends_nil {A} (m : M A) (r : exn + A) (st : state) :
  sends m [] r -> m st = (st, r).
Proof. intros H. rewrite H. cbn [map]. rewrite state_eta. reflexivity. Qed.

Lemma renders_bind_jst {A} (iso_z : str) (f : str -> A) :
  renders (pub_jst ← to_jst_str iso_z; mret (f pub_jst)).
Proof.
  pose proof (to_jst_str_run iso_z) as H.
  pose proof (jst_result_raises iso_z) as He.
  destruct (jst_result iso_z) as [e|pub_jst].
  - exists (inl e). split.
    + apply sends_bind_raise, H.
    + intros e' [= <-]. apply He. reflexivity.
  - eexists. split.
    + change (@nil request) with ([] ++ @nil request).
      eapply sends_bind; [exact H|apply sends_ret].
    + discriminate.
Qed.

Lemma news_item_blocks_renders (it : video) : renders (news_item_blocks it).
Proof. unfold news_item_blocks. apply renders_bind_jst. Qed.

Lemma minutes_item_lines_renders (idx : nat) (it : video) :
  renders (minutes_item_lines idx it).
Proof. unfold minutes_item_lines. apply renders_bind_jst. Qed.

Lemma for_each_renders {A B} (f : A -> M (list B))
    (body : A -> list B -> M (list B)) (l : list A) (acc : list B) :
  (forall x acc st, body x acc st = (bs ← f x; mret (acc ++ bs)) st) ->
  (forall x, renders (f x)) ->
  renders (for_each l body acc).
Proof.
  intros Hbody Hf. revert acc. induction l as [|x l IH]; intros acc.
  - eexists. split; [apply sends_ret|discriminate].
  - destruct (Hf x) as ([e|bs] & Hs & He).
    + exists (inl e). split; [|exact He].
      intros st. rewrite for_each_cons, Hbody, bind_run, Hs. reflexivity.
    + destruct (IH (acc ++ bs)) as (r & Hr & Hre).
      exists r. split; [|exact Hre].
      intros st.
      rewrite for_each_cons, Hbody, bind_run, (sends_nil _ _ st Hs).
      change ((mret (acc ++ bs) : M (list B)) st)
        with (st, inr (A:=exn) (acc ++ bs)).
      cbv beta iota. apply Hr.
Qed.

End RenderPure.

(** ** A run of [main], case by case *)

Section MainRun.

Context {py : PyLib} (w : world) (cfg : config).

(** The cutoff is out of the range of [datetime]: the run ends before it
    sends anything. *)
Lemma news_main_overflow :
  minus_hours (clock w 0) (HOURS_WINDOW cfg) = None ->
  news_main w cfg init = (State [] 1, inl OverflowError).
Proof.
  intros H. unfold news_main. rewrite bind_run. cbn [now init log ticks].
  rewrite bind_run, H. reflexivity.
Qed.

Lemma minutes_main_overflow :
  minus_hours (clock w 0) (HOURS_WINDOW cfg) = None ->
  minutes_main w cfg init = (State [] 1, inl OverflowError).
Proof.
  intros H. unfold minutes_main. rewrite bind_run. cbn [now init log ticks].
  rewrite bind_run, H. reflexivity.
Qed.

Context (after : Z).
Hypothesis Hafter : minus_hours (clock w 0) (HOURS_WINDOW cfg) = Some after.

Local Abbreviation cutoff := (to_iso_z after).
Local Abbreviation listing := (loop_requests w cfg cutoff (CHANNEL_IDS cfg)).
Local Abbreviation news_text :=
  ([65; 73; 12488; 12524; 12531; 12489; 26032; 30528]%N).

Lemma collect_ids_run :
  sends (collect_ids w cfg cutoff) listing
    match loop_ids w cfg cutoff (CHANNEL_IDS cfg) with
    | inl e => inl e
    | inr lists => inr (accumulate lists)
    end.
Proof. apply collect_loop_run. Qed.

Lemma news_main_run :
  match loop_ids w cfg cutoff (CHANNEL_IDS cfg) with
  | inl e => news_main w cfg init = (State (map EvGet listing) 1, inl e)
  | inr lists =>
      let all_ids := accumulate lists in
      let batches := batch_requests w (chunked (elements all_ids) 50) in
      if decide (all_ids = ∅)
      then news_main w cfg init = (State (map EvGet listing) 1, inr ())
      else
        match batch_answers w (chunked (elements all_ids) 50) with
        | inl e =>
            news_main w cfg init
            = (State (map EvGet (listing ++ batches)) 1, inl e)
        | inr metas =>
            (exists e,
               (e = ValueError \/ e = OverflowError)
               /\ news_main w cfg init
                  = (State (map EvGet (listing ++ batches)) 1, inl e))
            \/ exists blocks,
                 news_main w cfg init
                 = (State (map EvGet (listing ++ batches)
                           ++ [EvPost (BlocksPayload news_text blocks)]) 1,
                    delivery w (BlocksPayload news_text blocks))
        end
  end.
Proof.
  pose proof collect_ids_run as Hc.
  unfold news_main. rewrite bind_run. cbn [now init log ticks].
  rewrite bind_run, Hafter. cbn [or_overflow mret M_ret].
  rewrite bind_run, Hc. cbn [log app].
  destruct (loop_ids w cfg cutoff (CHANNEL_IDS cfg)) as [e|lists];
    [reflexivity|].
  cbv zeta. destruct (decide (accumulate lists = ∅)) as [_|_]; [reflexivity|].
  rewrite bind_run, (fetch_videos_meta_run w). cbn [log ticks].
  rewrite <- map_app.
  destruct (batch_answers w (chunked (elements (accumulate lists)) 50))
    as [e|metas]; [reflexivity|].
  rewrite bind_run.
  destruct (for_each_renders news_item_blocks
              (fun it blocks => bs ← news_item_blocks it; mret (blocks ++ bs))
              (sort_desc publishedAt metas) [news_header cfg])
    as ([e|blocks] & Hr & He);
    [reflexivity|apply news_item_blocks_renders| |].
  - left. exists e. split; [apply He; reflexivity|].
    rewrite Hr. cbn [log ticks map]. rewrite app_nil_r. reflexivity.
  - right. exists blocks. rewrite Hr. cbn [log ticks map]. rewrite app_nil_r.
    reflexivity.
Qed.

Lemma minutes_main_run :
  match loop_ids w cfg cutoff (CHANNEL_IDS cfg) with
  | inl e => minutes_main w cfg init = (State (map EvGet listing) 1, inl e)
  | inr lists =>
      let all_ids := accumulate lists in
      let batches := batch_requests w (chunked (elements all_ids) 50) in
      if decide (all_ids = ∅)
      then
        exists text,
          minutes_main w cfg init
          = (State (map EvGet listing ++ [EvPost (TextPayload text)]) 2,
             delivery w (TextPayload text))
      else
        match batch_answers w (chunked (elements all_ids) 50) with
        | inl e =>
            minutes_main w cfg init
            = (State (map EvGet (listing ++ batches)) 1, inl e)
        | inr metas =>
            (exists e,
               (e = ValueError \/ e = OverflowError)
               /\ minutes_main w cfg init
                  = (State (map EvGet (listing ++ batches)) 2, inl e))
            \/ exists text,
                 minutes_main w cfg init
                 = (State (map EvGet (listing ++ batches)
                           ++ [EvPost (TextPayload text)]) 2,
                    delivery w (TextPayload text))
        end
  end.
Proof.
  pose proof collect_ids_run as Hc.
  unfold minutes_main. rewrite bind_run. cbn [now init log ticks].
  rewrite bind_run, Hafter. cbn [or_overflow mret M_ret].
  rewrite bind_run, Hc. cbn [log app].
  destruct (loop_ids w cfg cutoff (CHANNEL_IDS cfg)) as [e|lists];
    [reflexivity|].
  cbv zeta. destruct (decide (accumulate lists = ∅)) as [_|_].
  - eexists. reflexivity.
  - rewrite bind_run, (fetch_videos_meta_run w). cbn [log ticks].
    rewrite <- map_app.
    destruct (batch_answers w (chunked (elements (accumulate lists)) 50))
      as [e|metas]; [reflexivity|].
    rewrite bind_run. unfold build_minutes_text. rewrite bind_run.
    cbn [now log ticks]. rewrite bind_run.
    match goal with
    | |- context [for_each ?l ?body ?acc] =>
        destruct (for_each_renders
                    (fun '(idx, it) => minutes_item_lines idx it) body l acc)
          as ([e|lines] & Hr & He);
          [intros [idx it] acc' s; reflexivity
          |intros [idx it]; apply minutes_item_lines_renders| |]
    end.
    + left. exists e. split; [apply He; reflexivity|].
      rewrite Hr. cbn [log ticks map]. rewrite app_nil_r. reflexivity.
    + right. eexists. rewrite Hr. cbn [log ticks map]. rewrite app_nil_r.
      reflexivity.
Qed.

End MainRun.

(** ** What a run sends and delivers *)

Lemma gets_gets (L : list request) : gets (map EvGet L) = L.
Proof. induction L as [|q L IH]; [reflexivity|]. simpl. f_equal. exact IH. Qed.

Lemma gets_posts (po : list payload) : gets (map EvPost po) = [].
Proof. induction po as [|p po IH]; [reflexivity|exact IH]. Qed.

Lemma gets_app (l1 l2 : list event) : gets (l1 ++ l2) = gets l1 ++ gets l2.
Proof. apply omap_app. Qed.

Section FailFast.

Context {py : PyLib} (w : world) (cfg : config).

(** The four ways a run can end. *)
Lemma fails_fast_raise (L : list request) (k : nat) (e : exn) :
  (exists L' q, L = L' ++ [q] /\ Forall (answered w) L' /\ api w q = inl e) ->
  fails_fast w (State (map EvGet L) k, inl e).
Proof.
  intros H. exists L, []. cbn [fst snd log map length]. rewrite app_nil_r.
  repeat split; [lia|discriminate|discriminate|].
  intros _ e' [= <-]. right. exact H.
Qed.

Lemma fails_fast_unreadable (L : list request) (k : nat) (e : exn) :
  e = ValueError \/ e = OverflowError ->
  Forall (answered w) L ->
  fails_fast w (State (map EvGet L) k, inl e).
Proof.
  intros He H. exists L, []. cbn [fst snd log map length]. rewrite app_nil_r.
  repeat split; [lia|discriminate|discriminate|].
  intros _ e' [= <-]. left. split; [exact He|exact H].
Qed.

Lemma fails_fast_silent (L : list request) (k : nat) :
  fails_fast w (State (map EvGet L) k, inr ()).
Proof.
  exists L, []. cbn [fst snd log map length]. rewrite app_nil_r.
  repeat split; [lia|discriminate|discriminate|]. intros _ e'. discriminate.
Qed.

Lemma fails_fast_delivered (L : list request) (k : nat) (p : payload) :
  Forall (answered w) L ->
  fails_fast w (State (map EvGet L ++ [EvPost p]) k, delivery w p).
Proof.
  intros H. exists L, [p]. cbn [fst snd log map length].
  repeat split; [lia| | |discriminate].
  - injection H0 as <-. reflexivity.
  - exact H.
Qed.

Lemma all_answered (cutoff : str) (lists : list (list str))
    (metas : list video) (ids : list str) :
  loop_ids w cfg cutoff (CHANNEL_IDS cfg) = inr lists ->
  batch_answers w (chunked ids 50) = inr metas ->
  Forall (answered w)
    (loop_requests w cfg cutoff (CHANNEL_IDS cfg)
     ++ batch_requests w (chunked ids 50)).
Proof.
  intros Hl Hb. apply Forall_app. split.
  - eapply loop_requests_ok, Hl.
  - apply (batch_requests_ok w _ _ Hb).
Qed.

Lemma raised_in_batches (cutoff : str) (lists : list (list str))
    (ids : list str) (e : exn) :
  loop_ids w cfg cutoff (CHANNEL_IDS cfg) = inr lists ->
  batch_answers w (chunked ids 50) = inl e ->
  exists L' q,
    loop_requests w cfg cutoff (CHANNEL_IDS cfg)
    ++ batch_requests w (chunked ids 50) = L' ++ [q]
    /\ Forall (answered w) L' /\ api w q = inl e.
Proof.
  intros Hl Hb.
  destruct (batch_requests_raise w _ _ Hb) as (L' & q & -> & Hall & Hq).
  exists (loop_requests w cfg cutoff (CHANNEL_IDS cfg) ++ L'), q.
  rewrite app_assoc. repeat split; [|exact Hq].
  apply Forall_app. split; [eapply loop_requests_ok, Hl|exact Hall].
Qed.

(** X1. Both scripts fail fast and deliver at most once: a run sends its
    requests first and posts at most one message, after them; it posts only
    if every request was answered, and then ends as the delivery does; if
    it raises without having posted, the exception is that of the last
    request sent, all earlier ones having been answered, or every request
    sent was answered and it is the [ValueError] of an unreadable
    [publishedAt] or the [OverflowError] of an instant that leaves the
    range of [datetime]: the cutoff, in which case nothing was sent, or a
    [publishedAt] that cannot be shown in UTC+9. *)
Theorem X1_fail_fast :
  fails_fast w (news_main w cfg init)
  /\ fails_fast w (minutes_main w cfg init)
  /\ (minus_hours (clock w 0) (HOURS_WINDOW cfg) = None ->
      news_main w cfg init = (State [] 1, inl OverflowError)
      /\ minutes_main w cfg init = (State [] 1, inl OverflowError)).
Proof.
  split; [|split];
    [| |intros H; split;
          [apply news_main_overflow, H|apply minutes_main_overflow, H]];
    destruct (minus_hours (clock w 0) (HOURS_WINDOW cfg)) as [after|] eqn:Ha.
  - pose proof (news_main_run w cfg after Ha) as H.
    destruct (loop_ids w cfg (to_iso_z after) (CHANNEL_IDS cfg))
      as [e|lists] eqn:El.
    { rewrite H. apply fails_fast_raise. eapply loop_requests_raise, El. }
    cbv zeta in H. destruct (decide (accumulate lists = ∅)).
    { rewrite H. apply fails_fast_silent. }
    destruct (batch_answers w _) as [e|metas] eqn:Eb.
    { rewrite H. apply fails_fast_raise. eapply raised_in_batches; eassumption. }
    pose proof (all_answered _ _ _ _ El Eb) as Hall.
    destruct H as [(e & He & H)|[blocks H]]; rewrite H.
    + apply fails_fast_unreadable; [exact He|exact Hall].
    + apply fails_fast_delivered, Hall.
  - rewrite (news_main_overflow w cfg Ha).
    apply (fails_fast_unreadable [] 1); [right; reflexivity|constructor].
  - pose proof (minutes_main_run w cfg after Ha) as H.
    destruct (loop_ids w cfg (to_iso_z after) (CHANNEL_IDS cfg))
      as [e|lists] eqn:El.
    { rewrite H. apply fails_fast_raise. eapply loop_requests_raise, El. }
    cbv zeta in H. destruct (decide (accumulate lists = ∅)).
    { destruct H as [text H]. rewrite H. apply fails_fast_delivered.
      eapply loop_requests_ok, El. }
    destruct (batch_answers w _) as [e|metas] eqn:Eb.
    { rewrite H. apply fails_fast_raise. eapply raised_in_batches; eassumption. }
    pose proof (all_answered _ _ _ _ El Eb) as Hall.
    destruct H as [(e & He & H)|[text H]]; rewrite H.
    + apply fails_fast_unreadable; [exact He|exact Hall].
    + apply fails_fast_delivered, Hall.
  - rewrite (minutes_main_overflow w cfg Ha).
    apply (fails_fast_unreadable [] 1); [right; reflexivity|constructor].
Qed.

End FailFast.

(** ** The requests of a run *)

Section Budget.

Context {py : PyLib} (w : world) (cfg : config).

Section Computed.

Context (after : Z).
Hypothesis Hafter : minus_hours (clock w 0) (HOURS_WINDOW cfg) = Some after.

Local Abbreviation cutoff := (to_iso_z after).
Local Abbreviation listing := (loop_requests w cfg cutoff (CHANNEL_IDS cfg)).

(** The metadata requests of a run: none unless the loop over the sources
    ended with a set that is not empty. *)
Local Abbreviation fetching :=
  (match loop_ids w cfg cutoff (CHANNEL_IDS cfg) with
   | inl _ => []
   | inr lists =>
       if decide (accumulate lists = ∅) then []
       else batch_requests w (chunked (elements (accumulate lists)) 50)
   end).

Lemma gets_requests_post (L : list request) (p : payload) :
  gets (map EvGet L ++ [EvPost p]) = L.
Proof. rewrite gets_app, gets_gets. apply app_nil_r. Qed.

Lemma news_main_gets :
  gets (log (news_main w cfg init).1) = listing ++ fetching
  /\ ticks (news_main w cfg init).1 <= 2.
Proof.
  pose proof (news_main_run w cfg after Hafter) as H.
  destruct (loop_ids w cfg cutoff (CHANNEL_IDS cfg)) as [e|lists].
  { rewrite H. cbn [fst log ticks]. rewrite gets_gets, app_nil_r. split; [reflexivity|lia]. }
  cbv zeta in H. destruct (decide (accumulate lists = ∅)).
  { rewrite H. cbn [fst log ticks]. rewrite gets_gets, app_nil_r. split; [reflexivity|lia]. }
  destruct (batch_answers w _) as [e|metas].
  { rewrite H. cbn [fst log ticks]. rewrite gets_gets. split; [reflexivity|lia]. }
  destruct H as [(e & _ & H)|[blocks H]]; rewrite H; cbn [fst log ticks].
  - rewrite gets_gets. split; [reflexivity|lia].
  - rewrite gets_requests_post. split; [reflexivity|lia].
Qed.

Lemma minutes_main_gets :
  gets (log (minutes_main w cfg init).1) = listing ++ fetching
  /\ ticks (minutes_main w cfg init).1 <= 2.
Proof.
  pose proof (minutes_main_run w cfg after Hafter) as H.
  destruct (loop_ids w cfg cutoff (CHANNEL_IDS cfg)) as [e|lists].
  { rewrite H. cbn [fst log ticks]. rewrite gets_gets, app_nil_r. split; [reflexivity|lia]. }
  cbv zeta in H. destruct (decide (accumulate lists = ∅)).
  { destruct H as [text H]. rewrite H. cbn [fst log ticks].
    rewrite gets_requests_post, app_nil_r. split; [reflexivity|lia]. }
  destruct (batch_answers w _) as [e|metas].
  { rewrite H. cbn [fst log ticks]. rewrite gets_gets. split; [reflexivity|lia]. }
  destruct H as [(e & _ & H)|[text H]]; rewrite H; cbn [fst log ticks].
  - rewrite gets_gets. split; [reflexivity|lia].
  - rewrite gets_requests_post. split; [reflexivity|lia].
Qed.

Lemma source_requests_shape (ch : str) :
  Forall (fun q => match q with
                   | ChannelsList c => c = ch
                   | PlaylistItemsList _ m => m = Z.min (MAX_PER_CHANNEL cfg) 50
                   | VideosList _ => False
                   end) (source_requests w cfg ch).
Proof.
  unfold source_requests.
  destruct (api w (ChannelsList ch)) as [e|[|it its]];
    try (repeat constructor; fail).
  destruct (truthy (uploads it)); repeat constructor.
Qed.

Lemma loop_requests_shape (chs : list str) :
  Forall (fun q => match q with
                   | ChannelsList c => c ∈ chs
                   | PlaylistItemsList _ m => m = Z.min (MAX_PER_CHANNEL cfg) 50
                   | VideosList _ => False
                   end) (loop_requests w cfg cutoff chs).
Proof.
  induction chs as [|ch chs IH]; [constructor|].
  cbn [loop_requests]. apply Forall_app. split.
  - eapply Forall_impl; [apply source_requests_shape|].
    intros [c|pid m|ids]; cbn; [intros ->; left|auto|auto].
  - destruct (source_ids w cfg cutoff ch); [constructor|].
    eapply Forall_impl; [exact IH|].
    intros [c|pid m|ids]; cbn; [intros Hc; right; exact Hc|auto|auto].
Qed.

Lemma fetching_shape :
  Forall (fun q => match q with VideosList _ => True | _ => False end) fetching.
Proof.
  destruct (loop_ids w cfg cutoff (CHANNEL_IDS cfg)) as [e|lists]; [constructor|].
  destruct (decide (accumulate lists = ∅)); [constructor|].
  destruct (batch_requests_prefix w (chunked (elements (accumulate lists)) 50))
    as [k ->].
  apply Forall_forall. intros q Hq.
  apply list_elem_of_In, in_map_iff in Hq as (b & <- & _). exact I.
Qed.

Lemma fetching_length :
  length fetching
  <= (match (collect_ids w cfg cutoff init).2 with
      | inr all_ids => size all_ids
      | inl _ => 0
      end + 49) / 50.
Proof.
  rewrite (collect_ids_run w cfg after init). cbn [snd].
  destruct (loop_ids w cfg cutoff (CHANNEL_IDS cfg)) as [e|lists]; [simpl; lia|].
  destruct (decide (accumulate lists = ∅)); [simpl; lia|].
  etransitivity; [apply batch_requests_length|].
  rewrite (chunked_length _ 49). reflexivity.
Qed.

Lemma request_budget (run : state * (exn + ())) :
  run = news_main w cfg init \/ run = minutes_main w cfg init ->
  let found :=
    match (collect_ids w cfg cutoff init).2 with
    | inr all_ids => size all_ids
    | inl _ => 0
    end in
  exists listed fetched,
    gets (log run.1) = listed ++ fetched
    /\ length listed <= 2 * length (CHANNEL_IDS cfg)
    /\ length fetched <= (found + 49) / 50
    /\ Forall (fun q => match q with
                        | ChannelsList c => c ∈ CHANNEL_IDS cfg
                        | PlaylistItemsList _ m =>
                            m = Z.min (MAX_PER_CHANNEL cfg) 50 /\ (m <= 50)%Z
                        | VideosList _ => False
                        end) listed
    /\ Forall (fun q => match q with VideosList _ => True | _ => False end)
         fetched
    /\ ticks run.1 <= 2.
Proof.
  intros Hrun found.
  assert (H : gets (log run.1) = listing ++ fetching /\ ticks run.1 <= 2).
  { destruct Hrun as [-> | ->]; [apply news_main_gets|apply minutes_main_gets]. }
  destruct H as [Hg Ht]. exists listing, fetching.
  split; [exact Hg|]. split; [apply loop_requests_length|].
  split; [apply fetching_length|]. split; [|split; [apply fetching_shape|exact Ht]].
  eapply Forall_impl; [apply loop_requests_shape|].
  intros [c|pid m|ids]; cbn; [auto| |auto].
  intros ->. split; [reflexivity|lia].
Qed.

End Computed.

(** X2. The requests of a run, of either script: first the listing
    requests, at most two for each configured channel, a [channels.list]
    for a configured channel or a [playlistItems.list] asking for
    [min(MAX_PER_CHANNEL, 50)] entries, then the metadata requests, at most
    one for every 50 identifiers that the loop over the sources found; and
    the clock is read at most twice. A run whose cutoff leaves the range of
    [datetime] sends no request at all. *)
Theorem X2_request_budget (run : state * (exn + ())) :
  run = news_main w cfg init \/ run = minutes_main w cfg init ->
  let found :=
    match minus_hours (clock w 0) (HOURS_WINDOW cfg) with
    | Some after =>
        match (collect_ids w cfg (to_iso_z after) init).2 with
        | inr all_ids => size all_ids
        | inl _ => 0
        end
    | None => 0
    end in
  exists listed fetched,
    gets (log run.1) = listed ++ fetched
    /\ length listed <= 2 * length (CHANNEL_IDS cfg)
    /\ length fetched <= (found + 49) / 50
    /\ Forall (fun q => match q with
                        | ChannelsList c => c ∈ CHANNEL_IDS cfg
                        | PlaylistItemsList _ m =>
                            m = Z.min (MAX_PER_CHANNEL cfg) 50 /\ (m <= 50)%Z
                        | VideosList _ => False
                        end) listed
    /\ Forall (fun q => match q with VideosList _ => True | _ => False end)
         fetched
    /\ ticks run.1 <= 2
    /\ (minus_hours (clock w 0) (HOURS_WINDOW cfg) = None ->
        gets (log run.1) = []).
Proof.
  intros Hrun found. subst found.
  destruct (minus_hours (clock w 0) (HOURS_WINDOW cfg)) as [after|] eqn:Ha.
  - destruct (request_budget after Ha run Hrun)
      as (listed & fetched & H1 & H2 & H3 & H4 & H5 & H6).
    exists listed, fetched. repeat split; try assumption. discriminate.
  - assert (E : run = (State [] 1, inl OverflowError)).
    { destruct Hrun as [-> | ->];
        [apply news_main_overflow, Ha|apply minutes_main_overflow, Ha]. }
    subst run. exists [], []. cbn [fst log ticks gets omap app length].
    repeat split; try constructor; lia.
Qed.

End Budget.

(** X2, witness: the run of [yt_minutes.py] in the sample world, two
    channels with an upload list and one without, two identifiers found. *)
Lemma X2_request_budget_witness :
  let run := minutes_main (py := Sample.py) Sample.w Sample.cfg init in
  length (gets (log run.1)) = 6 /\ 6 <= 2 * 3 + (2 + 49) / 50.
Proof.
  intros run.
  destruct (X2_request_budget (py := Sample.py) Sample.w Sample.cfg run
              (or_intror eq_refl))
    as (listed & fetched & Hg & _).
  split; [rewrite Hg, <- Hg; vm_compute; reflexivity|vm_compute; lia].
Defined.

(** ** What the loop over the sources collects *)

Section Collected.

Context (w : world) (cfg : config) (cutoff : str).

Lemma truthy_nonempty (s : str) : truthy s = true <-> s <> [].
Proof. destruct s; simpl; split; congruence. Qed.

Lemma recent_ids_elem (items : list playlist_item) (x : str) :
  x ∈ recent_ids items cutoff <->
  exists e, e ∈ items /\ videoId e = x /\ kept cutoff e = true.
Proof.
  rewrite recent_ids_kept, list_elem_of_In, in_map_iff. split.
  - intros (e & <- & He). apply filter_In in He as [He Hk].
    exists e. repeat split; [apply list_elem_of_In, He|exact Hk].
  - intros (e & He & <- & Hk). exists e. split; [reflexivity|].
    apply filter_In. split; [apply list_elem_of_In, He|exact Hk].
Qed.

Lemma source_ids_elem (ch : str) (ids : list str) (x : str) :
  source_ids w cfg cutoff ch = inr ids ->
  x ∈ ids <->
  exists it its items e,
    api w (ChannelsList ch) = inr (it :: its)
    /\ uploads it <> []
    /\ api w (PlaylistItemsList (uploads it) (Z.min (MAX_PER_CHANNEL cfg) 50))
       = inr items
    /\ e ∈ items /\ videoId e = x /\ kept cutoff e = true.
Proof.
  unfold source_ids.
  destruct (api w (ChannelsList ch)) as [e|[|it its]] eqn:E; [discriminate| |].
  - intros [= <-]. split; [intros H; inversion H|].
    intros (it & its & items & e & [=] & _).
  - destruct (truthy (uploads it)) eqn:Ht.
    + destruct (api w (PlaylistItemsList _ _)) as [e|items] eqn:E2; [discriminate|].
      intros [= <-]. rewrite recent_ids_elem. split.
      * intros (e & He & Hx & Hk). exists it, its, items, e.
        repeat split; try assumption. apply truthy_nonempty, Ht.
      * intros (it' & its' & items' & e & [= <- <-] & _ & E2' & He & Hx & Hk).
        rewrite E2 in E2'. injection E2' as <-. exists e. auto.
    + intros [= <-]. split; [intros H; inversion H|].
      intros (it' & its' & items' & e & [= <- <-] & Hne & _).
      apply truthy_nonempty in Hne. congruence.
Qed.

Lemma loop_ids_elem (chs : list str) (lists : list (list str)) (x : str) :
  loop_ids w cfg cutoff chs = inr lists ->
  x ∈ concat lists <->
  exists ch ids, ch ∈ chs /\ source_ids w cfg cutoff ch = inr ids /\ x ∈ ids.
Proof.
  revert lists. induction chs as [|ch chs IH]; intros lists.
  - intros [= <-]. split; [intros H; inversion H|].
    intros (ch & ids & H & _). inversion H.
  - cbn [loop_ids].
    destruct (source_ids w cfg cutoff ch) as [e|ids] eqn:E; [discriminate|].
    destruct (loop_ids w cfg cutoff chs) as [e|rest]; [discriminate|].
    intros [= <-]. cbn [concat]. rewrite elem_of_app, (IH rest eq_refl). split.
    + intros [Hx|(ch' & ids' & Hch & Hs & Hx)].
      * exists ch, ids. split; [left|auto].
      * exists ch', ids'. split; [right; exact Hch|auto].
    + intros (ch' & ids' & Hch & Hs & Hx).
      apply elem_of_cons in Hch as [->|Hch].
      * left. rewrite E in Hs. injection Hs as <-. exact Hx.
      * right. exists ch', ids'. auto.
Qed.

(** X3. When the loop over the sources ends normally, the identifiers it
    has collected are exactly the video identifiers of the entries with a
    non-empty publish timestamp lexically [>=] the cutoff that
    [playlistItems.list] returned for the upload list of a configured
    channel, that list being the one of the first item of the channel's
    [channels.list] answer and not the empty string. *)
Theorem X3_collected_ids (st : state) (all_ids : gset str) :
  (collect_ids w cfg cutoff st).2 = inr all_ids ->
  forall x,
    x ∈ all_ids <->
    exists ch it its items e,
      ch ∈ CHANNEL_IDS cfg
      /\ api w (ChannelsList ch) = inr (it :: its)
      /\ uploads it <> []
      /\ api w (PlaylistItemsList (uploads it) (Z.min (MAX_PER_CHANNEL cfg) 50))
         = inr items
      /\ e ∈ items /\ videoId e = x /\ kept cutoff e = true.
Proof.
  unfold collect_ids. rewrite (collect_loop_run w cfg cutoff _ ∅ st). cbn [snd].
  destruct (loop_ids w cfg cutoff (CHANNEL_IDS cfg)) as [e|lists] eqn:El;
    [discriminate|].
  intros [= <-] x. fold (accumulate lists).
  rewrite accumulate_concat, elem_of_list_to_set, (loop_ids_elem _ _ x El).
  split.
  - intros (ch & ids & Hch & Hs & Hx).
    apply (source_ids_elem ch ids x Hs) in Hx
      as (it & its & items & e & H).
    exists ch, it, its, items, e. split; [exact Hch|exact H].
  - intros (ch & it & its & items & e & Hch & H).
    assert (Hok : exists ids, source_ids w cfg cutoff ch = inr ids).
    { clear -El Hch. revert lists El.
      induction (CHANNEL_IDS cfg) as [|c chs IH]; intros lists El;
        [inversion Hch|].
      cbn [loop_ids] in El.
      destruct (source_ids w cfg cutoff c) as [e|ids] eqn:E; [discriminate|].
      destruct (loop_ids w cfg cutoff chs) as [e|rest]; [discriminate|].
      apply elem_of_cons in Hch as [->|Hch]; [exists ids; exact E|].
      apply (IH Hch rest eq_refl). }
    destruct Hok as [ids Hs]. exists ch, ids. split; [exact Hch|].
    split; [exact Hs|]. apply (source_ids_elem ch ids x Hs).
    exists it, its, items, e. exact H.
Qed.

End Collected.

(** X3, witness: in the sample world the loop collects the two recent
    videos, one of them listed by two channels. *)
Lemma X3_collected_ids_witness :
  (collect_ids Sample.w Sample.cfg (lit "2024-05-01T00:00:00Z") init).2
  = inr {[ lit "vidA1"; lit "vidB1" ]}
  /\ exists ch it its items e,
       ch ∈ CHANNEL_IDS Sample.cfg
       /\ api Sample.w (ChannelsList ch) = inr (it :: its)
       /\ uploads it <> []
       /\ api Sample.w (PlaylistItemsList (uploads it)
                          (Z.min (MAX_PER_CHANNEL Sample.cfg) 50)) = inr items
       /\ e ∈ items /\ videoId e = lit "vidB1"
       /\ kept (lit "2024-05-01T00:00:00Z") e = true.
Proof.
  assert (H : (collect_ids Sample.w Sample.cfg (lit "2024-05-01T00:00:00Z")
                 init).2 = inr {[ lit "vidA1"; lit "vidB1" ]}).
  { vm_compute. reflexivity. }
  split; [exact H|].
  apply (X3_collected_ids Sample.w Sample.cfg _ init _ H (lit "vidB1")).
  set_solver.
Defined.

(** ** Every identifier is asked for once *)

Section Once.

Context {py : PyLib} (w : world) (cfg : config).
Context (after : Z).
Hypothesis Hafter : minus_hours (clock w 0) (HOURS_WINDOW cfg) = Some after.

Local Abbreviation cutoff := (to_iso_z after).

Lemma chunked_elem {A} (l : list A) (n : nat) (x : A) :
  x ∈ l <-> exists c, c ∈ chunked l (S n) /\ x ∈ c.
Proof.
  rewrite <- (concat_chunked l n) at 1.
  rewrite list_elem_of_In, in_concat. split.
  - intros (c & Hc & Hx). exists c. split; apply list_elem_of_In; assumption.
  - intros (c & Hc & Hx). exists c. split; apply list_elem_of_In; assumption.
Qed.

Lemma chunked_NoDup {A} (l : list A) (n : nat) :
  NoDup l -> Forall NoDup (chunked l (S n)).
Proof.
  intros Hnd. apply Forall_forall. intros c Hc.
  apply list_elem_of_lookup in Hc as [i Hi].
  apply chunked_lookup in Hi. subst c.
  eapply sublist_NoDup; [exact Hnd|].
  etransitivity; [apply sublist_take|apply sublist_drop].
Qed.

Lemma run_fetches (run : state * (exn + ())) (all_ids : gset str) :
  run = news_main w cfg init \/ run = minutes_main w cfg init ->
  (collect_ids w cfg cutoff init).2 = inr all_ids ->
  exists k,
    gets (log run.1)
    = gets (log (collect_ids w cfg cutoff init).1)
      ++ map videos_request (take k (chunked (elements all_ids) 50))
    /\ ((exists p, posts (log run.1) = [p]) ->
        k = length (chunked (elements all_ids) 50)).
Proof.
  intros Hrun. rewrite (collect_ids_run w cfg after init).
  cbn [fst snd log init app]. rewrite gets_gets.
  assert (Hcase :
    match loop_ids w cfg cutoff (CHANNEL_IDS cfg) with
    | inl e => True
    | inr lists =>
        (log run.1 = map EvGet (loop_requests w cfg cutoff (CHANNEL_IDS cfg))
         /\ accumulate lists = ∅)
        \/ (exists p, log run.1
                      = map EvGet (loop_requests w cfg cutoff (CHANNEL_IDS cfg))
                        ++ [EvPost p]
                      /\ accumulate lists = ∅)
        \/ (log run.1
            = map EvGet (loop_requests w cfg cutoff (CHANNEL_IDS cfg)
                         ++ batch_requests w
                              (chunked (elements (accumulate lists)) 50)))
        \/ (exists p metas,
              log run.1
              = map EvGet (loop_requests w cfg cutoff (CHANNEL_IDS cfg)
                           ++ batch_requests w
                                (chunked (elements (accumulate lists)) 50))
                ++ [EvPost p]
              /\ batch_answers w (chunked (elements (accumulate lists)) 50)
                 = inr metas)
    end).
  { destruct Hrun as [-> | ->].
    - pose proof (news_main_run w cfg after Hafter) as H.
      destruct (loop_ids w cfg cutoff (CHANNEL_IDS cfg)) as [e|lists]; [exact I|].
      cbv zeta in H. destruct (decide (accumulate lists = ∅)) as [Hs|Hs].
      { left. rewrite H. split; [reflexivity|exact Hs]. }
      destruct (batch_answers w _) as [e|metas] eqn:Eb.
      { right; right; left. rewrite H. reflexivity. }
      destruct H as [(e & _ & H)|[blocks H]]; rewrite H.
      + right; right; left. reflexivity.
      + right; right; right. eexists _, metas. split; reflexivity.
    - pose proof (minutes_main_run w cfg after Hafter) as H.
      destruct (loop_ids w cfg cutoff (CHANNEL_IDS cfg)) as [e|lists]; [exact I|].
      cbv zeta in H. destruct (decide (accumulate lists = ∅)) as [Hs|Hs].
      { destruct H as [text H]. right; left. eexists. rewrite H.
        split; [reflexivity|exact Hs]. }
      destruct (batch_answers w _) as [e|metas] eqn:Eb.
      { right; right; left. rewrite H. reflexivity. }
      destruct H as [(e & _ & H)|[text H]]; rewrite H.
      + right; right; left. reflexivity.
      + right; right; right. eexists _, metas. split; reflexivity. }
  destruct (loop_ids w cfg cutoff (CHANNEL_IDS cfg)) as [e|lists];
    [discriminate|].
  intros [= <-].
  destruct Hcase as [[Hl Hs]|[(p & Hl & Hs)|[Hl|(p & metas & Hl & Hb)]]];
    rewrite Hl.
  - exists 0. rewrite gets_gets, app_nil_r. split; [reflexivity|].
    intros [q Hq]. rewrite posts_gets in Hq. discriminate.
  - exists 0. rewrite gets_requests_post, app_nil_r. split; [reflexivity|].
    intros _. rewrite Hs, elements_empty. reflexivity.
  - destruct (batch_requests_prefix w (chunked (elements (accumulate lists)) 50))
      as [k Hk].
    exists k. rewrite gets_gets, Hk. split; [reflexivity|].
    intros [q Hq]. rewrite posts_gets in Hq. discriminate.
  - exists (length (chunked (elements (accumulate lists)) 50)).
    rewrite gets_requests_post, firstn_all.
    rewrite (proj1 (batch_requests_ok w _ _ Hb)). split; reflexivity.
Qed.

(** X4. In a run of either script that has computed its cutoff, every
    collected identifier is asked for once: the identifiers handed to [fetch_videos_meta] are the elements of
    the set, each of them is in exactly one batch and stands there once,
    and the metadata requests of the run are the requests for these
    batches, in order, all of them if the run gets as far as posting. *)
Theorem X4_each_id_fetched_once (all_ids : gset str) :
  (collect_ids w cfg cutoff init).2 = inr all_ids ->
  let batches := chunked (elements all_ids) 50 in
  (forall x, x ∈ all_ids <-> exists b, b ∈ batches /\ x ∈ b)
  /\ (forall i j bi bj x,
        batches !! i = Some bi -> batches !! j = Some bj ->
        x ∈ bi -> x ∈ bj -> i = j)
  /\ Forall NoDup batches
  /\ (forall run,
        run = news_main w cfg init \/ run = minutes_main w cfg init ->
        exists k,
          gets (log run.1)
          = gets (log (collect_ids w cfg cutoff init).1)
            ++ map videos_request (take k batches)
          /\ ((exists p, posts (log run.1) = [p]) -> k = length batches)).
Proof.
  intros Hc batches. subst batches. repeat split.
  - intros Hx. apply (chunked_elem _ 49), elem_of_elements, Hx.
  - intros Hx. apply elem_of_elements, (chunked_elem _ 49), Hx.
  - intros i j bi bj x. apply chunked_disjoint, NoDup_elements.
  - apply chunked_NoDup, NoDup_elements.
  - intros run Hrun. apply (run_fetches run all_ids Hrun Hc).
Qed.

End Once.

(** X4, witness: the run of [yt_news.py] in the sample world asks once for
    the two videos it found. *)
Lemma X4_each_id_fetched_once_witness :
  let cutoff := to_iso_z (py := Sample.py) 1714521600000000 in
  minus_hours (clock Sample.w 0) (HOURS_WINDOW Sample.cfg)
  = Some 1714521600000000%Z
  /\ (collect_ids Sample.w Sample.cfg cutoff init).2
     = inr {[ lit "vidA1"; lit "vidB1" ]}
  /\ length (chunked (elements ({[ lit "vidA1"; lit "vidB1" ]} : gset str)) 50)
     = 1
  /\ exists k,
       gets (log (news_main (py := Sample.py) Sample.w Sample.cfg init).1)
       = gets (log (collect_ids Sample.w Sample.cfg cutoff init).1)
         ++ map videos_request
              (take k (chunked
                         (elements ({[ lit "vidA1"; lit "vidB1" ]} : gset str))
                         50))
       /\ k = 1.
Proof.
  intros cutoff.
  assert (Ha : minus_hours (clock Sample.w 0) (HOURS_WINDOW Sample.cfg)
               = Some 1714521600000000%Z) by reflexivity.
  assert (H : (collect_ids Sample.w Sample.cfg cutoff init).2
              = inr {[ lit "vidA1"; lit "vidB1" ]}) by (vm_compute; reflexivity).
  split; [exact Ha|]. split; [exact H|]. split; [vm_compute; reflexivity|].
  destruct (X4_each_id_fetched_once (py := Sample.py) Sample.w Sample.cfg
              _ Ha _ H)
    as (_ & _ & _ & Hrun).
  destruct (Hrun _ (or_introl eq_refl)) as (k & Hg & Hk).
  exists k. split; [exact Hg|]. rewrite Hk; [vm_compute; reflexivity|].
  eexists. vm_compute. reflexivity.
Defined.

(** ** Cutting a text to a length *)

(** X5. [trim] of [yt_news.py] normalizes whitespace exactly as
    [normalize_text] of [yt_minutes.py] does: the text is returned
    normalized if that has at most [n] characters, and otherwise cut to its
    first [n] characters with the ellipsis appended, [n + 1] characters in
    all. The result never begins with whitespace, and its only whitespace
    characters are single spaces, so it has no line break. *)
Theorem X5_trim_normalizes (s : str) (n : Z) :
  (0 <= n)%Z ->
  join [SPACE] (split_ws s) = normalize_text s
  /\ ((Z.of_nat (length (normalize_text s)) <= n)%Z ->
      trim s n = normalize_text s)
  /\ ((n < Z.of_nat (length (normalize_text s)))%Z ->
      trim s n = take (Z.to_nat n) (normalize_text s) ++ [ELLIPSIS]
      /\ Z.of_nat (length (trim s n)) = (n + 1)%Z)
  /\ (forall c, head (trim s n) = Some c -> isspace c = false)
  /\ (forall c, c ∈ trim s n -> isspace c = true -> c = SPACE)
  /\ (forall i c d, trim s n !! i = Some c -> trim s n !! S i = Some d ->
                    isspace c = true -> isspace d = false).
Proof.
  intros Hn. pose proof (normalize_text_normal s) as Hnorm.
  unfold normal in Hnorm. apply andb_true_iff in Hnorm as [Hhead Hsp].
  assert (Etrim : trim s n =
            if (n <? Z.of_nat (length (normalize_text s)))%Z
            then take (Z.to_nat n) (normalize_text s) ++ [ELLIPSIS]
            else normalize_text s).
  { unfold trim, slice_to. rewrite join_split_ws.
    rewrite (proj2 (Z.leb_le 0 n) Hn). reflexivity. }
  split; [apply join_split_ws|].
  split; [intros Hle; rewrite Etrim, (proj2 (Z.ltb_ge _ _) Hle); reflexivity|].
  split.
  { intros Hlt. rewrite Etrim, (proj2 (Z.ltb_lt _ _) Hlt).
    split; [reflexivity|]. rewrite length_app, length_take. simpl. lia. }
  rewrite Etrim. set (t := normalize_text s) in *.
  destruct (n <? Z.of_nat (length t))%Z eqn:Ecut.
  - (* cut: a prefix of the normal form, then the ellipsis *)
    assert (Hpre : forall i c, (take (Z.to_nat n) t ++ [ELLIPSIS]) !! i = Some c ->
                     t !! i = Some c \/ c = ELLIPSIS).
    { intros i c Hi. apply lookup_app_Some in Hi as [Hi|[_ Hi]].
      - left. apply lookup_take_Some in Hi as [Hi _]. exact Hi.
      - right. apply list_lookup_singleton_Some in Hi as [_ <-]. reflexivity. }
    repeat split.
    + intros c Hc. rewrite head_lookup in Hc.
      destruct (Hpre 0 c Hc) as [H0| ->]; [|reflexivity].
      destruct t as [|c' t']; [discriminate|]. injection H0 as ->.
      apply negb_true_iff, Hhead.
    + intros c Hc Hw. apply list_elem_of_lookup in Hc as [i Hi].
      destruct (Hpre i c Hi) as [H0| ->]; [|discriminate].
      eapply normal_spaces; [exact Hsp| |exact Hw].
      eapply list_elem_of_lookup_2, H0.
    + intros i c d Hi Hj Hw.
      destruct (Hpre i c Hi) as [H0| ->]; [|discriminate].
      destruct (Hpre (S i) d Hj) as [H1| ->]; [|reflexivity].
      apply (spaced_adjacent t i c d Hsp H0 H1 Hw).
  - repeat split.
    + intros c Hc. destruct t as [|c' t']; [discriminate|]. injection Hc as ->.
      apply negb_true_iff, Hhead.
    + intros c Hc Hw. apply (normal_spaces t c Hsp Hc Hw).
    + intros i c d. apply spaced_adjacent, Hsp.
Qed.

(** X5, witness: a description with a line break and doubled spaces, cut
    at 12 characters. *)
Lemma X5_trim_normalizes_witness :
  (0 <= 12)%Z
  /\ trim (lit "  New  model" ++ [LF] ++ lit "released today ") 12
     = lit "New model re" ++ [ELLIPSIS]
  /\ trim (lit "  New  model" ++ [LF]) 12 = lit "New model".
Proof.
  assert (Hn : (0 <= 12)%Z) by lia.
  split; [exact Hn|].
  destruct (X5_trim_normalizes
              (lit "  New  model" ++ [LF] ++ lit "released today ") 12 Hn)
    as (_ & _ & Hcut & _).
  destruct (X5_trim_normalizes (lit "  New  model" ++ [LF]) 12 Hn)
    as (_ & Hshort & _).
  split.
  - destruct Hcut as [-> _]; [vm_compute; reflexivity|vm_compute; reflexivity].
  - rewrite Hshort; [vm_compute; reflexivity|vm_compute; discriminate].
Defined.

(** ** What a bullet is made of *)

Lemma re_split_go_pieces (cls : N -> bool) (in_run : bool) (s piece : str) (c : N) :
  piece ∈ re_split_go cls in_run s -> c ∈ piece -> cls c = false /\ c ∈ s.
Proof.
  revert in_run piece. induction s as [|d s IH]; intros in_run piece Hp Hc.
  - cbn [re_split_go] in Hp. apply list_elem_of_singleton in Hp. subst piece.
    inversion Hc.
  - cbn [re_split_go] in Hp. destruct (cls d) eqn:Hd.
    + assert (Hrec : piece ∈ re_split_go cls true s \/ piece = []).
      { destruct in_run; [left; exact Hp|].
        apply elem_of_cons in Hp as [->|Hp]; [right; reflexivity|left; exact Hp]. }
      destruct Hrec as [Hrec| ->]; [|inversion Hc].
      destruct (IH true piece Hrec Hc) as [H1 H2]. split; [exact H1|right; exact H2].
    + destruct (re_split_go cls false s) as [|f fs] eqn:E.
      * apply list_elem_of_singleton in Hp. subst piece.
        apply list_elem_of_singleton in Hc. subst c. split; [exact Hd|left].
      * assert (Hin : piece = d :: f /\ (c = d \/ c ∈ f) \/ piece ∈ fs).
        { apply elem_of_cons in Hp as [->|Hp]; [left|right; exact Hp].
          split; [reflexivity|]. apply elem_of_cons in Hc. exact Hc. }
        destruct Hin as [[-> [->|Hf]]|Hp'].
        -- split; [exact Hd|left].
        -- assert (Hm : f ∈ re_split_go cls false s) by (rewrite E; left).
           destruct (IH false f Hm Hf) as [H1 H2].
           split; [exact H1|right; exact H2].
        -- assert (Hm : piece ∈ re_split_go cls false s)
             by (rewrite E; right; exact Hp').
           destruct (IH false piece Hm Hc) as [H1 H2].
           split; [exact H1|right; exact H2].
Qed.

Lemma lstrip_elem (p : N -> bool) (s : str) (c : N) : c ∈ lstrip p s -> c ∈ s.
Proof.
  induction s as [|d s IH]; [intros H; exact H|]. cbn [lstrip].
  destruct (p d); [intros H; right; apply IH, H|intros H; exact H].
Qed.

Lemma rstrip_elem (p : N -> bool) (s : str) (c : N) : c ∈ rstrip p s -> c ∈ s.
Proof.
  induction s as [|d s IH]; [intros H; exact H|]. cbn [rstrip].
  destruct (rstrip p s) as [|e r].
  - destruct (p d); [intros H; inversion H|].
    intros H. apply list_elem_of_singleton in H. subst c. left.
  - intros H. apply elem_of_cons in H as [->|H]; [left|right; apply IH, H].
Qed.

Lemma re_sub_elem (s : str) (c : N) :
  c ∈ re_sub isspace [SPACE] s -> c = SPACE \/ (c ∈ s /\ isspace c = false).
Proof.
  induction s as [|d s IH]; [intros H; inversion H|]. rewrite re_sub_cons.
  destruct (isspace d) eqn:Hd.
  - destruct s as [|e s].
    + intros H. apply list_elem_of_singleton in H. left. exact H.
    + destruct (isspace e).
      * intros H. destruct (IH H) as [->|[H1 H2]]; [left; reflexivity|].
        right. split; [right; exact H1|exact H2].
      * intros H. apply elem_of_cons in H as [->|H]; [left; reflexivity|].
        destruct (IH H) as [->|[H1 H2]]; [left; reflexivity|].
        right. split; [right; exact H1|exact H2].
  - intros H. apply elem_of_cons in H as [->|H].
    + right. split; [left|exact Hd].
    + destruct (IH H) as [->|[H1 H2]]; [left; reflexivity|].
      right. split; [right; exact H1|exact H2].
Qed.

Lemma normalize_text_elem (s : str) (c : N) :
  c ∈ normalize_text s -> c = SPACE \/ (c ∈ s /\ isspace c = false).
Proof.
  unfold normalize_text, strip. intros H.
  destruct (re_sub_elem _ c H) as [->|[H1 H2]]; [left; reflexivity|].
  right. split; [|exact H2]. eapply lstrip_elem, rstrip_elem, H1.
Qed.

Lemma scan_fragments_pieces (desc raw : str) (c : N) :
  raw ∈ scan_fragments desc -> c ∈ raw -> sentence_delims c = false.
Proof.
  unfold scan_fragments. intros Hraw Hc.
  apply list_elem_of_In, in_concat in Hraw as (pieces & Hp & Hraw).
  apply in_map_iff in Hp as (line & <- & _).
  apply list_elem_of_In in Hraw.
  apply (re_split_go_pieces _ _ _ _ _ Hraw Hc).
Qed.

Lemma bullet_chars (desc : str) (max_items : Z) (f : str) (c : N) :
  f ∈ bullets_from_description desc max_items -> c ∈ f ->
  sentence_delims c = false /\ (isspace c = true -> c = SPACE).
Proof.
  intros Hf Hc. apply bullets_elem in Hf as (_ & raw & Hraw & ->).
  destruct (normalize_text_elem raw c Hc) as [->|[H1 H2]].
  - split; reflexivity.
  - split; [apply (scan_fragments_pieces desc raw c Hraw H1)|].
    rewrite H2. discriminate.
Qed.

(** X6. A bullet of [bullets_from_description] is a single line of plain
    words: it has none of the sentence delimiters of the pattern, and its
    only whitespace characters are spaces, so there is no line break,
    carriage return or tab in it. *)
Theorem X6_bullets_are_single_lines (desc : str) (max_items : Z) (f : str) (c : N) :
  f ∈ bullets_from_description desc max_items ->
  c ∈ f ->
  sentence_delims c = false
  /\ (isspace c = true -> c = SPACE)
  /\ c <> LF /\ c <> CR /\ c <> TAB
  /\ c <> 46%N /\ c <> 45%N /\ c <> 12290%N.
Proof.
  intros Hf Hc. destruct (bullet_chars desc max_items f c Hf Hc) as [Hd Hw].
  split; [exact Hd|]. split; [exact Hw|].
  repeat split; intros ->; try discriminate Hd;
    specialize (Hw eq_refl); discriminate Hw.
Qed.

(** X6, witness: the bullet of a line that has a tab, a dash and a full
    stop. *)
Lemma X6_bullets_are_single_lines_witness :
  bullets_from_description
    (lit "- Release" ++ [TAB] ++ lit "notes - and a demo." ++ [CR; LF]) 3
  = [lit "Release notes"; lit "and a demo"]
  /\ sentence_delims 32 = false.
Proof.
  assert (Hb : bullets_from_description
                 (lit "- Release" ++ [TAB] ++ lit "notes - and a demo."
                  ++ [CR; LF]) 3
               = [lit "Release notes"; lit "and a demo"])
    by (vm_compute; reflexivity).
  split; [exact Hb|].
  apply (X6_bullets_are_single_lines
           (lit "- Release" ++ [TAB] ++ lit "notes - and a demo." ++ [CR; LF])
           3 (lit "Release notes") 32).
  - rewrite Hb. left.
  - vm_compute. do 7 right. left.
Defined.

(** ** The summary lines of an entry *)

Lemma take_elem {A} (l : list A) (n : nat) (x : A) : x ∈ take n l -> x ∈ l.
Proof.
  intros H. apply elem_of_take in H as (i & Hi & _).
  eapply list_elem_of_lookup_2, Hi.
Qed.

(** X7. The summary of an entry in [yt_minutes.py] always has one to three
    lines, none of which contains a line break. It is the placeholder
    exactly when the description is missing or empty; otherwise it is the
    bullets of the description when there are any, and else one line, the
    first 100 characters of the normalized description followed by the
    ellipsis, which is appended even when nothing was cut. *)
Theorem X7_summary_lines (it : video) :
  let summary := minutes_bullets it in
  1 <= length summary <= 3
  /\ (summary = [NO_DESCRIPTION] <->
      description it = None \/ description it = Some [])
  /\ (forall desc,
        description it = Some desc -> desc <> [] ->
        (bullets_from_description desc 3 <> []
         /\ summary = bullets_from_description desc 3)
        \/ (bullets_from_description desc 3 = []
            /\ summary = [take 100 (normalize_text desc) ++ [ELLIPSIS]]
            /\ length (take 100 (normalize_text desc) ++ [ELLIPSIS]) <= 101))
  /\ Forall (fun line => forall c, c ∈ line -> c <> LF /\ c <> CR) summary.
Proof.
  assert (Hnd : forall c, c ∈ NO_DESCRIPTION -> c <> LF /\ c <> CR).
  { intros c H. vm_compute in H.
    repeat (apply elem_of_cons in H as [->|H]; [split; discriminate|]).
    inversion H. }
  intros summary. subst summary. unfold minutes_bullets.
  destruct (description it) as [[|c0 desc]|] eqn:Ed;
    cbn [default from_option truthy]; unfold id.
  - (* empty *)
    change (truthy []) with false. cbv iota.
    split; [cbn [length]; lia|]. split; [split; auto|].
    split; [intros desc' [= <-] H; congruence|].
    constructor; [exact Hnd|constructor].
  - change (truthy (c0 :: desc)) with true. cbv iota.
    set (d := c0 :: desc).
    destruct (bullets_from_description d 3) as [|b bs] eqn:Eb.
    + (* one line cut from the description *)
      unfold slice_to. change (0 <=? 100)%Z with true. cbv iota.
      change (Z.to_nat 100) with 100.
      assert (Hlen : length (take 100 (normalize_text d) ++ [ELLIPSIS]) <= 101).
      { rewrite length_app, length_take. cbn [length]. lia. }
      split; [cbn [length]; lia|]. split; [split|].
      * intros [= H]. exfalso.
        change NO_DESCRIPTION
          with ([65288; 35500; 26126; 12394; 12375]%N ++ [65289%N]) in H.
        apply app_inj_tail in H as [_ H]. discriminate H.
      * intros [H|H]; discriminate H.
      * split.
        -- intros desc' [= <-] _. right. split; [exact Eb|].
           split; [reflexivity|exact Hlen].
        -- constructor; [|constructor]. intros c Hc.
           apply elem_of_app in Hc as [Hc|Hc].
           ++ apply take_elem, normalize_text_elem in Hc as [->|[_ Hw]].
              ** split; discriminate.
              ** split; intros ->; discriminate Hw.
           ++ apply list_elem_of_singleton in Hc. subst c. split; discriminate.
    + (* the bullets *)
      assert (Hlen : length (b :: bs) <= 3).
      { rewrite <- Eb, bullets_scan. unfold slice_to.
        change (0 <=? 3)%Z with true. cbv iota.
        change (Z.to_nat 3) with 3. rewrite length_take. lia. }
      split; [cbn [length] in *; lia|]. split; [split|].
      * intros H. exfalso.
        assert (Hin : NO_DESCRIPTION ∈ bullets_from_description d 3)
          by (rewrite Eb, H; left).
        apply bullets_elem in Hin as [Hin _]. vm_compute in Hin. lia.
      * intros [H|H]; discriminate H.
      * split.
        -- intros desc' [= <-] _. left. rewrite Eb.
           split; [discriminate|reflexivity].
        -- apply Forall_forall. intros f Hf c Hc. rewrite <- Eb in Hf.
           destruct (bullet_chars d 3 f c Hf Hc) as [_ Hw].
           split; intros ->; specialize (Hw eq_refl); discriminate Hw.
  - (* missing *)
    change (truthy []) with false. cbv iota.
    split; [cbn [length]; lia|]. split; [split; auto|].
    split; [intros desc' H; discriminate H|].
    constructor; [exact Hnd|constructor].
Qed.

(** ** The window of the recency filter *)

Lemma filter_sublist_impl {A} (p q : A -> bool) (l : list A) :
  (forall x, p x = true -> q x = true) ->
  sublist (List.filter p l) (List.filter q l).
Proof.
  intros Himp. induction l as [|x l IH]; simpl; [constructor|].
  destruct (p x) eqn:Hp.
  - rewrite (Himp x Hp). apply sublist_skip, IH.
  - destruct (q x); [apply sublist_cons, IH|exact IH].
Qed.

Lemma filter_sublist {A} (p : A -> bool) (l : list A) :
  sublist (List.filter p l) l.
Proof.
  induction l as [|x l IH]; simpl; [constructor|].
  destruct (p x); [apply sublist_skip, IH|apply sublist_cons, IH].
Qed.

Lemma map_sublist {A B} (f : A -> B) (l1 l2 : list A) :
  sublist l1 l2 -> sublist (map f l1) (map f l2).
Proof.
  induction 1; simpl; [constructor|apply sublist_skip|apply sublist_cons];
    assumption.
Qed.

Lemma kept_monotone (c1 c2 : str) (it : playlist_item) :
  str_ge c2 c1 = true -> kept c2 it = true -> kept c1 it = true.
Proof.
  intros Hc. unfold kept. destruct (videoPublishedAt it) as [p|]; [|auto].
  rewrite !andb_true_iff. intros [Ht Hp]. split; [exact Ht|].
  apply (str_ge_trans p c2 c1 Hp Hc).
Qed.

(** X8. Widening the window never loses a video: for two cutoffs, the
    later one keeps a sub-sequence of what the earlier one keeps, and both
    keep the identifiers in the order of the feed. With the empty string as
    cutoff every entry with a non-empty timestamp is kept; an entry without
    timestamp, or with the empty one, is kept by no cutoff. *)
Theorem X8_window_monotone (items : list playlist_item) (earlier later : str) :
  str_ge later earlier = true ->
  sublist (recent_ids items later) (recent_ids items earlier)
  /\ sublist (recent_ids items earlier) (map videoId items)
  /\ length (recent_ids items later) <= length (recent_ids items earlier)
     <= length items
  /\ recent_ids items []
     = map videoId
         (List.filter (fun it => truthy_opt (videoPublishedAt it)) items)
  /\ (forall cutoff,
        Forall (fun it => truthy_opt (videoPublishedAt it) = false) items ->
        recent_ids items cutoff = []).
Proof.
  intros Hc. rewrite !recent_ids_kept.
  assert (H1 : sublist (map videoId (List.filter (kept later) items))
                 (map videoId (List.filter (kept earlier) items))).
  { apply map_sublist, filter_sublist_impl. intros it.
    apply (kept_monotone earlier later it Hc). }
  assert (H2 : sublist (map videoId (List.filter (kept earlier) items))
                 (map videoId items)).
  { apply map_sublist, filter_sublist. }
  split; [exact H1|]. split; [exact H2|]. split; [|split].
  - apply sublist_length in H1, H2. rewrite !length_map in *. lia.
  - f_equal. apply List.filter_ext. intros it. unfold kept.
    destruct (videoPublishedAt it) as [p|]; simpl; [|reflexivity].
    rewrite str_ge_nil_r, andb_true_r. reflexivity.
  - intros cutoff Hall. rewrite recent_ids_kept.
    replace (List.filter (kept cutoff) items) with (@nil playlist_item);
      [reflexivity|].
    symmetry. apply filter_nil_iff. intros it Hit.
    rewrite Forall_forall in Hall. specialize (Hall it Hit).
    unfold kept. destruct (videoPublishedAt it) as [p|]; [|reflexivity].
    simpl in Hall. rewrite Hall. reflexivity.
Qed.

(** X8, witness: a feed of three entries under two cutoffs. *)
Lemma X8_window_monotone_witness :
  let items := [ {| videoId := lit "a"; videoPublishedAt := Some (lit "2024-05-03") |};
                 {| videoId := lit "b"; videoPublishedAt := None |};
                 {| videoId := lit "c"; videoPublishedAt := Some (lit "2024-05-01") |} ] in
  recent_ids items (lit "2024-05-02") = [lit "a"]
  /\ recent_ids items (lit "2024-04-30") = [lit "a"; lit "c"]
  /\ sublist (recent_ids items (lit "2024-05-02"))
       (recent_ids items (lit "2024-04-30")).
Proof.
  intros items. split; [vm_compute; reflexivity|].
  split; [vm_compute; reflexivity|].
  apply (X8_window_monotone items (lit "2024-04-30") (lit "2024-05-02")).
  vm_compute. reflexivity.
Defined.

(** ** Repeated tags *)

Lemma filter_drop_one {A} (p : A -> bool) (a b : list A) (x : A) :
  p x = false -> List.filter p (a ++ x :: b) = List.filter p (a ++ b).
Proof.
  intros H. rewrite !List.filter_app. simpl. rewrite H. reflexivity.
Qed.

Lemma filter_keep_one {A} (p : A -> bool) (l : list A) (x : A) :
  p x = true -> List.filter p (x :: l) = x :: List.filter p l.
Proof. intros H. simpl. rewrite H. reflexivity. Qed.

Lemma tags_of_labels (labels : list str) :
  NoDup labels ->
  NoDup (match take 5 labels with [] => [GENERAL_TOPIC] | t => t end).
Proof.
  intros H. destruct (take 5 labels) as [|t ts] eqn:E.
  - apply NoDup_singleton.
  - rewrite <- E. eapply sublist_NoDup; [exact H|apply sublist_take].
Qed.

(** X9. The keywords [vision] and [video] carry the same label, and both
    stand among the first three of the table: the tag list of [make_tags]
    has a repeated tag exactly when both occur in the scanned text. *)
Theorem X9_repeated_tag {py : PyLib} (title desc : str) :
  let text := lower (title ++ [LF] ++ desc) in
  NoDup (make_tags title desc) <->
  ~ (contains (lit "vision") text = true /\ contains (lit "video") text = true).
Proof.
  intros text. rewrite make_tags_take. fold text. unfold matching_labels.
  set (p := fun kv : str * str => contains (fst kv) text).
  set (L := [30011; 20687; 47; 21205; 30011]%N).
  assert (Hk : KEYWORDS
               = take 1 KEYWORDS
                 ++ (lit "vision", L) :: (lit "video", L) :: drop 3 KEYWORDS)
    by reflexivity.
  split.
  - intros Hnd [Hvi Hvd]. rewrite Hk in Hnd.
    rewrite List.filter_app, map_app in Hnd.
    rewrite (filter_keep_one p _ (lit "vision", L) Hvi) in Hnd.
    rewrite (filter_keep_one p _ (lit "video", L) Hvd) in Hnd.
    pose proof (sublist_length _ _ (filter_sublist p (take 1 KEYWORDS))) as Hpre.
    change (length (take 1 KEYWORDS)) with 1 in Hpre.
    destruct (List.filter p (take 1 KEYWORDS)) as [|a [|b r]];
      cbn [map snd app take length] in Hnd, Hpre; [| |lia].
    + apply NoDup_cons in Hnd as [Hnd _]. apply Hnd. left.
    + apply NoDup_cons in Hnd as [_ Hnd]. apply NoDup_cons in Hnd as [Hnd _].
      apply Hnd. left.
  - intros Hnot. apply tags_of_labels.
    destruct (contains (lit "vision") text) eqn:Hvi.
    + destruct (contains (lit "video") text) eqn:Hvd;
        [exfalso; apply Hnot; split; reflexivity|].
      change KEYWORDS
        with ((take 1 KEYWORDS ++ [(lit "vision", L)])
              ++ (lit "video", L) :: drop 3 KEYWORDS).
      rewrite (filter_drop_one p _ _ (lit "video", L) Hvd).
      eapply sublist_NoDup;
        [|apply map_sublist, filter_sublist].
      apply (bool_decide_unpack _). vm_compute. exact I.
    + rewrite Hk. rewrite (filter_drop_one p _ _ (lit "vision", L) Hvi).
      eapply sublist_NoDup;
        [|apply map_sublist, filter_sublist].
      apply (bool_decide_unpack _). vm_compute. exact I.
Qed.

(** ** Comma-separated lists *)

Lemma split_on_pieces (sep : N) (s piece : str) :
  piece ∈ split_on sep s -> sep ∉ piece.
Proof.
  revert piece. induction s as [|c s IH]; intros piece Hp.
  - apply list_elem_of_singleton in Hp. subst piece. intros H. inversion H.
  - cbn [split_on] in Hp. destruct (N.eqb_spec c sep) as [->|Hne].
    + apply elem_of_cons in Hp as [->|Hp]; [intros H; inversion H|].
      apply IH, Hp.
    + destruct (split_on sep s) as [|f fs].
      * apply list_elem_of_singleton in Hp. subst piece.
        intros H. apply list_elem_of_singleton in H. congruence.
      * apply elem_of_cons in Hp as [->|Hp].
        -- intros H. apply elem_of_cons in H as [H|H]; [congruence|].
           apply (IH f); [left|exact H].
        -- apply IH. right. exact Hp.
Qed.

Lemma split_on_length (sep : N) (s : str) :
  length (split_on sep s) = S (length (List.filter (N.eqb sep) s)).
Proof.
  induction s as [|c s IH]; [reflexivity|]. cbn [split_on List.filter].
  rewrite (N.eqb_sym sep c). destruct (N.eqb c sep).
  - cbn [length]. rewrite IH. reflexivity.
  - destruct (split_on sep s) as [|f fs]; [discriminate IH|].
    cbn [length] in *. exact IH.
Qed.

Lemma split_on_whole (sep : N) (a : str) : sep ∉ a -> split_on sep a = [a].
Proof.
  induction a as [|c a IH]; intros H; [reflexivity|].
  cbn [split_on]. destruct (N.eqb_spec c sep) as [->|Hne].
  - exfalso. apply H. left.
  - rewrite IH; [reflexivity|]. intros Hin. apply H. right. exact Hin.
Qed.

Lemma split_on_app (sep : N) (a rest : str) :
  sep ∉ a -> split_on sep (a ++ sep :: rest) = a :: split_on sep rest.
Proof.
  induction a as [|c a IH]; intros H.
  - cbn [app split_on]. rewrite N.eqb_refl. reflexivity.
  - cbn [app split_on]. destruct (N.eqb_spec c sep) as [->|Hne].
    + exfalso. apply H. left.
    + rewrite IH; [reflexivity|]. intros Hin. apply H. right. exact Hin.
Qed.

(** Splitting a joined list of separator-free strings gives the list back. *)
Lemma split_on_join (sep : N) (l : list str) :
  l <> [] -> Forall (fun a => sep ∉ a) l -> split_on sep (join [sep] l) = l.
Proof.
  induction l as [|a l IH]; [congruence|]. intros _ Hall.
  apply Forall_cons in Hall as [Ha Hall]. destruct l as [|b l].
  - cbn [join]. apply split_on_whole, Ha.
  - change (join [sep] (a :: b :: l)) with (a ++ sep :: join [sep] (b :: l)).
    rewrite (split_on_app sep a _ Ha), IH; [reflexivity|discriminate|exact Hall].
Qed.

Lemma strip_elem (p : N -> bool) (s : str) (c : N) : c ∈ strip p s -> c ∈ s.
Proof. unfold strip. intros H. eapply lstrip_elem, rstrip_elem, H. Qed.

Lemma strip_fixed (c : str) :
  (forall d, head c = Some d -> isspace d = false) ->
  (forall d, last c = Some d -> isspace d = false) ->
  strip isspace c = c.
Proof.
  intros Hh Hl. unfold strip. destruct c as [|d c]; [reflexivity|].
  rewrite (lstrip_id isspace d c (Hh d eq_refl)).
  apply rstrip_id.
  assert (Hlast : forall s : str,
             (forall e, last s = Some e -> isspace e = false) ->
             clean_end isspace s = true).
  { clear. induction s as [|e s IH]; [reflexivity|]. intros H.
    destruct s as [|f s].
    - simpl. rewrite (H e eq_refl). reflexivity.
    - change (clean_end isspace (e :: f :: s)) with (clean_end isspace (f :: s)).
      apply IH. intros g Hg. apply H. exact Hg. }
  apply Hlast, Hl.
Qed.

(** X10. The identifiers parsed from the value of [CHANNEL_IDS]: none is
    empty, none has a comma, none begins or ends with whitespace, and there
    are at most as many as commas plus one. Entries that are empty or
    blank are dropped, so an empty or blank value gives no channel at all.
    Writing a list of such identifiers with commas and parsing it gives the
    list back. *)
Theorem X10_channel_ids_parsing :
  (forall value,
     Forall (fun c => c <> [] /\ (44%N ∉ c)
                      /\ (forall d, head c = Some d -> isspace d = false)
                      /\ (forall d, last c = Some d -> isspace d = false))
       (parse_channel_ids value)
     /\ length (parse_channel_ids value)
        <= S (length (List.filter (N.eqb 44) value)))
  /\ (forall value, Forall (fun d => isspace d = true) value ->
                    parse_channel_ids value = [])
  /\ (forall ids,
        Forall (fun c => c <> [] /\ (44%N ∉ c)
                         /\ (forall d, head c = Some d -> isspace d = false)
                         /\ (forall d, last c = Some d -> isspace d = false))
          ids ->
        parse_channel_ids (join [44%N] ids) = ids).
Proof.
  split; [|split].
  - intros value. unfold parse_channel_ids. split.
    + apply Forall_forall. intros c Hc.
      apply list_elem_of_In, in_map_iff in Hc as (raw & <- & Hraw).
      apply filter_In in Hraw as [Hraw Ht]. apply list_elem_of_In in Hraw.
      destruct (strip_ends raw) as [Hh Hl].
      split; [apply truthy_nonempty, Ht|]. split.
      * intros Hin. apply (split_on_pieces 44 value raw Hraw).
        apply (strip_elem isspace raw 44 Hin).
      * split.
        -- intros d Hd. destruct (strip isspace raw) as [|e r]; [discriminate|].
           injection Hd as <-. exact Hh.
        -- intros d Hd. apply (clean_end_last isspace _ d Hl Hd).
    + rewrite length_map, <- split_on_length.
      apply sublist_length, filter_sublist.
  - intros value Hws. unfold parse_channel_ids.
    replace (List.filter (fun c => truthy (strip isspace c)) (split_on 44 value))
      with (@nil str); [reflexivity|].
    symmetry. apply filter_nil_iff. intros raw Hraw.
    assert (Hall : Forall (fun d => isspace d = true) raw).
    { clear -Hws Hraw. revert raw Hraw.
      induction Hws as [|c s Hc Hs IH]; intros raw Hraw.
      - apply list_elem_of_singleton in Hraw. subst raw. constructor.
      - cbn [split_on] in Hraw. destruct (N.eqb c 44).
        + apply elem_of_cons in Hraw as [->|Hraw]; [constructor|apply IH, Hraw].
        + destruct (split_on 44 s) as [|f fs] eqn:E.
          * apply list_elem_of_singleton in Hraw. subst raw.
            constructor; [exact Hc|constructor].
          * apply elem_of_cons in Hraw as [->|Hraw].
            -- constructor; [exact Hc|]. apply IH. left.
            -- apply IH. right. exact Hraw. }
    assert (Hl : lstrip isspace raw = []).
    { clear -Hall. induction Hall as [|d r Hd Hr IH]; [reflexivity|].
      cbn [lstrip]. rewrite Hd. exact IH. }
    unfold strip. rewrite Hl. reflexivity.
  - intros ids Hall. unfold parse_channel_ids.
    destruct ids as [|a ids]; [reflexivity|].
    rewrite split_on_join; [|discriminate|].
    + assert (Hf : List.filter (fun c => truthy (strip isspace c)) (a :: ids)
                   = a :: ids).
      { apply forallb_filter_id, forallb_forall. intros c Hc.
        apply list_elem_of_In in Hc. rewrite Forall_forall in Hall.
        destruct (Hall c Hc) as (Hne & _ & Hh & Hl).
        rewrite (strip_fixed c Hh Hl). apply truthy_nonempty, Hne. }
      rewrite Hf. rewrite <- (map_id (a :: ids)) at 2.
      apply map_ext_in. intros c Hc. apply list_elem_of_In in Hc.
      rewrite Forall_forall in Hall.
      destruct (Hall c Hc) as (_ & _ & Hh & Hl). apply (strip_fixed c Hh Hl).
    + eapply Forall_impl; [exact Hall|]. intros c (_ & H & _). exact H.
Qed.

(** X11. The [id] parameter of a metadata request names its batch: when
    no identifier has a comma, splitting the parameter at the commas gives
    the batch back, so two different batches are never asked for with the
    same request. *)
Theorem X11_batch_parameter_decodes (ids : list str) (n : nat) :
  Forall (fun x => 44%N ∉ x) ids ->
  Forall (fun b => split_on 44 (join (lit ",") b) = b
                   /\ videos_request b = VideosList (join (lit ",") b))
    (chunked ids (S n))
  /\ (forall b1 b2,
        b1 ∈ chunked ids (S n) -> b2 ∈ chunked ids (S n) ->
        videos_request b1 = videos_request b2 -> b1 = b2).
Proof.
  intros Hall.
  assert (Hdec : forall b, b ∈ chunked ids (S n) ->
                           split_on 44 (join (lit ",") b) = b).
  { intros b Hb. apply (split_on_join 44 b).
    - pose proof (chunked_sizes ids n) as Hs. rewrite Forall_forall in Hs.
      specialize (Hs b Hb). intros ->. simpl in Hs. lia.
    - apply Forall_forall. intros x Hx. rewrite Forall_forall in Hall.
      apply Hall, (chunked_elem ids n x). exists b. split; assumption. }
  split.
  - apply Forall_forall. intros b Hb. split; [apply Hdec, Hb|reflexivity].
  - intros b1 b2 H1 H2 Heq. unfold videos_request in Heq.
    injection Heq as Heq. rewrite <- (Hdec b1 H1), <- (Hdec b2 H2), Heq.
    reflexivity.
Qed.

(** X11, witness: three identifiers in batches of two. *)
Lemma X11_batch_parameter_decodes_witness :
  chunked [lit "a1"; lit "b2"; lit "c3"] 2 = [[lit "a1"; lit "b2"]; [lit "c3"]]
  /\ Forall (fun b => split_on 44 (join (lit ",") b) = b
                      /\ videos_request b = VideosList (join (lit ",") b))
       (chunked [lit "a1"; lit "b2"; lit "c3"] 2).
Proof.
  split; [vm_compute; reflexivity|].
  apply (X11_batch_parameter_decodes [lit "a1"; lit "b2"; lit "c3"] 1).
  repeat constructor; intros H; vm_compute in H;
    repeat (apply elem_of_cons in H as [H|H]; [discriminate H|]);
    inversion H.
Defined.

(** ** A digest is rendered whole or not at all *)

Section Rendering.

Context {py : PyLib} (w : world) (cfg : config).

Lemma shown_result (iso_z : str) :
  shown iso_z <-> exists pub, jst_result iso_z = inr pub.
Proof.
  unfold shown, jst_result. split.
  - intros (dt & -> & ->). eexists. reflexivity.
  - intros [pub H]. destruct (fromisoformat _) as [dt|]; [|discriminate].
    exists dt. split; [reflexivity|]. unfold astimezone in *.
    destruct (in_datetime_range dt && _); [reflexivity|discriminate].
Qed.

Lemma shown_readable (iso_z : str) : shown iso_z -> readable iso_z.
Proof. intros (dt & H & _). exists dt. exact H. Qed.

Lemma first_unshown_none (l : list str) :
  first_unshown l = None <-> Forall shown l.
Proof.
  induction l as [|iso_z l IH]; cbn [first_unshown].
  - split; constructor.
  - rewrite Forall_cons, shown_result, <- IH.
    destruct (jst_result iso_z) as [e|pub].
    + split; [discriminate|]. intros [[pub H] _]. discriminate.
    + split; [intros H; split; [exists pub; reflexivity|exact H]|].
      intros [_ H]. exact H.
Qed.

Lemma first_unshown_raises (l : list str) (e : exn) :
  first_unshown l = Some e -> e = ValueError \/ e = OverflowError.
Proof.
  induction l as [|iso_z l IH]; cbn [first_unshown]; [discriminate|].
  destruct (jst_result iso_z) as [e'|pub] eqn:E; [|exact IH].
  intros [= <-]. apply (jst_result_raises iso_z), E.
Qed.

Lemma concat_length_bounds {B} (lo hi : nat) (pieces : list (list B)) :
  Forall (fun bs => lo <= length bs <= hi) pieces ->
  lo * length pieces <= length (concat pieces) <= hi * length pieces.
Proof.
  induction 1 as [|bs pieces Hbs _ IH]; cbn [concat length]; [lia|].
  rewrite length_app, !Nat.mul_succ_r. lia.
Qed.

(** A loop that appends, for each element in turn, what [f] makes of it,
    [f] failing or not as [to_jst_str] does on the timestamp of the
    element: it stops at the first timestamp that cannot be shown, and
    else returns what it started with followed by the pieces of the
    elements in the order of the list. *)
Lemma render_loop {A B} (f : A -> M (list B))
    (body : A -> list B -> M (list B)) (key : A -> str) (lo hi : nat)
    (l : list A) :
  (forall x acc st, body x acc st = (bs ← f x; mret (acc ++ bs)) st) ->
  (forall x pub, jst_result (key x) = inr pub ->
     exists bs, (forall st, f x st = (st, inr bs)) /\ lo <= length bs <= hi) ->
  (forall x e st, jst_result (key x) = inl e -> f x st = (st, inl e)) ->
  forall acc st,
    match first_unshown (map key l) with
    | Some e => for_each l body acc st = (st, inl e)
    | None =>
        exists pieces,
          Forall2 (fun x bs => forall st', f x st' = (st', inr bs)) l pieces
          /\ Forall (fun bs => lo <= length bs <= hi) pieces
          /\ for_each l body acc st = (st, inr (acc ++ concat pieces))
    end.
Proof.
  intros Hbody Hok Hbad. induction l as [|x l IH]; intros acc st;
    cbn [map first_unshown].
  - exists []. split; [constructor|]. split; [constructor|].
    cbn [concat]. rewrite app_nil_r. reflexivity.
  - rewrite for_each_cons, Hbody, bind_run.
    destruct (jst_result (key x)) as [e|pub] eqn:E.
    + rewrite (Hbad x e st E). reflexivity.
    + destruct (Hok x pub E) as (bs & Hf & Hlen). rewrite Hf.
      change ((mret (acc ++ bs) : M (list B)) st)
        with (st, inr (A:=exn) (acc ++ bs)).
      cbv beta iota. specialize (IH (acc ++ bs) st).
      destruct (first_unshown (map key l)); [exact IH|].
      destruct IH as (pieces & Hall & Hl & Hrun). exists (bs :: pieces).
      split; [constructor; assumption|]. split; [constructor; assumption|].
      rewrite Hrun. cbn [concat]. rewrite app_assoc. reflexivity.
Qed.

Lemma minutes_bullets_length (it : video) :
  1 <= length (minutes_bullets it) <= 3.
Proof.
  unfold minutes_bullets.
  destruct (truthy (default [] (description it))); [|cbn [length]; lia].
  destruct (bullets_from_description _ 3) as [|b bs] eqn:Eb;
    [cbn [length]; lia|].
  rewrite <- Eb, bullets_scan. unfold slice_to.
  change (0 <=? 3)%Z with true. cbv iota. change (Z.to_nat 3) with 3.
  rewrite length_take.
  assert (Hne : length (bullets_from_description
                          (default [] (description it)) 3) <> 0)
    by (rewrite Eb; discriminate).
  rewrite bullets_scan in Hne. unfold slice_to in Hne.
  change (0 <=? 3)%Z with true in Hne. cbv iota in Hne.
  change (Z.to_nat 3) with 3 in Hne. rewrite length_take in Hne. lia.
Qed.

Lemma news_item_blocks_result (it : video) :
  match jst_result (publishedAt it) with
  | inl e => forall st, news_item_blocks it st = (st, inl e)
  | inr _ =>
      exists bs, (forall st, news_item_blocks it st = (st, inr bs))
                 /\ 3 <= length bs <= 3
  end.
Proof.
  unfold news_item_blocks.
  pose proof (to_jst_str_run (publishedAt it)) as H.
  destruct (jst_result (publishedAt it)) as [e|pub].
  - intros st. rewrite bind_run, (sends_nil _ _ st H). reflexivity.
  - eexists. split.
    + intros st. rewrite bind_run, (sends_nil _ _ st H). reflexivity.
    + cbn [length]. lia.
Qed.

Lemma minutes_item_lines_result (idx : nat) (it : video) :
  match jst_result (publishedAt it) with
  | inl e => forall st, minutes_item_lines idx it st = (st, inl e)
  | inr _ =>
      exists ls, (forall st, minutes_item_lines idx it st = (st, inr ls))
                 /\ 9 <= length ls <= 11
  end.
Proof.
  unfold minutes_item_lines.
  pose proof (to_jst_str_run (publishedAt it)) as H.
  destruct (jst_result (publishedAt it)) as [e|pub].
  - intros st. rewrite bind_run, (sends_nil _ _ st H). reflexivity.
  - eexists. split.
    + intros st. rewrite bind_run, (sends_nil _ _ st H). reflexivity.
    + pose proof (minutes_bullets_length it) as Hb.
      cbn [length app]. rewrite length_app, length_map. cbn [length]. lia.
Qed.

Lemma map_numbered {A B} (g : A -> B) (l : list A) (start : nat) :
  map (fun p : nat * A => g p.2) (combine (seq start (length l)) l) = map g l.
Proof.
  revert start. induction l as [|x l IH]; intros start; [reflexivity|].
  cbn [length seq combine map]. rewrite IH. reflexivity.
Qed.

Lemma news_blocks_run (metas : list video) (st : state) :
  match first_unshown (map publishedAt metas) with
  | Some e =>
      for_each metas
        (fun it blocks => bs ← news_item_blocks it; mret (blocks ++ bs))
        [news_header cfg] st
      = (st, inl e)
  | None =>
      exists pieces,
        Forall2 (fun it bs => forall st', news_item_blocks it st' = (st', inr bs))
          metas pieces
        /\ length (concat pieces) = 3 * length metas
        /\ for_each metas
             (fun it blocks => bs ← news_item_blocks it; mret (blocks ++ bs))
             [news_header cfg] st
           = (st, inr (news_header cfg :: concat pieces))
  end.
Proof.
  pose proof (render_loop news_item_blocks
                (fun it blocks => bs ← news_item_blocks it; mret (blocks ++ bs))
                publishedAt 3 3 metas) as H.
  specialize (H ltac:(reflexivity)).
  assert (Hok : forall (x : video) (pub : str),
             jst_result (publishedAt x) = inr pub ->
             exists bs, (forall st, news_item_blocks x st = (st, inr bs))
                        /\ 3 <= length bs <= 3).
  { intros x pub E. pose proof (news_item_blocks_result x) as Hx.
    rewrite E in Hx. exact Hx. }
  assert (Hbad : forall (x : video) (e : exn) (st : state),
             jst_result (publishedAt x) = inl e ->
             news_item_blocks x st = (st, inl e)).
  { intros x e st' E. pose proof (news_item_blocks_result x) as Hx.
    rewrite E in Hx. apply Hx. }
  specialize (H Hok Hbad [news_header cfg] st).
  destruct (first_unshown (map publishedAt metas)); [exact H|].
  destruct H as (pieces & Hall & Hl & Hrun). exists pieces.
  split; [exact Hall|]. split; [|exact Hrun].
  apply concat_length_bounds in Hl. apply Forall2_length in Hall. lia.
Qed.

Lemma build_minutes_text_run (metas : list video) (st : state) :
  match first_unshown (map publishedAt metas) with
  | Some e =>
      build_minutes_text w metas st = (State (log st) (S (ticks st)), inl e)
  | None =>
      exists pieces,
        Forall2 (fun (p : nat * video) ls =>
                   forall st', minutes_item_lines p.1 p.2 st' = (st', inr ls))
          (combine (seq 1 (length metas)) metas) pieces
        /\ 9 * length metas <= length (concat pieces) <= 11 * length metas
        /\ build_minutes_text w metas st
           = (State (log st) (S (ticks st)),
              inr (join [LF]
                     (minutes_head (clock w (ticks st)) ++ concat pieces)))
  end.
Proof.
  set (clock_read := State (log st) (S (ticks st))).
  pose proof (render_loop
                (fun p : nat * video => minutes_item_lines p.1 p.2)
                (fun '(idx, it) lines =>
                   ls ← minutes_item_lines idx it; mret (lines ++ ls))
                (fun p : nat * video => publishedAt p.2) 9 11
                (combine (seq 1 (length metas)) metas)) as H.
  specialize (H ltac:(intros [idx it] acc s; reflexivity)).
  assert (Hok : forall (x : nat * video) (pub : str),
             jst_result (publishedAt x.2) = inr pub ->
             exists ls,
               (forall st, minutes_item_lines x.1 x.2 st = (st, inr ls))
               /\ 9 <= length ls <= 11).
  { intros x pub E. pose proof (minutes_item_lines_result x.1 x.2) as Hx.
    rewrite E in Hx. exact Hx. }
  assert (Hbad : forall (x : nat * video) (e : exn) (st : state),
             jst_result (publishedAt x.2) = inl e ->
             minutes_item_lines x.1 x.2 st = (st, inl e)).
  { intros x e st' E. pose proof (minutes_item_lines_result x.1 x.2) as Hx.
    rewrite E in Hx. apply Hx. }
  specialize (H Hok Hbad (minutes_head (clock w (ticks st))) clock_read).
  rewrite (map_numbered publishedAt) in H.
  assert (Hrun : build_minutes_text w metas st
                 = match for_each (combine (seq 1 (length metas)) metas)
                           (fun '(idx, it) lines =>
                              ls ← minutes_item_lines idx it;
                              mret (lines ++ ls))
                           (minutes_head (clock w (ticks st))) clock_read with
                   | (st', inr lines) => (st', inr (join [LF] lines))
                   | (st', inl e) => (st', inl e)
                   end).
  { unfold build_minutes_text. rewrite bind_run. cbn [now].
    rewrite bind_run. fold clock_read.
    change [ [128196; 32; 65; 73; 12488; 12524; 12531; 12489; 31038;
              20869; 22577; 65288]%N
             ++ strftime (lit "%Y-%m-%d") JST (clock w (ticks st))
             ++ [65289]%N;
             @nil N ]
      with (minutes_head (clock w (ticks st))).
    destruct (for_each _ _ (minutes_head (clock w (ticks st))) clock_read)
      as [s' [e|lines]]; reflexivity. }
  destruct (first_unshown (map publishedAt metas)).
  - rewrite Hrun, H. reflexivity.
  - destruct H as (pieces & Hall & Hl & Hfor). exists pieces.
    split; [exact Hall|]. split; [|rewrite Hrun, Hfor; reflexivity].
    apply concat_length_bounds in Hl. apply Forall2_length in Hall.
    rewrite length_combine, length_seq in Hall. lia.
Qed.

(** X12. A digest is rendered whole or not at all, and what decides is
    whether [to_jst_str] can show every [publishedAt]: read it, and move
    the instant read to UTC+9 without leaving the range of [datetime]. If
    it can, the loop of [yt_news.py] gives the header and three blocks per
    video, and [build_minutes_text] gives two heading lines and nine to
    eleven lines per video, joined by line feeds. If not, both raise, with
    nothing rendered, the exception of the first timestamp that cannot be
    shown, whatever the other videos are: [ValueError] for a timestamp
    that cannot be read, [OverflowError] for one that can be read and
    cannot be moved. Neither sends anything, and only
    [build_minutes_text] reads the clock, once. *)
Theorem X12_digest_whole_or_none (metas : list video) (st : state) :
  let news_blocks :=
    for_each metas
      (fun it blocks => bs ← news_item_blocks it; mret (blocks ++ bs))
      [news_header cfg] in
  let clock_read := State (log st) (S (ticks st)) in
  (Forall (fun it => shown (publishedAt it)) metas ->
   (exists blocks,
      news_blocks st = (st, inr blocks)
      /\ head blocks = Some (news_header cfg)
      /\ length blocks = 1 + 3 * length metas)
   /\ (exists lines,
         build_minutes_text w metas st = (clock_read, inr (join [LF] lines))
         /\ 2 + 9 * length metas <= length lines <= 2 + 11 * length metas))
  /\ (~ Forall (fun it => shown (publishedAt it)) metas ->
      exists e,
        first_unshown (map publishedAt metas) = Some e
        /\ (e = ValueError \/ e = OverflowError)
        /\ news_blocks st = (st, inl e)
        /\ build_minutes_text w metas st = (clock_read, inl e))
  /\ (forall iso_z, ~ readable iso_z -> jst_result iso_z = inl ValueError)
  /\ (forall iso_z, readable iso_z -> ~ shown iso_z ->
                    jst_result iso_z = inl OverflowError)
  /\ (forall iso_z, shown iso_z ->
        exists dt,
          fromisoformat (replace (lit "Z") (lit "+00:00") iso_z) = Some dt
          /\ in_datetime_range (dt + 9 * 3600000000) = true
          /\ jst_result iso_z = inr (strftime (lit "%Y-%m-%d %H:%M") JST dt)).
Proof.
  intros news_blocks clock_read. subst news_blocks clock_read.
  pose proof (news_blocks_run metas st) as Hn.
  pose proof (build_minutes_text_run metas st) as Hm.
  pose proof (first_unshown_none (map publishedAt metas)) as Hnone.
  rewrite Forall_map in Hnone.
  split; [|split; [|split; [|split]]].
  - intros Hall. apply Hnone in Hall. rewrite Hall in Hn, Hm. split.
    + destruct Hn as (pieces & _ & Hl & Hrun). eexists.
      split; [exact Hrun|]. split; [reflexivity|]. cbn [length]. lia.
    + destruct Hm as (pieces & _ & Hl & Hrun). eexists.
      split; [exact Hrun|]. rewrite length_app. cbn [minutes_head length]. lia.
  - intros Hnot.
    destruct (first_unshown (map publishedAt metas)) as [e|] eqn:E.
    + exists e. split; [reflexivity|].
      split; [apply (first_unshown_raises _ _ E)|]. split; assumption.
    + exfalso. apply Hnot, Hnone. reflexivity.
  - intros iso_z Hr. unfold readable, jst_result in *.
    destruct (fromisoformat _) as [dt|]; [|reflexivity].
    exfalso. apply Hr. eexists. reflexivity.
  - intros iso_z [dt Hr] Hs. unfold shown, jst_result in *. rewrite Hr in *.
    destruct (astimezone JST dt) as [dt'|] eqn:E; [|reflexivity].
    exfalso. apply Hs. exists dt. split; [reflexivity|].
    unfold astimezone in *.
    destruct (in_datetime_range dt && _); [reflexivity|discriminate].
  - intros iso_z (dt & Hr & Hs). exists dt. split; [exact Hr|].
    unfold jst_result. rewrite Hr, Hs. split; [|reflexivity].
    unfold astimezone in Hs.
    destruct (in_datetime_range dt && in_datetime_range (dt + JST * 3600000000))
      eqn:E; [|discriminate].
    apply andb_true_iff in E as [_ E]. exact E.
Qed.

End Rendering.

(** ** The tag lines *)

Lemma labels_nonempty {py : PyLib} (title desc : str) :
  Forall (fun t => t <> []) (make_tags title desc).
Proof.
  rewrite make_tags_take.
  assert (H : Forall (fun t : str => t <> [])
                (matching_labels (lower (title ++ [LF] ++ desc)))).
  { apply Forall_forall. intros v Hv.
    apply matching_labels_elem in Hv as (k & Hk & _).
    assert (Hall : Forall (fun kv : str * str => kv.2 <> []) KEYWORDS)
      by (repeat constructor; discriminate).
    rewrite Forall_forall in Hall. apply (Hall (k, v) Hk). }
  destruct (take 5 _) as [|t ts] eqn:E.
  - repeat constructor. discriminate.
  - rewrite <- E. apply Forall_take, H.
Qed.

Lemma make_tags_cons {py : PyLib} (title desc : str) :
  exists t ts, make_tags title desc = t :: ts /\ t <> [] /\ length ts <= 4.
Proof.
  pose proof (labels_nonempty title desc) as Hne.
  assert (Hlen : length (make_tags title desc) <= 5).
  { rewrite make_tags_take. destruct (take 5 _) as [|t ts] eqn:E.
    - cbn [length]. lia.
    - rewrite <- E, length_take. lia. }
  destruct (make_tags title desc) as [|t ts] eqn:E.
  - exfalso. rewrite make_tags_take in E.
    destruct (take 5 _); discriminate E.
  - apply Forall_cons in Hne as [Ht _]. exists t, ts.
    split; [reflexivity|]. split; [exact Ht|]. cbn [length] in Hlen. lia.
Qed.

(** X13. A tag line is never empty. In [yt_minutes.py] the text of the
    tags starts with [#], so the placeholder written for an empty text is
    never used; in [yt_news.py] the text after the label emoji starts with
    the first tag. Either script shows between one and five tags, none of
    them empty. *)
Theorem X13_tag_lines_never_empty {py : PyLib} (it : video) :
  let minutes_text :=
    join [SPACE] (map (fun t => lit "#" ++ t) (minutes_tags it)) in
  let news_text := join (lit ", ") (news_tags it) in
  (exists rest, minutes_text = 35%N :: rest)
  /\ (if truthy minutes_text then minutes_text else NO_TAGS) = minutes_text
  /\ (exists t rest, head (news_tags it) = Some t /\ news_text = t ++ rest)
  /\ news_text <> []
  /\ 1 <= length (minutes_tags it) <= 5
  /\ 1 <= length (news_tags it) <= 5
  /\ Forall (fun t => t <> []) (minutes_tags it)
  /\ Forall (fun t => t <> []) (news_tags it).
Proof.
  intros minutes_text news_text. subst minutes_text news_text.
  unfold minutes_tags, news_tags.
  destruct (make_tags_cons (default (lit "(no title)") (title it))
              (default [] (description it))) as (t & ts & Em & Ht & Hl).
  destruct (make_tags_cons (news_title it) (news_desc it))
    as (u & us & En & Hu & Hk).
  pose proof (labels_nonempty (default (lit "(no title)") (title it))
                (default [] (description it))) as Hm.
  pose proof (labels_nonempty (news_title it) (news_desc it)) as Hn.
  rewrite Em, En in *.
  assert (Hj : exists rest,
             join [SPACE] (map (fun t => lit "#" ++ t) (t :: ts)) = 35%N :: rest).
  { destruct ts as [|t' ts]; cbn [map join]; eexists; reflexivity. }
  destruct Hj as [rest Hj]. rewrite Hj. cbn [truthy].
  split; [exists rest; reflexivity|]. split; [reflexivity|].
  split.
  { exists u. destruct us as [|u' us]; cbn [join head].
    - exists []. rewrite app_nil_r. split; reflexivity.
    - eexists. split; reflexivity. }
  split.
  - destruct u as [|c u]; [congruence|].
    destruct us as [|u' us]; cbn [join]; discriminate.
  - cbn [length]. repeat split; try lia; assumption.
Qed.

(** ** Writing a cutoff and reading it back *)

Lemma replace_go_skip (old new : str) (k : nat) (s : str) :
  replace_go old new k s = replace_go old new 0 (drop k s).
Proof.
  revert k. induction s as [|c s IH]; intros k.
  - destruct k; reflexivity.
  - destruct k as [|k]; [reflexivity|]. cbn [replace_go drop]. apply IH.
Qed.

Lemma startswith_app (p s : str) : startswith p (p ++ s) = true.
Proof. apply startswith_spec. exists s. reflexivity. Qed.

Lemma replace_go_match (old new rest : str) :
  old <> [] ->
  replace_go old new 0 (old ++ rest) = new ++ replace_go old new 0 rest.
Proof.
  intros Hne. destruct old as [|c old]; [congruence|].
  change ((c :: old) ++ rest) with (c :: (old ++ rest)).
  cbn [replace_go].
  change (c :: (old ++ rest)) with ((c :: old) ++ rest).
  rewrite startswith_app.
  replace (length (c :: old) - 1) with (length old) by (cbn [length]; lia).
  rewrite replace_go_skip, drop_app_length. reflexivity.
Qed.

Lemma replace_go_pass (old new : str) (c : N) (s : str) :
  startswith old (c :: s) = false ->
  replace_go old new 0 (c :: s) = c :: replace_go old new 0 s.
Proof. intros H. cbn [replace_go]. rewrite H. reflexivity. Qed.

(** Writing [new] for [old] and then [old] for the one character [z] gives
    the text back, when [new] is that one character and the text has none. *)
Lemma replace_back (old : str) (z : N) (s : str) :
  old <> [] -> z ∉ s ->
  replace [z] old (replace old [z] s) = s.
Proof.
  intros Hold.
  assert (Hpos : 0 < length old) by (destruct old; [congruence|cbn; lia]).
  assert (H : forall n (t : str), length t <= n -> z ∉ t ->
              replace_go [z] old 0 (replace_go old [z] 0 t) = t).
  { induction n as [|n IH]; intros t Hlen Hz.
    - destruct t; [reflexivity|cbn [length] in Hlen; lia].
    - destruct t as [|c t]; [reflexivity|].
      destruct (startswith old (c :: t)) eqn:Es.
      + apply startswith_spec in Es as [rest Es]. rewrite Es.
        rewrite (replace_go_match old [z] rest Hold).
        rewrite (replace_go_match [z] old _ ltac:(discriminate)).
        rewrite IH; [reflexivity| |].
        * assert (Hl : length (c :: t) = length old + length rest)
            by (rewrite Es, length_app; reflexivity).
          cbn [length] in Hlen, Hl. lia.
        * intros Hin. apply Hz. rewrite Es. apply elem_of_app. right.
          exact Hin.
      + rewrite (replace_go_pass old [z] c t Es).
        rewrite (replace_go_pass [z] old c _).
        * rewrite IH; [reflexivity|cbn [length] in Hlen; lia|].
          intros Hin. apply Hz. right. exact Hin.
        * cbn [startswith]. destruct (N.eqb_spec z c) as [->|Hne];
            [|reflexivity].
          exfalso. apply Hz. left. }
  intros Hz. unfold replace. destruct old as [|o r]; [congruence|].
  apply (H (length s) s (le_n _) Hz).
Qed.

(** X14. A cutoff written by [to_iso_z] reads back: if the ISO text of an
    instant has no capital [Z] of its own, replacing the offset by [Z] and
    [Z] by the offset gives that text again. So [to_jst_str] of the cutoff
    raises [ValueError] when [fromisoformat] cannot read the ISO text,
    raises [OverflowError] when the instant it reads, or that instant nine
    hours later, is out of the range of [datetime], and is the local time
    of the instant read otherwise. *)
Theorem X14_cutoff_reads_back {py : PyLib} (dt : Z) (st : state) :
  90%N ∉ isoformat_seconds_utc dt ->
  replace (lit "Z") (lit "+00:00") (to_iso_z dt) = isoformat_seconds_utc dt
  /\ to_jst_str (to_iso_z dt) st
     = (st, match fromisoformat (isoformat_seconds_utc dt) with
            | Some dt' =>
                if in_datetime_range dt'
                   && in_datetime_range (dt' + 9 * 3600000000)
                then inr (strftime (lit "%Y-%m-%d %H:%M") JST dt')
                else inl OverflowError
            | None => inl ValueError
            end).
Proof.
  intros Hz.
  assert (Hback : replace (lit "Z") (lit "+00:00") (to_iso_z dt)
                  = isoformat_seconds_utc dt).
  { unfold to_iso_z.
    apply (replace_back (lit "+00:00") 90 _ ltac:(discriminate) Hz). }
  split; [exact Hback|].
  unfold to_jst_str. rewrite Hback.
  destruct (fromisoformat _) as [dt'|]; [|reflexivity].
  rewrite bind_run. unfold astimezone.
  change (JST * 3600000000)%Z with (9 * 3600000000)%Z.
  destruct (in_datetime_range dt' && in_datetime_range (dt' + 9 * 3600000000));
    reflexivity.
Qed.

(** X14, witness: the first reading of the sample clock. *)
Lemma X14_cutoff_reads_back_witness :
  to_iso_z (py := Sample.py) (clock Sample.w 0) = lit "2024-05-02T00:00:00Z"
  /\ to_jst_str (py := Sample.py)
       (to_iso_z (py := Sample.py) (clock Sample.w 0)) init
     = (init, inr (lit "2024-05-02 09:00")).
Proof.
  split; [vm_compute; reflexivity|].
  destruct (X14_cutoff_reads_back (py := Sample.py) (clock Sample.w 0) init)
    as [_ H].
  - apply (bool_decide_unpack _). vm_compute. exact I.
  - rewrite H. vm_compute. reflexivity.
Defined.

(** ** Only the last batch can be short *)

(** X15. [chunked] fills its chunks: for a positive size every chunk but
    the last has exactly [size] elements, and the last has what is left,
    between one and [size]; for size 0 it yields nothing at all, whatever
    the input. *)
Theorem X15_only_last_chunk_short {A} (l : list A) (size : nat) :
  (size = 0 -> chunked l size = [])
  /\ (forall i c,
        chunked l size !! i = Some c -> S i < length (chunked l size) ->
        length c = size)
  /\ (forall c,
        last (chunked l size) = Some c ->
        length c = length l - size * (length (chunked l size) - 1)
        /\ 1 <= length c <= size).
Proof.
  destruct size as [|n].
  - assert (H0 : chunked l 0 = []) by (destruct l; simp chunked; reflexivity).
    rewrite H0. split; [reflexivity|]. split.
    + intros i c H. discriminate H.
    + intros c H. discriminate H.
  - pose proof (chunked_length l n) as Hlen.
    pose proof (Nat.div_mod_eq (length l + n) (S n)) as Hdiv.
    pose proof (Nat.mod_upper_bound (length l + n) (S n)) as Hmod.
    set (k := (length l + n) / S n) in *.
    set (r := (length l + n) mod S n) in *.
    split; [discriminate|]. split.
    + intros i c Hi Hlt. apply chunked_lookup in Hi. subst c.
      rewrite length_take, length_drop, Hlen in *. nia.
    + intros c Hc. rewrite last_lookup in Hc.
      assert (Hk : 0 < length (chunked l (S n))).
      { destruct (chunked l (S n)); [discriminate Hc|cbn [length]; lia]. }
      apply chunked_lookup in Hc. subst c.
      rewrite length_take, length_drop, Hlen in *.
      replace (Init.Nat.pred k) with (k - 1) by lia. nia.
Qed.

(** ** Sorting what is sorted *)

Lemma insert_desc_front {A} (key : A -> str) (x : A) (l : list A) :
  Forall (before key x) l -> insert_desc key x l = x :: l.
Proof.
  intros H. destruct l as [|y l]; [reflexivity|].
  apply Forall_cons in H as [Hy _]. unfold before in Hy.
  cbn [insert_desc]. rewrite str_ge_lt in Hy.
  apply negb_true_iff in Hy. rewrite Hy. reflexivity.
Qed.

Lemma sort_desc_sorted_id {A} (key : A -> str) (l : list A) :
  StronglySorted (before key) l -> sort_desc key l = l.
Proof.
  induction 1 as [|x l Hs IH Hx]; [reflexivity|].
  cbn [sort_desc]. rewrite IH. apply insert_desc_front, Hx.
Qed.

(** X16. The sort leaves a list alone that is newest first already, so
    sorting twice is sorting once; in particular the videos of an answer
    that came sorted keep their order, ties included. *)
Theorem X16_sorted_input_unchanged {A} (key : A -> str) (l : list A) :
  (StronglySorted (before key) l -> sort_desc key l = l)
  /\ sort_desc key (sort_desc key l) = sort_desc key l
  /\ (sort_desc key l = l -> StronglySorted (before key) l).
Proof.
  split; [apply sort_desc_sorted_id|]. split.
  - apply sort_desc_sorted_id, sort_desc_sorted.
  - intros <-. apply sort_desc_sorted.
Qed.

(** ** Missing, empty and blank descriptions *)

Lemma lstrip_all (p : N -> bool) (s : str) :
  Forall (fun c => p c = true) s -> lstrip p s = [].
Proof.
  induction 1 as [|c s Hc Hs IH]; [reflexivity|].
  cbn [lstrip]. rewrite Hc. exact IH.
Qed.

Lemma normalize_text_blank (s : str) :
  Forall (fun c => isspace c = true) s -> normalize_text s = [].
Proof.
  intros H. unfold normalize_text, strip. rewrite (lstrip_all isspace s H).
  reflexivity.
Qed.

Lemma split_on_sub (sep : N) (s piece : str) (c : N) :
  piece ∈ split_on sep s -> c ∈ piece -> c ∈ s.
Proof.
  revert piece. induction s as [|d s IH]; intros piece Hp Hc.
  - apply list_elem_of_singleton in Hp. subst piece. inversion Hc.
  - cbn [split_on] in Hp. destruct (N.eqb d sep).
    + apply elem_of_cons in Hp as [->|Hp]; [inversion Hc|].
      right. apply (IH piece Hp Hc).
    + destruct (split_on sep s) as [|f fs].
      * apply list_elem_of_singleton in Hp. subst piece.
        apply list_elem_of_singleton in Hc. subst c. left.
      * assert (Hin : piece = d :: f /\ (c = d \/ c ∈ f) \/ piece ∈ fs).
        { apply elem_of_cons in Hp as [->|Hp]; [left|right; exact Hp].
          split; [reflexivity|]. apply elem_of_cons in Hc. exact Hc. }
        destruct Hin as [[-> [->|Hf]]|Hp']; [left| |].
        -- right. apply (IH f); [left|exact Hf].
        -- right. apply (IH piece); [right; exact Hp'|exact Hc].
Qed.

Lemma replace_go_delete_sub (old : str) (k : nat) (s : str) (c : N) :
  c ∈ replace_go old [] k s -> c ∈ s.
Proof.
  revert k. induction s as [|d s IH]; intros k H; [inversion H|].
  cbn [replace_go] in H. destruct k as [|k].
  - destruct (startswith old (d :: s)).
    + right. apply (IH _ H).
    + apply elem_of_cons in H as [->|H]; [left|right; apply (IH _ H)].
  - right. apply (IH _ H).
Qed.

Lemma scan_fragments_sub (desc raw : str) (c : N) :
  raw ∈ scan_fragments desc -> c ∈ raw -> c ∈ desc.
Proof.
  unfold scan_fragments. intros Hraw Hc.
  apply list_elem_of_In, in_concat in Hraw as (pieces & Hp & Hraw).
  apply in_map_iff in Hp as (line & <- & Hline).
  apply filter_In in Hline as [Hline _].
  apply in_map_iff in Hline as (l0 & <- & Hl0).
  apply list_elem_of_In in Hraw, Hl0.
  destruct (re_split_go_pieces _ _ _ _ _ Hraw Hc) as [_ Hin].
  apply strip_elem in Hin. apply (split_on_sub _ _ _ _ Hl0) in Hin.
  apply (replace_go_delete_sub [CR] 0 desc c Hin).
Qed.

Lemma bullets_blank (desc : str) (max_items : Z) :
  Forall (fun c => isspace c = true) desc ->
  bullets_from_description desc max_items = [].
Proof.
  intros Hws.
  destruct (bullets_from_description desc max_items) as [|f fs] eqn:E;
    [reflexivity|]. exfalso.
  assert (Hf : f ∈ bullets_from_description desc max_items)
    by (rewrite E; left).
  apply bullets_elem in Hf as (Hlen & raw & Hraw & ->).
  rewrite normalize_text_blank in Hlen; [cbn [length] in Hlen; lia|].
  apply Forall_forall. intros c Hc. rewrite Forall_forall in Hws.
  apply Hws, (scan_fragments_sub desc raw c Hraw Hc).
Qed.

(** X17. The two scripts treat a description that is not there
    differently. A missing one gives the placeholder in both. An empty one
    gives the placeholder in [yt_minutes.py] but an empty text in
    [yt_news.py]. A blank one (only whitespace) gives an empty text in
    [yt_news.py] and, in [yt_minutes.py], a summary that is the ellipsis
    alone. *)
Theorem X17_absent_descriptions (it : video) :
  (description it = None ->
   news_desc it = NO_DESCRIPTION /\ minutes_bullets it = [NO_DESCRIPTION])
  /\ (description it = Some [] ->
      news_desc it = [] /\ minutes_bullets it = [NO_DESCRIPTION])
  /\ (forall desc,
        description it = Some desc -> desc <> [] ->
        Forall (fun c => isspace c = true) desc ->
        news_desc it = [] /\ minutes_bullets it = [[ELLIPSIS]]).
Proof.
  unfold news_desc, minutes_bullets. split; [|split].
  - intros ->. split; reflexivity.
  - intros ->. split; reflexivity.
  - intros desc -> Hne Hws. cbn [default from_option]. unfold id. split.
    + unfold trim. rewrite join_split_ws, (normalize_text_blank desc Hws).
      reflexivity.
    + destruct desc as [|c desc]; [congruence|].
      change (truthy (c :: desc)) with true. cbv iota.
      rewrite (bullets_blank _ 3 Hws), (normalize_text_blank _ Hws).
      reflexivity.
Qed.

(** ** What a run posts *)

Section Posted.

Context {py : PyLib} (w : world) (cfg : config).

Local Abbreviation news_text :=
  ([65; 73; 12488; 12524; 12531; 12489; 26032; 30528]%N).
Local Abbreviation stamped := (fun it : video => shown (publishedAt it)).

Lemma stamped_sorted (metas : list video) :
  Forall stamped (sort_desc publishedAt metas) <-> Forall stamped metas.
Proof.
  rewrite (sort_desc_perm publishedAt metas). reflexivity.
Qed.

Lemma all_shown (metas : list video) :
  first_unshown (map publishedAt metas) = None <-> Forall stamped metas.
Proof. rewrite first_unshown_none, Forall_map. reflexivity. Qed.

Section Computed.

Context (after : Z).
Hypothesis Hafter : minus_hours (clock w 0) (HOURS_WINDOW cfg) = Some after.

Local Abbreviation cutoff := (to_iso_z after).
Local Abbreviation listing := (loop_requests w cfg cutoff (CHANNEL_IDS cfg)).

(** The run of [yt_news.py] once the metadata are there: it raises at the
    first timestamp, in the order of the sorted list, that cannot be
    shown, and else posts the header and the blocks of the sorted
    entries. *)
Lemma news_main_digest (lists : list (list str)) (metas : list video) :
  loop_ids w cfg cutoff (CHANNEL_IDS cfg) = inr lists ->
  accumulate lists <> ∅ ->
  batch_answers w (chunked (elements (accumulate lists)) 50) = inr metas ->
  let sorted := sort_desc publishedAt metas in
  let sent :=
    listing ++ batch_requests w (chunked (elements (accumulate lists)) 50) in
  match first_unshown (map publishedAt sorted) with
  | Some e => news_main w cfg init = (State (map EvGet sent) 1, inl e)
  | None =>
      exists pieces,
        Forall2 (fun it bs => forall st, news_item_blocks it st = (st, inr bs))
          sorted pieces
        /\ length (concat pieces) = 3 * length metas
        /\ news_main w cfg init
           = (State (map EvGet sent
                     ++ [EvPost (BlocksPayload news_text
                                   (news_header cfg :: concat pieces))]) 1,
              delivery w (BlocksPayload news_text
                            (news_header cfg :: concat pieces)))
  end.
Proof.
  intros El Hs Eb sorted sent. subst sorted sent.
  pose proof (collect_ids_run w cfg after) as Hc.
  unfold news_main. rewrite bind_run. cbn [now init log ticks].
  rewrite bind_run, Hafter. cbn [or_overflow mret M_ret].
  rewrite bind_run, Hc. cbn [log app]. rewrite El. cbv zeta.
  destruct (decide (accumulate lists = ∅)) as [Hs'|_]; [contradiction|].
  rewrite bind_run, (fetch_videos_meta_run w). cbn [log ticks].
  rewrite <- map_app, Eb. rewrite bind_run.
  match goal with
  | |- context [for_each ?l _ _ ?s] =>
      pose proof (news_blocks_run cfg l s) as H
  end.
  destruct (first_unshown (map publishedAt (sort_desc publishedAt metas))).
  - rewrite H. reflexivity.
  - destruct H as (pieces & Hall & Hl & Hrun). exists pieces.
    split; [exact Hall|].
    rewrite (Permutation_length (sort_desc_perm publishedAt metas)) in Hl.
    split; [exact Hl|]. rewrite Hrun. reflexivity.
Qed.

(** The same for [yt_minutes.py], which reads the clock once more for the
    date of the heading. *)
Lemma minutes_main_digest (lists : list (list str)) (metas : list video) :
  loop_ids w cfg cutoff (CHANNEL_IDS cfg) = inr lists ->
  accumulate lists <> ∅ ->
  batch_answers w (chunked (elements (accumulate lists)) 50) = inr metas ->
  let sorted := sort_desc publishedAt metas in
  let sent :=
    listing ++ batch_requests w (chunked (elements (accumulate lists)) 50) in
  match first_unshown (map publishedAt sorted) with
  | Some e => minutes_main w cfg init = (State (map EvGet sent) 2, inl e)
  | None =>
      exists pieces,
        Forall2 (fun (p : nat * video) ls =>
                   forall st, minutes_item_lines p.1 p.2 st = (st, inr ls))
          (combine (seq 1 (length sorted)) sorted) pieces
        /\ 9 * length metas <= length (concat pieces) <= 11 * length metas
        /\ minutes_main w cfg init
           = (State (map EvGet sent
                     ++ [EvPost (TextPayload
                                   (join [LF] (minutes_head (clock w 1)
                                               ++ concat pieces)))]) 2,
              delivery w (TextPayload
                            (join [LF] (minutes_head (clock w 1)
                                        ++ concat pieces))))
  end.
Proof.
  intros El Hs Eb sorted sent. subst sorted sent.
  pose proof (collect_ids_run w cfg after) as Hc.
  unfold minutes_main. rewrite bind_run. cbn [now init log ticks].
  rewrite bind_run, Hafter. cbn [or_overflow mret M_ret].
  rewrite bind_run, Hc. cbn [log app]. rewrite El. cbv zeta.
  destruct (decide (accumulate lists = ∅)) as [Hs'|_]; [contradiction|].
  rewrite bind_run, (fetch_videos_meta_run w). cbn [log ticks].
  rewrite <- map_app, Eb. rewrite bind_run.
  match goal with
  | |- context [build_minutes_text w ?l ?s] =>
      pose proof (build_minutes_text_run w l s) as H
  end.
  cbn [log ticks] in H.
  destruct (first_unshown (map publishedAt (sort_desc publishedAt metas))).
  - rewrite H. reflexivity.
  - destruct H as (pieces & Hall & Hl & Hrun). exists pieces.
    split; [exact Hall|].
    rewrite (Permutation_length (sort_desc_perm publishedAt metas)) in Hl.
    split; [exact Hl|]. rewrite Hrun. reflexivity.
Qed.

Lemma news_main_posts (p : payload) :
  posts (log (news_main w cfg init).1) = [p] ->
  exists lists metas pieces,
    loop_ids w cfg cutoff (CHANNEL_IDS cfg) = inr lists
    /\ accumulate lists <> ∅
    /\ batch_answers w (chunked (elements (accumulate lists)) 50) = inr metas
    /\ Forall stamped metas
    /\ Forall2 (fun it bs => forall st, news_item_blocks it st = (st, inr bs))
         (sort_desc publishedAt metas) pieces
    /\ p = BlocksPayload news_text (news_header cfg :: concat pieces)
    /\ length (concat pieces) = 3 * length metas.
Proof.
  pose proof (news_main_run w cfg after Hafter) as Hrun.
  destruct (loop_ids w cfg cutoff (CHANNEL_IDS cfg)) as [e|lists] eqn:El.
  { rewrite Hrun. cbn [fst log]. rewrite posts_gets. discriminate. }
  cbv zeta in Hrun. destruct (decide (accumulate lists = ∅)) as [Hs|Hs].
  { rewrite Hrun. cbn [fst log]. rewrite posts_gets. discriminate. }
  destruct (batch_answers w (chunked (elements (accumulate lists)) 50))
    as [e|metas] eqn:Eb.
  { rewrite Hrun. cbn [fst log]. rewrite posts_gets. discriminate. }
  clear Hrun. pose proof (news_main_digest lists metas El Hs Eb) as H.
  cbv zeta in H.
  destruct (first_unshown (map publishedAt (sort_desc publishedAt metas)))
    as [e|] eqn:Ef.
  { rewrite H. cbn [fst log]. rewrite posts_gets. discriminate. }
  destruct H as (pieces & Hall & Hl & ->). cbn [fst log].
  rewrite posts_app, posts_gets. intros [= <-].
  exists lists, metas, pieces. split; [reflexivity|]. split; [exact Hs|].
  split; [exact Eb|]. split; [apply stamped_sorted, all_shown, Ef|].
  split; [exact Hall|]. split; [reflexivity|exact Hl].
Qed.

Lemma minutes_main_posts (p : payload) :
  posts (log (minutes_main w cfg init).1) = [p] ->
  exists lists,
    loop_ids w cfg cutoff (CHANNEL_IDS cfg) = inr lists
    /\ ((accumulate lists = ∅
         /\ p = TextPayload
                  (no_news_text cfg
                     (strftime (lit "%Y-%m-%d %H:%M") JST (clock w 1))))
        \/ (accumulate lists <> ∅
            /\ exists metas pieces,
                 batch_answers w (chunked (elements (accumulate lists)) 50)
                 = inr metas
                 /\ Forall stamped metas
                 /\ Forall2 (fun (q : nat * video) ls =>
                               forall st,
                                 minutes_item_lines q.1 q.2 st = (st, inr ls))
                      (combine (seq 1 (length metas))
                         (sort_desc publishedAt metas)) pieces
                 /\ p = TextPayload
                          (join [LF] (minutes_head (clock w 1)
                                      ++ concat pieces))
                 /\ 9 * length metas <= length (concat pieces)
                    <= 11 * length metas)).
Proof.
  pose proof (minutes_main_run w cfg after Hafter) as Hrun.
  destruct (loop_ids w cfg cutoff (CHANNEL_IDS cfg)) as [e|lists] eqn:El.
  { rewrite Hrun. cbn [fst log]. rewrite posts_gets. discriminate. }
  cbv zeta in Hrun. destruct (decide (accumulate lists = ∅)) as [Hs|Hs].
  { clear Hrun.
    destruct (collect_loop_sends w cfg cutoff (CHANNEL_IDS cfg) ∅)
      as (L & r & Hsend).
    fold (collect_ids w cfg cutoff) in Hsend.
    assert (Hr : (collect_ids w cfg cutoff (State [] 1)).2 = inr ∅).
    { rewrite (collect_ids_run w cfg after). cbn [snd]. rewrite El, Hs.
      reflexivity. }
    rewrite (sends_result _ _ _ _ _ Hsend Hr) in Hsend.
    rewrite (minutes_main_empty w cfg after Hafter L Hsend). cbn [fst log].
    rewrite posts_app, posts_gets. intros [= <-].
    exists lists. split; [reflexivity|]. left. split; [exact Hs|reflexivity]. }
  destruct (batch_answers w (chunked (elements (accumulate lists)) 50))
    as [e|metas] eqn:Eb.
  { rewrite Hrun. cbn [fst log]. rewrite posts_gets. discriminate. }
  clear Hrun. pose proof (minutes_main_digest lists metas El Hs Eb) as H.
  cbv zeta in H.
  destruct (first_unshown (map publishedAt (sort_desc publishedAt metas)))
    as [e|] eqn:Ef.
  { rewrite H. cbn [fst log]. rewrite posts_gets. discriminate. }
  destruct H as (pieces & Hall & Hl & ->). cbn [fst log].
  rewrite posts_app, posts_gets. intros [= <-].
  exists lists. split; [reflexivity|]. right. split; [exact Hs|].
  exists metas, pieces. split; [exact Eb|].
  split; [apply stamped_sorted, all_shown, Ef|].
  rewrite (Permutation_length (sort_desc_perm publishedAt metas)) in Hall.
  split; [exact Hall|]. split; [reflexivity|exact Hl].
Qed.

End Computed.

(** X18. What a run posts. A run that posts has computed its cutoff. If
    [yt_news.py] posts, every source and every batch was answered, some
    identifier was found, every [publishedAt] of the videos returned can
    be shown, and the message is the fixed fallback text with the header
    and three blocks for each video returned, the blocks of the videos
    sorted newest first. If [yt_minutes.py] posts, it is the notice with
    the second reading of the clock when nothing was found, and otherwise
    the text of two heading lines and nine to eleven lines for each video
    returned, the videos sorted newest first and numbered from 1. The
    digest counts the videos the API returned, not the identifiers asked
    for: if it returns none, the digest is the heading alone. *)
Theorem X18_what_is_posted (p : payload) :
  (posts (log (news_main w cfg init).1) = [p] ->
   exists after lists metas blocks pieces,
     minus_hours (clock w 0) (HOURS_WINDOW cfg) = Some after
     /\ loop_ids w cfg (to_iso_z after) (CHANNEL_IDS cfg) = inr lists
     /\ accumulate lists <> ∅
     /\ batch_answers w (chunked (elements (accumulate lists)) 50) = inr metas
     /\ Forall (fun it => shown (publishedAt it)) metas
     /\ Forall (fun it => readable (publishedAt it)) metas
     /\ p = BlocksPayload news_text blocks
     /\ head blocks = Some (news_header cfg)
     /\ length blocks = 1 + 3 * length metas
     /\ blocks = news_header cfg :: concat pieces
     /\ Forall2 (fun it bs => forall st, news_item_blocks it st = (st, inr bs))
          (sort_desc publishedAt metas) pieces)
  /\ (posts (log (minutes_main w cfg init).1) = [p] ->
      exists after lists,
        minus_hours (clock w 0) (HOURS_WINDOW cfg) = Some after
        /\ loop_ids w cfg (to_iso_z after) (CHANNEL_IDS cfg) = inr lists
        /\ ((accumulate lists = ∅
             /\ p = TextPayload
                      (no_news_text cfg
                         (strftime (lit "%Y-%m-%d %H:%M") JST (clock w 1))))
            \/ (accumulate lists <> ∅
                /\ exists metas lines pieces,
                     batch_answers w (chunked (elements (accumulate lists)) 50)
                     = inr metas
                     /\ Forall (fun it => shown (publishedAt it)) metas
                     /\ Forall (fun it => readable (publishedAt it)) metas
                     /\ p = TextPayload (join [LF] lines)
                     /\ 2 + 9 * length metas <= length lines
                        <= 2 + 11 * length metas
                     /\ lines = minutes_head (clock w 1) ++ concat pieces
                     /\ Forall2 (fun (q : nat * video) ls =>
                                   forall st,
                                     minutes_item_lines q.1 q.2 st
                                     = (st, inr ls))
                          (combine (seq 1 (length metas))
                             (sort_desc publishedAt metas)) pieces))).
Proof.
  assert (Hread : forall metas : list video,
             Forall stamped metas ->
             Forall (fun it => readable (publishedAt it)) metas).
  { intros metas H. eapply Forall_impl; [exact H|].
    intros it. apply shown_readable. }
  destruct (minus_hours (clock w 0) (HOURS_WINDOW cfg)) as [after|] eqn:Ha.
  - split.
    + intros Hp.
      destruct (news_main_posts after Ha p Hp)
        as (lists & metas & pieces & El & Hs & Eb & Hall & H2 & -> & Hl).
      exists after, lists, metas, (news_header cfg :: concat pieces), pieces.
      repeat split; try assumption; [apply Hread, Hall|].
      cbn [length]. lia.
    + intros Hp.
      destruct (minutes_main_posts after Ha p Hp)
        as (lists & El & [[Hs ->]|(Hs & metas & pieces & Eb & Hall & H2
                                   & -> & Hl)]).
      * exists after, lists. split; [reflexivity|]. split; [exact El|].
        left. split; [exact Hs|reflexivity].
      * exists after, lists. split; [reflexivity|]. split; [exact El|].
        right. split; [exact Hs|].
        exists metas, (minutes_head (clock w 1) ++ concat pieces), pieces.
        split; [exact Eb|]. split; [exact Hall|].
        split; [apply Hread, Hall|]. split; [reflexivity|].
        split; [|split; [reflexivity|exact H2]].
        rewrite length_app. cbn [minutes_head length]. lia.
  - rewrite (news_main_overflow w cfg Ha), (minutes_main_overflow w cfg Ha).
    cbn [fst log posts omap]. split; discriminate.
Qed.

End Posted.

(** X18, witness: the run of [yt_news.py] in the sample world posts one
    message, the header and three blocks for each of the two videos. *)
Lemma X18_what_is_posted_witness :
  exists p blocks,
    posts (log (news_main (py := Sample.py) Sample.w Sample.cfg init).1) = [p]
    /\ p = BlocksPayload [65; 73; 12488; 12524; 12531; 12489; 26032; 30528]%N
             blocks
    /\ length blocks = 7.
Proof.
  destruct (posts (log (news_main (py := Sample.py) Sample.w Sample.cfg init).1))
    as [|p [|q l]] eqn:E;
    [vm_compute in E; discriminate E| |vm_compute in E; discriminate E].
  destruct (proj1 (X18_what_is_posted (py := Sample.py) Sample.w Sample.cfg p) E)
    as (after & lists & metas & blocks & pieces & Ha & El & _ & Hb & _ & _
        & Hp & _ & Hl & _).
  exists p, blocks. split; [reflexivity|]. split; [exact Hp|].
  rewrite Hl. vm_compute in Ha. injection Ha as <-.
  vm_compute in El. injection El as <-.
  vm_compute in Hb. injection Hb as <-. reflexivity.
Defined.

(** ** Newest first, in what is posted *)

(** C7. [main] orders the fetched entries with
    [metas.sort(key=publishedAt, reverse=True)] and renders the ordered
    list. The ordered list has the same entries, each entry's
    [publishedAt] is lexically [>=] that of every entry after it, and
    entries with the same [publishedAt] stand in the order they were
    fetched in. In a run in which the cutoff is computed, every source
    and every batch is answered, some identifier is found and every
    [publishedAt] returned can be shown, the one message [yt_news.py]
    posts is the header followed by the blocks of the entries in that
    order, and the one message [yt_minutes.py] posts is the two heading
    lines followed by the lines of the entries in that order, numbered
    from 1; in any other run no digest is posted. Whenever either renderer
    returns, what it returns is made of the pieces of the entries in the
    order of the list it was given. *)
Theorem C7_sort_newest_first {py : PyLib} (w : world) (cfg : config)
    (after : Z) (lists : list (list str)) (metas : list video) :
  minus_hours (clock w 0) (HOURS_WINDOW cfg) = Some after ->
  loop_ids w cfg (to_iso_z after) (CHANNEL_IDS cfg) = inr lists ->
  accumulate lists <> ∅ ->
  batch_answers w (chunked (elements (accumulate lists)) 50) = inr metas ->
  Forall (fun it => shown (publishedAt it)) metas ->
  let sorted := sort_desc publishedAt metas in
  Permutation sorted metas
  /\ StronglySorted (before publishedAt) sorted
  /\ (forall i j a b,
        sorted !! i = Some a -> sorted !! j = Some b -> i <= j ->
        str_ge (publishedAt a) (publishedAt b) = true)
  /\ (forall k,
        filter (fun v => publishedAt v = k) sorted
        = filter (fun v => publishedAt v = k) metas)
  /\ (exists pieces,
        Forall2 (fun it bs => forall st, news_item_blocks it st = (st, inr bs))
          sorted pieces
        /\ posts (log (news_main w cfg init).1)
           = [BlocksPayload [65; 73; 12488; 12524; 12531; 12489; 26032; 30528]%N
                (news_header cfg :: concat pieces)])
  /\ (exists pieces,
        Forall2 (fun (q : nat * video) ls =>
                   forall st, minutes_item_lines q.1 q.2 st = (st, inr ls))
          (combine (seq 1 (length sorted)) sorted) pieces
        /\ posts (log (minutes_main w cfg init).1)
           = [TextPayload
                (join [LF] (minutes_head (clock w 1) ++ concat pieces))])
  /\ (forall (st st' : state) (text : str),
        build_minutes_text w sorted st = (st', inr text) ->
        exists pieces,
          text = join [LF] (minutes_head (clock w (ticks st)) ++ concat pieces)
          /\ Forall2 (fun '(idx, it) ls =>
                        exists s s', minutes_item_lines idx it s = (s', inr ls))
               (combine (seq 1 (length sorted)) sorted) pieces)
  /\ (forall (st st' : state) (blocks : list block),
        for_each sorted
          (fun it blocks => bs ← news_item_blocks it; mret (blocks ++ bs))
          [news_header cfg] st = (st', inr blocks) ->
        exists pieces,
          blocks = news_header cfg :: concat pieces
          /\ Forall2 (fun it bs =>
                        exists s s', news_item_blocks it s = (s', inr bs))
               sorted pieces).
Proof.
  intros Ha El Hs Eb Hall sorted. subst sorted.
  assert (Hnone : first_unshown
                    (map publishedAt (sort_desc publishedAt metas)) = None).
  { apply all_shown, stamped_sorted, Hall. }
  split; [apply sort_desc_perm|]. split; [apply sort_desc_sorted|].
  split.
  { intros i j a b Hi Hj Hij.
    apply (sorted_lookup publishedAt _ i j a b (sort_desc_sorted _ _) Hi Hj Hij). }
  split; [intros k; apply sort_desc_stable|].
  split.
  { pose proof (news_main_digest w cfg after Ha lists metas El Hs Eb) as H.
    cbv zeta in H. rewrite Hnone in H.
    destruct H as (pieces & H2 & _ & ->). exists pieces.
    split; [exact H2|]. cbn [fst log]. rewrite posts_app, posts_gets.
    reflexivity. }
  split.
  { pose proof (minutes_main_digest w cfg after Ha lists metas El Hs Eb) as H.
    cbv zeta in H. rewrite Hnone in H.
    destruct H as (pieces & H2 & _ & ->). exists pieces.
    split; [exact H2|]. cbn [fst log]. rewrite posts_app, posts_gets.
    reflexivity. }
  split.
  - intros st st' text. apply minutes_text_in_order.
  - intros st st' blocks. apply news_blocks_in_order.
Qed.

(** C7, witness: the run of the sample world. The API returns the older
    video first; both digests show the newer one first. *)
Lemma C7_sort_newest_first_witness :
  sort_desc publishedAt Sample.catalogue = rev Sample.catalogue
  /\ (exists first second,
        (forall st,
           news_item_blocks (py := Sample.py)
             {| v_id := lit "vidB1"; title := Some (lit "Weekly update");
                channelTitle := Some (lit "Beta");
                publishedAt := lit "2024-05-01T09:00:00Z";
                description := None |} st = (st, inr first))
        /\ (forall st,
              news_item_blocks (py := Sample.py)
                {| v_id := lit "vidA1";
                   title := Some (lit "Agent demo with Vision");
                   channelTitle := Some (lit "Alpha");
                   publishedAt := lit "2024-05-01T08:30:00Z";
                   description := Some Sample.intro_description |} st
              = (st, inr second))
        /\ posts (log (news_main (py := Sample.py) Sample.w Sample.cfg init).1)
           = [BlocksPayload
                [65; 73; 12488; 12524; 12531; 12489; 26032; 30528]%N
                (news_header Sample.cfg :: first ++ second)]).
Proof.
  split; [vm_compute; reflexivity|].
  assert (Ha : minus_hours (clock Sample.w 0) (HOURS_WINDOW Sample.cfg)
               = Some 1714521600000000%Z) by reflexivity.
  assert (El : loop_ids Sample.w Sample.cfg
                 (to_iso_z (py := Sample.py) 1714521600000000)
                 (CHANNEL_IDS Sample.cfg)
               = inr [[lit "vidA1"]; []; [lit "vidB1"; lit "vidA1"]])
    by (vm_compute; reflexivity).
  assert (Hs : accumulate [[lit "vidA1"]; []; [lit "vidB1"; lit "vidA1"]] <> ∅).
  { intros H. apply (f_equal elements) in H. vm_compute in H. discriminate H. }
  assert (Eb : batch_answers Sample.w
                 (chunked
                    (elements
                       (accumulate
                          [[lit "vidA1"]; []; [lit "vidB1"; lit "vidA1"]])) 50)
               = inr Sample.catalogue) by (vm_compute; reflexivity).
  assert (Hall : Forall (fun it => shown (py := Sample.py) (publishedAt it))
                   Sample.catalogue).
  { apply Forall_cons. split; [|apply Forall_cons; split; [|constructor]].
    - exists 1714552200000000%Z. split; vm_compute; reflexivity.
    - exists 1714554000000000%Z. split; vm_compute; reflexivity. }
  destruct (C7_sort_newest_first (py := Sample.py) Sample.w Sample.cfg _ _ _
              Ha El Hs Eb Hall)
    as (_ & _ & _ & _ & (pieces & H2 & Hp) & _).
  change (sort_desc publishedAt Sample.catalogue)
    with (rev Sample.catalogue) in H2.
  cbn [rev app Sample.catalogue] in H2.
  apply Forall2_cons_inv_l in H2 as (first & rest & Hf & H2 & ->).
  apply Forall2_cons_inv_l in H2 as (second & rest' & Hg & H2 & ->).
  apply Forall2_nil_inv_l in H2 as ->.
  exists first, second. split; [exact Hf|]. split; [exact Hg|].
  rewrite Hp. cbn [concat]. rewrite app_nil_r. reflexivity.
Defined.
